(** * Roll game utilities: a shallow embedding and its properties

    The embedded program is the roll-game utility module of the backend
    (second part of [sockets/cashier/credit/index.js]): bet validation
    ([rollCheckSendBetData], [rollCheckSendBetUser], [rollCheckSendBetGame]),
    per-round statistics ([rollGetUserGameStats]), round creation
    ([rollGenerateGame]), the outcome calculator ([rollGetOutcome],
    [rollIsHashDivisible]) and the view sanitizers ([rollSanitizeGame],
    [rollSanitizeBets], [rollSanitizeBet]).

    - JavaScript numbers are IEEE-754 binary64 values.  They are modelled
      by their exact rational value, and every arithmetic operation that
      rounds in JavaScript rounds here as well (round to nearest, ties to
      even, 53 bits, gradual underflow, overflow to infinity).  The sign of
      zero is not tracked: no operation of the program observes it.
    - Strings are sequences of 8-bit code units.
    - Values are [undefined], [null], booleans, numbers, strings, arrays
      and plain objects; an object is the list of its properties in order,
      none of which holds a function.  The conversions between strings and
      numbers are parameters; the conversion of an array or an object to a
      primitive is written out, with the TypeError it throws on an object
      whose own [toString] property hides the inherited method.
    - A thrown exception is a [Throw] result.
    - The database is a pair of collections threaded through the
      operations of [rollGenerateGame]; each operation can be rejected; the
      random bytes and the digest function are inputs.
    - The two socket handlers of the first part of the file
      ([sendCreditDeposit], [checkCreditDeposit]) are embedded as well: a
      run of a handler is the sequence of calls it makes to the modules it
      requires, whose behaviour is given. *)

From Stdlib Require Import ZArith QArith Qround Bool List String Ascii Lia.
From Stdlib Require Import DecimalString Floats.
Import ListNotations.

Local Open Scope Z_scope.

(** ** JavaScript numbers *)

Module JSNumber.

Inductive num : Type :=
| NaN : num
| Inf (neg : bool) : num
| Fin (q : Q) : num.

Definition ofZ (z : Z) : num := Fin (inject_Z z).

(** Nearest integer to [n / d] for [0 < d], ties going to the even one. *)
Definition rne (n d : Z) : Z :=
  let q := n / d in
  let r2 := 2 * (n mod d) in
  if r2 <? d then q
  else if d <? r2 then q + 1
  else if Z.even q then q else q + 1.

(** [d * 2^e <= n], also for negative [e]. *)
Definition scaled_leb (d e n : Z) : bool :=
  if 0 <=? e then d * 2 ^ e <=? n else d <=? n * 2 ^ (- e).

(** Binary exponent of the positive rational [n / d]:
    [2 ^ ilog2 n d <= n / d < 2 ^ (ilog2 n d + 1)]. *)
Definition ilog2 (n d : Z) : Z :=
  let e0 := Z.log2 n - Z.log2 d in
  if scaled_leb d e0 n then e0 else e0 - 1.

(** Binary64 parameters: 53 significant bits, least exponent of the last
    place -1074, overflow threshold 2^1024. *)
Definition prec : Z := 53.
Definition emin : Z := -1074.
Definition emax : Z := 1024.

(** Rounding of the positive rational [n / d] to binary64. *)
Definition round53 (n d : Z) : num :=
  let k := Z.max (ilog2 n d - (prec - 1)) emin in
  if 0 <=? k then
    let m := rne n (d * 2 ^ k) in
    if 2 ^ emax <=? m * 2 ^ k then Inf false
    else Fin (Qred (m * 2 ^ k # 1))
  else
    let m := rne (n * 2 ^ (- k)) d in
    Fin (Qred (m # Z.to_pos (2 ^ (- k)))).

Definition neg (x : num) : num :=
  match x with
  | NaN => NaN
  | Inf s => Inf (negb s)
  | Fin q => Fin (Qred (- q))
  end.

(** Rounding of an exact rational result to the nearest binary64 value. *)
Definition fl (q : Q) : num :=
  let r := Qred q in
  match Qnum r with
  | Z0 => Fin 0
  | Zpos p => round53 (Zpos p) (Zpos (Qden r))
  | Zneg p => neg (round53 (Zpos p) (Zpos (Qden r)))
  end.

Definition Qsign_neg (q : Q) : bool := Qnum q <? 0.
Definition Qis_zero (q : Q) : bool := Qnum q =? 0.

(** [x + y] *)
Definition add (x y : num) : num :=
  match x, y with
  | NaN, _ | _, NaN => NaN
  | Inf s, Inf t => if Bool.eqb s t then Inf s else NaN
  | Inf s, Fin _ => Inf s
  | Fin _, Inf t => Inf t
  | Fin a, Fin b => fl (a + b)
  end.

(** [x - y] *)
Definition sub (x y : num) : num :=
  match x, y with
  | NaN, _ | _, NaN => NaN
  | Inf s, Inf t => if Bool.eqb s t then NaN else Inf s
  | Inf s, Fin _ => Inf s
  | Fin _, Inf t => Inf (negb t)
  | Fin a, Fin b => fl (a - b)
  end.

(** [x * y] *)
Definition mul (x y : num) : num :=
  match x, y with
  | NaN, _ | _, NaN => NaN
  | Inf s, Inf t => Inf (xorb s t)
  | Inf s, Fin b => if Qis_zero b then NaN else Inf (xorb s (Qsign_neg b))
  | Fin a, Inf t => if Qis_zero a then NaN else Inf (xorb (Qsign_neg a) t)
  | Fin a, Fin b => fl (a * b)
  end.

(** [x / y].  A zero divisor is taken to be [+0]. *)
Definition div (x y : num) : num :=
  match x, y with
  | NaN, _ | _, NaN => NaN
  | Inf s, Inf t => NaN
  | Inf s, Fin b => Inf (xorb s (Qsign_neg b))
  | Fin a, Inf t => Fin 0
  | Fin a, Fin b =>
      if Qis_zero b then (if Qis_zero a then NaN else Inf (Qsign_neg a))
      else fl (a / b)
  end.

(** Integer part of a rational, towards zero. *)
Definition Qtrunc (q : Q) : Z := Z.quot (Qnum q) (Zpos (Qden q)).

(** [x % y]: the remainder has the sign of the dividend and is exact. *)
Definition rem (x y : num) : num :=
  match x, y with
  | NaN, _ | _, NaN => NaN
  | Inf _, _ => NaN
  | Fin a, Inf _ => Fin a
  | Fin a, Fin b =>
      if Qis_zero b then NaN
      else Fin (Qred (a - b * inject_Z (Qtrunc (a / b))))
  end.

(** [Math.floor(x)] *)
Definition floor (x : num) : num :=
  match x with
  | Fin q => ofZ (Qfloor q)
  | _ => x
  end.

(** [x < y]; false when either side is NaN. *)
Definition ltb (x y : num) : bool :=
  match x, y with
  | NaN, _ | _, NaN => false
  | Inf s, Inf t => s && negb t
  | Inf s, Fin _ => s
  | Fin _, Inf t => negb t
  | Fin a, Fin b => negb (Qle_bool b a)
  end.

(** [x <= y]; false when either side is NaN. *)
Definition leb (x y : num) : bool :=
  match x, y with
  | NaN, _ | _, NaN => false
  | Inf s, Inf t => s || negb t
  | Inf s, Fin _ => s
  | Fin _, Inf t => negb t
  | Fin a, Fin b => Qle_bool a b
  end.

(** [x > y] *)
Definition gtb (x y : num) : bool := ltb y x.

(** [x === y] on numbers. *)
Definition eqb (x y : num) : bool :=
  match x, y with
  | Inf s, Inf t => Bool.eqb s t
  | Fin a, Fin b => Qeq_bool a b
  | _, _ => false
  end.

Definition is_nan (x : num) : bool :=
  match x with NaN => true | _ => false end.

(** Signed 32-bit wrap-around of an integer. *)
Definition wrap32 (z : Z) : Z :=
  let r := z mod 2 ^ 32 in
  if r <? 2 ^ 31 then r else r - 2 ^ 32.

(** [ToInt32]: NaN and infinities give 0, otherwise truncate and wrap. *)
Definition ToInt32 (x : num) : Z :=
  match x with
  | Fin q => wrap32 (Qtrunc q)
  | _ => 0
  end.

(** [x << n]: both operands through [ToInt32]/[ToUint32], shift count
    masked to five bits, result wrapped to 32 bits. *)
Definition shl (x n : num) : num :=
  ofZ (wrap32 (Z.shiftl (ToInt32 x) (Z.land (ToInt32 n mod 2 ^ 32) 31))).

End JSNumber.

Import JSNumber.

(** The value of one of the kernel's binary64 numbers, for comparing the
    rounding above with the kernel's arithmetic. *)
Definition of_float (x : float) : num :=
  match Prim2SF x with
  | S754_zero _ => Fin 0
  | S754_infinity s => Inf s
  | S754_nan => NaN
  | S754_finite s m e =>
      let v := if 0 <=? e then (Z.pos m * 2 ^ e # 1)
               else (Z.pos m # Z.to_pos (2 ^ (- e))) in
      Fin (Qred (if s then - v else v))
  end.


(** ** Strings and [parseInt]

    Strings are sequences of 8-bit code units; the hashes the outcome
    calculator receives are hexadecimal text. *)

Module JSString.

Definition len (s : string) : Z := Z.of_nat (String.length s).

Definition clamp (lo hi x : Z) : Z := Z.min (Z.max x lo) hi.

(** [s.substring(start, end)]: both indices clamped to [0, length], swapped
    when out of order. *)
Definition substring (s : string) (start stop : Z) : string :=
  let a := clamp 0 (len s) start in
  let b := clamp 0 (len s) stop in
  let from := Z.min a b in
  let to := Z.max a b in
  String.substring (Z.to_nat from) (Z.to_nat (to - from)) s.

(** [s.slice(start, end)]: negative indices count from the end. *)
Definition slice (s : string) (start stop : Z) : string :=
  let rel (x : Z) := if x <? 0 then Z.max (len s + x) 0 else Z.min x (len s) in
  let from := rel start in
  let to := rel stop in
  String.substring (Z.to_nat from) (Z.to_nat (Z.max (to - from) 0)) s.

(** White space skipped by [parseInt] (the code units below 256). *)
Definition is_white (c : ascii) : bool :=
  let n := Z.of_nat (nat_of_ascii c) in
  ((9 <=? n) && (n <=? 13)) || (n =? 32) || (n =? 160).

(** Value of a character as a digit in a radix up to 36. *)
Definition digit_value (c : ascii) : option Z :=
  let n := Z.of_nat (nat_of_ascii c) in
  if (48 <=? n) && (n <=? 57) then Some (n - 48)
  else if (97 <=? n) && (n <=? 122) then Some (n - 87)
  else if (65 <=? n) && (n <=? 90) then Some (n - 55)
  else None.

Fixpoint trim_left (s : string) : string :=
  match s with
  | String c r => if is_white c then trim_left r else s
  | EmptyString => s
  end.

(** Longest prefix of digits below [radix], read most significant first;
    [acc] is the value read so far, [None] before the first digit. *)
Fixpoint parse_digits (radix : Z) (s : string) (acc : option Z) : option Z :=
  match s with
  | EmptyString => acc
  | String c r =>
      match digit_value c with
      | Some d =>
          if d <? radix then
            parse_digits radix r
              (Some (match acc with Some a => a * radix + d | None => d end))
          else acc
      | None => acc
      end
  end.

Definition strip_sign (s : string) : bool * string :=
  match s with
  | String c r =>
      if Ascii.eqb c "-" then (true, r)
      else if Ascii.eqb c "+" then (false, r)
      else (false, s)
  | EmptyString => (false, s)
  end.

Definition strip_0x (s : string) : option string :=
  match s with
  | String c (String x r) =>
      if Ascii.eqb c "0" && (Ascii.eqb x "x" || Ascii.eqb x "X") then Some r
      else None
  | _ => None
  end.

(** [parseInt(s, radix)]; [radix = None] is the call with one argument. *)
Definition parseInt (s : string) (radix : option Z) : num :=
  let '(negative, s1) := strip_sign (trim_left s) in
  let r0 := match radix with Some r => wrap32 r | None => 0 end in
  if (r0 =? 0) || ((2 <=? r0) && (r0 <=? 36)) then
    let '(r, s2) :=
      if (r0 =? 0) || (r0 =? 16) then
        match strip_0x s1 with
        | Some s2 => (16, s2)
        | None => ((if r0 =? 0 then 10 else r0), s1)
        end
      else (r0, s1) in
    match parse_digits r s2 None with
    | None => NaN
    | Some z => fl (inject_Z (if negative then - z else z))
    end
  else NaN.

End JSString.

Import JSString.

Local Open Scope string_scope.
Local Open Scope Z_scope.

(** ** The outcome calculator *)

(** The loop of [rollIsHashDivisible]: [i] runs from its start value in
    steps of 4 while [i < combined.length].  [fuel] bounds the number of
    iterations; [None] is returned only when it runs out. *)
Fixpoint rollIsHashDivisible_loop (fuel : nat) (combined : string) (md : num)
  (i : Z) (val : num) : option num :=
  if i <? len combined then
    match fuel with
    | O => None
    | S fuel' =>
        rollIsHashDivisible_loop fuel' combined md (i + 4)
          (rem (add (shl val (ofZ 16))
                    (parseInt (substring combined i (i + 4)) (Some 16))) md)
    end
  else Some val.

(** Final value of [val] in [rollIsHashDivisible]. *)
Definition rollIsHashDivisible_val (combined : string) (md : num) : option num :=
  let o := Z.rem (len combined) 4 in
  rollIsHashDivisible_loop (S (String.length combined)) combined md
    (if 0 <? o then o - 4 else 0) (ofZ 0).

Definition rollIsHashDivisible (combined : string) (md : num) : bool :=
  match rollIsHashDivisible_val combined md with
  | Some val => eqb val (ofZ 0)
  | None => false
  end.

(** The text of a number whose value is an integer below 10^21: its
    decimal digits.  (For other finite numbers the language prints a
    fraction or an exponent; the program never converts one.) *)
Definition integral_text (x : num) : string :=
  match x with
  | NaN => "NaN"
  | Inf false => "Infinity"
  | Inf true => "-Infinity"
  | Fin q => NilZero.string_of_int (Z.to_int (Qfloor q))
  end.

(** [100 / (0.05 * 100)] *)
Definition house_edge_quotient : num :=
  div (ofZ 100) (mul (fl (5 # 100)) (ofZ 100)).

(** [parseInt(100 / (0.05 * 100))]: the argument, the number 20, is
    converted to its text and read back. *)
Definition rollGetOutcome_mod : num :=
  parseInt (integral_text house_edge_quotient) None.

(** The second branch of [rollGetOutcome]. *)
Definition rollGetOutcome_curve (combined : string) : num :=
  let h := parseInt (slice combined 0 (52 / 4)) (Some 16) in
  let e := ofZ (2 ^ 52) in
  floor (div (sub (mul (ofZ 100) e) h) (sub e h)).

Definition rollGetOutcome (combined : string) : num :=
  if rollIsHashDivisible combined rollGetOutcome_mod then ofZ 100
  else rollGetOutcome_curve combined.

(** *** The calculator in the words of its specification

    The hash is read as hexadecimal digits.  Its chunks are a leading
    partial chunk, when the length is not a multiple of four, followed by
    groups of four digits; each chunk is folded into the accumulator by
    [acc = ((acc << 16) + chunk) mod M]. *)

Definition is_hex_digit (c : ascii) : bool :=
  match digit_value c with
  | Some d => d <? 16
  | None => false
  end.

Fixpoint is_hex (s : string) : bool :=
  match s with
  | EmptyString => true
  | String c r => is_hex_digit c && is_hex r
  end.

Fixpoint hex_value_from (acc : Z) (s : string) : Z :=
  match s with
  | EmptyString => acc
  | String c r =>
      hex_value_from (acc * 16 + match digit_value c with Some d => d | None => 0 end) r
  end.

(** The integer a string of hexadecimal digits denotes. *)
Definition hex_value (s : string) : Z := hex_value_from 0 s.

Fixpoint str_take (n : nat) (s : string) : string :=
  match n, s with
  | S n', String c r => String c (str_take n' r)
  | _, _ => EmptyString
  end.

Fixpoint str_drop (n : nat) (s : string) : string :=
  match n, s with
  | S n', String c r => str_drop n' r
  | _, _ => s
  end.

Fixpoint groups4 (s : string) : list string :=
  match s with
  | String a (String b (String c (String d r))) =>
      String a (String b (String c (String d EmptyString))) :: groups4 r
  | EmptyString => []
  | short => [short]
  end.

Definition hash_chunks (s : string) : list string :=
  let o := (String.length s mod 4)%nat in
  if (o =? 0)%nat then groups4 s
  else str_take o s :: groups4 (str_drop o s).

Definition modular_fold (M : Z) (chunks : list Z) : Z :=
  fold_left (fun acc chunk => (Z.shiftl acc 16 + chunk) mod M) chunks 0.

(** One turn of the loop of [rollIsHashDivisible] on a chunk. *)
Definition fold_step (md : num) (val : num) (chunk : string) : num :=
  rem (add (shl val (ofZ 16)) (parseInt chunk (Some 16))) md.

(** A chunk of a hexadecimal hash: one to four hexadecimal digits. *)
Definition good_chunk (c : string) : Prop :=
  c <> EmptyString /\ is_hex c = true /\ (String.length c <= 4)%nat.

(** [floor((100 e - h) / (e - h))] over the integers, [e = 2^52]. *)
Definition exact_curve (h : Z) : Z := (100 * 2 ^ 52 - h) / (2 ^ 52 - h).

(** ** JavaScript values, errors and coercions *)

#[local] Set Warnings "-register-all".

Inductive jsval : Type :=
| VUndef : jsval
| VNull : jsval
| VBool (b : bool) : jsval
| VNum (n : num) : jsval
| VStr (s : string) : jsval
| VArr (items : list jsval) : jsval
| VObj (fields : list (string * jsval)) : jsval.

(** The messages of the [Error]s the validators throw. *)
Inductive message : Type :=
| MsgSomethingWrong      (* 'Something went wrong. Please try again in a few seconds.' *)
| MsgInvalidAmount       (* 'You've entered an invalid bet amount.' *)
| MsgInvalidMultiplier   (* 'Your entered bet multiplier is invalid.' *)
| MsgMinAmount           (* 'You can only bet a min amount of R$... per game.' *)
| MsgBalance             (* 'You don't have enough balance for this action.' *)
| MsgMaxAmount           (* 'You can only bet a total max amount of R$... per game.' *)
| MsgMaxProfit           (* 'You can only have a total max win amount of R$... per game.' *)
| MsgWaitNextRound.      (* 'You need to wait for the next round before you can bet.' *)

Inductive error : Type :=
| Error (m : message)    (* thrown by the program *)
| TypeError              (* property read or method call on undefined or null,
                            call of a property that is no function, conversion
                            of an object that has none *)
| SyntaxError            (* JSON.parse of a text that is not JSON *)
| DbError.               (* a rejected database operation *)

Inductive result (A : Type) : Type :=
| Ok (a : A)
| Throw (e : error).

Arguments Ok {A} a.
Arguments Throw {A} e.

Definition bind {A B : Type} (r : result A) (f : A -> result B) : result B :=
  match r with
  | Ok a => f a
  | Throw e => Throw e
  end.

Notation "x <- r ;; k" := (bind r (fun x => k))
  (at level 61, r at next level, right associativity).

Definition is_ok {A : Type} (r : result A) : bool :=
  match r with Ok _ => true | Throw _ => false end.

Fixpoint lookup (k : string) (fs : list (string * jsval)) : option jsval :=
  match fs with
  | [] => None
  | (k', v) :: r => if String.eqb k' k then Some v else lookup k r
  end.

(** [delete o.k] *)
Fixpoint remove_key (k : string) (fs : list (string * jsval)) : list (string * jsval) :=
  match fs with
  | [] => []
  | (k', v) :: r => if String.eqb k' k then remove_key k r else (k', v) :: remove_key k r
  end.

(** [o.k = v]: an existing key keeps its place, a new one goes last. *)
Fixpoint set_key (k : string) (v : jsval) (fs : list (string * jsval)) : list (string * jsval) :=
  match fs with
  | [] => [(k, v)]
  | (k', v') :: r => if String.eqb k' k then (k, v) :: r else (k', v') :: set_key k v r
  end.

Definition is_nullish (v : jsval) : bool :=
  match v with VUndef | VNull => true | _ => false end.

Definition is_undefined (v : jsval) : bool :=
  match v with VUndef => true | _ => false end.

(** [v.k] for the property names the program reads (none of them is a
    built-in property of a string, number, boolean or array). *)
Definition get (v : jsval) (k : string) : result jsval :=
  match v with
  | VUndef | VNull => Throw TypeError
  | VObj fs => Ok (match lookup k fs with Some x => x | None => VUndef end)
  | _ => Ok VUndef
  end.

(** [v === s] for a string literal [s]. *)
Definition strict_eq_str (v : jsval) (s : string) : bool :=
  match v with VStr t => String.eqb t s | _ => false end.

Fixpoint join (sep : string) (l : list string) : string :=
  match l with
  | [] => ""
  | [x] => x
  | x :: r => x ++ sep ++ join sep r
  end.

(** The numeric values of the three environment settings (NaN when a
    setting is absent or not a number). *)
Record Env : Type := {
  ROLL_MIN_AMOUNT : num;
  ROLL_MAX_AMOUNT : num;
  ROLL_MAX_PROFIT : num
}.

(** The thresholds the validators compare with:
    [Math.floor(process.env.ROLL_..._AMOUNT * 1000)]. *)
Definition min_threshold (env : Env) : num :=
  floor (mul (ROLL_MIN_AMOUNT env) (ofZ 1000)).
Definition max_bet_ceiling (env : Env) : num :=
  floor (mul (ROLL_MAX_AMOUNT env) (ofZ 1000)).
Definition max_profit_ceiling (env : Env) : num :=
  floor (mul (ROLL_MAX_PROFIT env) (ofZ 1000)).

(** Whether the conversion of a value to a primitive returns.  The values
    here are data: no property holds a function.  An object is converted
    by its [toString] (its [valueOf] yields no primitive): an object that
    has a property of that name of its own, which is then not callable,
    has no conversion, and the attempt throws a TypeError; every other
    object inherits [Object.prototype.toString].  An array is converted by
    joining its items, each of them converted in turn. *)
Fixpoint converts (v : jsval) : bool :=
  match v with
  | VArr l => forallb converts l
  | VObj fs => match lookup "toString" fs with Some _ => false | None => true end
  | _ => true
  end.

Section Coercions.

(** The two conversions between strings and numbers are those of the
    language; the program's behaviour is stated for any such pair. *)
Variable StringToNumber : string -> num.
Variable NumberToString : num -> string.

(** The text of a value whose conversion returns. *)
Fixpoint text_of (v : jsval) : string :=
  match v with
  | VUndef => "undefined"
  | VNull => "null"
  | VBool true => "true"
  | VBool false => "false"
  | VNum n => NumberToString n
  | VStr s => s
  | VArr l =>
      join "," (map (fun x => match x with
                              | VUndef | VNull => ""
                              | _ => text_of x
                              end) l)
  | VObj _ => "[object Object]"
  end.

Definition ToString (v : jsval) : result string :=
  if converts v then Ok (text_of v) else Throw TypeError.

Definition ToPrimitive (v : jsval) : result jsval :=
  match v with
  | VArr _ | VObj _ => s <- ToString v ;; Ok (VStr s)
  | _ => Ok v
  end.

(** The number of a primitive. *)
Definition primitive_number (p : jsval) : num :=
  match p with
  | VUndef => NaN
  | VNull => ofZ 0
  | VBool b => ofZ (if b then 1 else 0)
  | VNum n => n
  | VStr s => StringToNumber s
  | _ => NaN
  end.

Definition ToNumber (v : jsval) : result num :=
  p <- ToPrimitive v ;; Ok (primitive_number p).

(** [a + b]: both sides are converted to primitives, the left one first;
    concatenation as soon as one of them is a string. *)
Definition js_add (a b : jsval) : result jsval :=
  pa <- ToPrimitive a ;;
  pb <- ToPrimitive b ;;
  Ok (match pa, pb with
      | VStr _, _ | _, VStr _ => VStr (text_of pa ++ text_of pb)
      | _, _ => VNum (add (primitive_number pa) (primitive_number pb))
      end).

(** [a * b] and [a / b]: both sides are converted to numbers, the left
    one first. *)
Definition js_mul (a b : jsval) : result jsval :=
  na <- ToNumber a ;; nb <- ToNumber b ;; Ok (VNum (mul na nb)).
Definition js_div (a b : jsval) : result jsval :=
  na <- ToNumber a ;; nb <- ToNumber b ;; Ok (VNum (div na nb)).

Definition Math_floor (v : jsval) : result num :=
  n <- ToNumber v ;; Ok (floor n).
Definition isNaN (v : jsval) : result bool :=
  n <- ToNumber v ;; Ok (is_nan n).

(** [v.toString()] *)
Definition toString_method (v : jsval) : result string :=
  if is_nullish v then Throw TypeError else ToString v.

(** The number a value converts to, for the statements of properties;
    [NaN] stands in where the conversion throws. *)
Definition number_of (v : jsval) : num :=
  match ToNumber v with
  | Ok n => n
  | Throw _ => NaN
  end.

(** ** Bet validation *)

Variable env : Env.

(** [Math.floor(amount * (multiplier / 100) + winnings)]: the potential
    winnings of a bet on top of a total.  The quotient is evaluated
    before the product converts the amount. *)
Definition profit_total (amount multiplier winnings : jsval) : result num :=
  quotient <- js_div multiplier (VNum (ofZ 100)) ;;
  product <- js_mul amount quotient ;;
  total <- js_add product winnings ;;
  Math_floor total.

Definition throw_msg {A : Type} (m : message) : result A := Throw (Error m).

(** [v === undefined || v === null || isNaN(v) === true
     || Math.floor(v) <= bound], evaluated from left to right. *)
Definition invalid_number (v : jsval) (bound : num) : result bool :=
  if is_nullish v then Ok true
  else
    not_a_number <- isNaN v ;;
    if not_a_number then Ok true
    else floored <- Math_floor v ;; Ok (leb floored bound).

Definition rollCheckSendBetData (data : jsval) : result unit :=
  if is_nullish data then throw_msg MsgSomethingWrong
  else
    amount <- get data "amount" ;;
    amount_invalid <- invalid_number amount (ofZ 0) ;;
    if amount_invalid then throw_msg MsgInvalidAmount
    else
      multiplier <- get data "multiplier" ;;
      multiplier_invalid <- invalid_number multiplier (ofZ 100) ;;
      if multiplier_invalid then throw_msg MsgInvalidMultiplier
      else
        floored <- Math_floor amount ;;
        if ltb floored (min_threshold env) then throw_msg MsgMinAmount
        else Ok tt.

Definition rollCheckSendBetUser (data user userStats : jsval) : result unit :=
  if is_undefined data || is_undefined user then throw_msg MsgSomethingWrong
  else
    balance <- get user "balance" ;;
    amount <- get data "amount" ;;
    floored <- Math_floor amount ;;
    balance_number <- ToNumber balance ;;
    if ltb balance_number floored then throw_msg MsgBalance
    else
      stats_bet <- get userStats "bet" ;;
      sum <- js_add amount stats_bet ;;
      total <- Math_floor sum ;;
      if gtb total (max_bet_ceiling env) then throw_msg MsgMaxAmount
      else
        multiplier <- get data "multiplier" ;;
        stats_winnings <- get userStats "winnings" ;;
        profit <- profit_total amount multiplier stats_winnings ;;
        if gtb profit (max_profit_ceiling env) then throw_msg MsgMaxProfit
        else Ok tt.

Definition rollCheckSendBetGame (rollGame : jsval) : result unit :=
  if is_nullish rollGame then throw_msg MsgSomethingWrong
  else
    state <- get rollGame "state" ;;
    if negb (strict_eq_str state "created") then throw_msg MsgWaitNextRound
    else Ok tt.

(** The [stats] object of [rollGetUserGameStats]. *)
Definition stats_obj (b w : jsval) : jsval :=
  VObj [("bet", b); ("winnings", w)].

Fixpoint rollGetUserGameStats_loop (user : jsval) (rollBets : list jsval)
  (stats_bet stats_winnings : jsval) : result jsval :=
  match rollBets with
  | [] => Ok (stats_obj stats_bet stats_winnings)
  | b :: rest =>
      bet_user <- get b "user" ;;
      bet_uid <- get bet_user "_id" ;;
      s1 <- toString_method bet_uid ;;
      uid <- get user "_id" ;;
      s2 <- toString_method uid ;;
      if String.eqb s1 s2 then
        amount <- get b "amount" ;;
        sum <- js_add stats_bet amount ;;
        new_bet <- Math_floor sum ;;
        multiplier <- get b "multiplier" ;;
        quotient <- js_div multiplier (VNum (ofZ 100)) ;;
        product <- js_mul amount quotient ;;
        winnings <- js_add stats_winnings product ;;
        new_winnings <- Math_floor winnings ;;
        rollGetUserGameStats_loop user rest (VNum new_bet) (VNum new_winnings)
      else rollGetUserGameStats_loop user rest stats_bet stats_winnings
  end.

Definition rollGetUserGameStats (user : jsval) (rollBets : list jsval) : result jsval :=
  rollGetUserGameStats_loop user rollBets (VNum (ofZ 0)) (VNum (ofZ 0)).

End Coercions.

(** ** View sanitizers *)

(** [JSON.parse(JSON.stringify(v))] for a defined [v]: properties holding
    [undefined] are dropped, [undefined] array items and numbers that are
    not finite become [null]. *)
Fixpoint json_copy (v : jsval) : jsval :=
  match v with
  | VUndef => VNull
  | VNum (Fin q) => v
  | VNum _ => VNull
  | VArr l => VArr (map json_copy l)
  | VObj fs =>
      VObj ((fix copy_fields (fs : list (string * jsval)) :=
               match fs with
               | [] => []
               | (k, VUndef) :: r => copy_fields r
               | (k, x) :: r => (k, json_copy x) :: copy_fields r
               end) fs)
  | _ => v
  end.

(** [JSON.stringify(undefined)] is [undefined], which [JSON.parse] refuses. *)
Definition JSON_roundtrip (v : jsval) : result jsval :=
  match v with
  | VUndef => Throw SyntaxError
  | _ => Ok (json_copy v)
  end.

(** [delete v.k] *)
Definition delete (v : jsval) (k : string) : jsval :=
  match v with
  | VObj fs => VObj (remove_key k fs)
  | _ => v
  end.

Definition rollSanitizeGame (game : jsval) : result jsval :=
  sanitized <- JSON_roundtrip game ;;
  state <- get sanitized "state" ;;
  if negb (strict_eq_str state "rolling") && negb (strict_eq_str state "completed")
  then Ok (delete (delete sanitized "outcome") "fair")
  else Ok sanitized.

Definition index_key (i : nat) : string := NilZero.string_of_uint (Nat.to_uint i).

Fixpoint indexed {A : Type} (f : A -> jsval) (i : nat) (l : list A) : list (string * jsval) :=
  match l with
  | [] => []
  | x :: r => (index_key i, f x) :: indexed f (S i) r
  end.

(** Own enumerable properties of a value, in order. *)
Definition own_properties (v : jsval) : list (string * jsval) :=
  match v with
  | VObj fs => fs
  | VArr l => indexed (fun x => x) 0 l
  | VStr s => indexed (fun c => VStr (String c EmptyString)) 0 (list_ascii_of_string s)
  | _ => []
  end.

(** [{...v}]: every own property is defined on a fresh object in turn. *)
Definition spread (v : jsval) : list (string * jsval) :=
  fold_left (fun acc kv => set_key (fst kv) (snd kv) acc) (own_properties v) [].

(** The object literal both bet sanitizers build from a user. *)
Definition public_user (u : jsval) : result jsval :=
  _id <- get u "_id" ;;
  roblox <- get u "roblox" ;;
  username <- get u "username" ;;
  avatar <- get u "avatar" ;;
  rank <- get u "rank" ;;
  level <- get u "level" ;;
  rakeback <- get u "rakeback" ;;
  rakeback_name <- get rakeback "name" ;;
  stats <- get u "stats" ;;
  createdAt <- get u "createdAt" ;;
  Ok (VObj [("_id", _id); ("roblox", roblox); ("username", username);
            ("avatar", avatar); ("rank", rank); ("level", level);
            ("rakeback", rakeback_name); ("stats", stats);
            ("createdAt", createdAt)]).

Fixpoint rollSanitizeBets (bets : list jsval) : result (list jsval) :=
  match bets with
  | [] => Ok []
  | b :: rest =>
      u <- get b "user" ;;
      pu <- public_user u ;;
      sanitized <- rollSanitizeBets rest ;;
      Ok (VObj (set_key "user" pu (spread b)) :: sanitized)
  end.

Definition rollSanitizeBet (b : jsval) : result jsval :=
  sanitized <- JSON_roundtrip b ;;
  u <- get sanitized "user" ;;
  pu <- public_user u ;;
  match sanitized with
  | VObj fs => Ok (VObj (set_key "user" pu fs))
  | _ => Ok sanitized
  end.

(** ** Round creation

    The two collections are lists of documents, newest last; identifiers
    are handed out in increasing order.  Every database operation may be
    rejected; a rejected operation leaves the collections as they were. *)

Record RollSeedDoc : Type := {
  seed_id : nat;
  seedServer : string;
  hash : string;
  seed_state : string
}.

Record RollGameDoc : Type := {
  game_id : nat;
  fair_seed : nat;
  game_state : string
}.

Record DB : Type := {
  seeds : list RollSeedDoc;
  games : list RollGameDoc;
  next_id : nat
}.

(** Which operations of one run are rejected. *)
Record Faults : Type := {
  fail_findOne : bool;
  fail_seed_create : bool;
  fail_game_create : bool;
  fail_seed_update : bool;
  fail_populate : bool
}.

(** A database action: a result and the collections after it. *)
Definition M (A : Type) : Type := DB -> result A * DB.

Definition ret {A : Type} (a : A) : M A := fun db => (Ok a, db).

(** [await] in sequence: a rejection skips what follows. *)
Definition mbind {A B : Type} (m : M A) (f : A -> M B) : M B :=
  fun db =>
    match m db with
    | (Ok a, db') => f a db'
    | (Throw e, db') => (Throw e, db')
    end.

Notation "x <~ m ;; k" := (mbind m (fun x => k))
  (at level 61, m at next level, right associativity).

(** [Promise.all([p1, p2])]: both operations are issued; the result is
    rejected when one of them is, whatever the other one did. *)
Definition promise_all2 {A B : Type} (p1 : M A) (p2 : M B) : M (A * B) :=
  fun db =>
    let '(r1, db1) := p1 db in
    let '(r2, db2) := p2 db1 in
    match r1, r2 with
    | Ok a, Ok b => (Ok (a, b), db2)
    | Throw e, _ => (Throw e, db2)
    | _, Throw e => (Throw e, db2)
    end.

(** The created seed with the greatest [_id], if any. *)
Fixpoint latest_created (l : list RollSeedDoc) (best : option RollSeedDoc) : option RollSeedDoc :=
  match l with
  | [] => best
  | d :: r =>
      if String.eqb (seed_state d) "created" then
        match best with
        | Some b => if (seed_id b <? seed_id d)%nat then latest_created r (Some d)
                    else latest_created r best
        | None => latest_created r (Some d)
        end
      else latest_created r best
  end.

(** [RollSeed.findOne({ state: 'created' }).sort({ _id: -1 }).lean()] *)
Definition RollSeed_findOne_created (f : Faults) : M (option RollSeedDoc) :=
  fun db => if fail_findOne f then (Throw DbError, db)
            else (Ok (latest_created (seeds db) None), db).

(** [RollSeed.create(newSeed)] *)
Definition RollSeed_create (f : Faults) (server h st : string) : M RollSeedDoc :=
  fun db =>
    if fail_seed_create f then (Throw DbError, db)
    else
      let d := {| seed_id := next_id db; seedServer := server; hash := h;
                  seed_state := st |} in
      (Ok d, {| seeds := seeds db ++ [d]; games := games db;
                next_id := S (next_id db) |}).

(** [RollGame.create({ fair: { seed }, state })] *)
Definition RollGame_create (f : Faults) (seed : nat) (st : string) : M RollGameDoc :=
  fun db =>
    if fail_game_create f then (Throw DbError, db)
    else
      let g := {| game_id := next_id db; fair_seed := seed; game_state := st |} in
      (Ok g, {| seeds := seeds db; games := games db ++ [g];
                next_id := S (next_id db) |}).

Definition set_seed_state (id : nat) (st : string) (d : RollSeedDoc) : RollSeedDoc :=
  if (seed_id d =? id)%nat
  then {| seed_id := seed_id d; seedServer := seedServer d; hash := hash d;
          seed_state := st |}
  else d.

(** [RollSeed.findByIdAndUpdate(id, { state }, {})] *)
Definition RollSeed_findByIdAndUpdate (f : Faults) (id : nat) (st : string) : M unit :=
  fun db =>
    if fail_seed_update f then (Throw DbError, db)
    else (Ok tt, {| seeds := map (set_seed_state id st) (seeds db);
                    games := games db; next_id := next_id db |}).

(** The round handed back by [rollGenerateGame], its seed populated with
    [seedServer] and [hash]. *)
Record RollGameView : Type := {
  view_id : nat;
  view_seed : option (nat * string * string);
  view_state : string
}.

(** [populate({ path: 'fair.seed', select: 'seedServer hash' })] and [toObject()] *)
Definition populate_seed (f : Faults) (g : RollGameDoc) : M RollGameView :=
  fun db =>
    if fail_populate f then (Throw DbError, db)
    else
      (Ok {| view_id := game_id g;
             view_seed :=
               option_map (fun d => (seed_id d, seedServer d, hash d))
                          (find (fun d => (seed_id d =? fair_seed g)%nat) (seeds db));
             view_state := game_state g |}, db).

Definition hex_char (n : N) : ascii :=
  ascii_of_N (if (n <? 10)%N then 48 + n else 87 + n)%N.

(** [buffer.toString('hex')] *)
Fixpoint hex_of_bytes (l : list Byte.byte) : string :=
  match l with
  | [] => EmptyString
  | b :: r =>
      let n := Byte.to_N b in
      String (hex_char (n / 16)%N) (String (hex_char (n mod 16)%N) (hex_of_bytes r))
  end.

Section RollGenerateGame.

(** The digest function behind [crypto.createHash('sha256')]. *)
Variable sha256 : list Byte.byte -> list Byte.byte.

(** [rollGenerateGame]; [r1] and [r2] are the results of the first and
    second call of [crypto.randomBytes(32)], drawn only when a seed is
    created.  A rejection is the promise's rejection. *)
Definition rollGenerateGame (f : Faults) (r1 r2 : list Byte.byte) : M RollGameView :=
  found <~ RollSeed_findOne_created f ;;
  seedDatabase <~ match found with
                  | Some d => ret d
                  | None =>
                      RollSeed_create f (hex_of_bytes r1)
                        (hex_of_bytes (sha256 r2)) "created"
                  end ;;
  dataDatabase <~ promise_all2
                    (RollGame_create f (seed_id seedDatabase) "created")
                    (RollSeed_findByIdAndUpdate f (seed_id seedDatabase) "completed") ;;
  populate_seed f (fst dataDatabase).

End RollGenerateGame.

(** ** Shapes of the validators' arguments *)

(** The value of [o.k] for the fields [fs] of an object [o]. *)
Definition field (fs : list (string * jsval)) (k : string) : jsval :=
  match lookup k fs with Some x => x | None => VUndef end.

(** The value of [v.k] where the read does not throw. *)
Definition prop (v : jsval) (k : string) : jsval :=
  match v with VObj fs => field fs k | _ => VUndef end.

Definition bet_data (amount multiplier : jsval) : jsval :=
  VObj [("amount", amount); ("multiplier", multiplier)].

Definition user_with_balance (balance : jsval) : jsval :=
  VObj [("balance", balance)].

Definition placed_bet (user_id : string) (amount multiplier : Z) : jsval :=
  VObj [("user", VObj [("_id", VStr user_id)]);
        ("amount", VNum (ofZ amount)); ("multiplier", VNum (ofZ multiplier))].

(** The fields of a JSON copy of an object. *)
Definition json_copy_fields (fs : list (string * jsval)) : list (string * jsval) :=
  match json_copy (VObj fs) with
  | VObj r => r
  | _ => []
  end.

(** The keys of the user object the bet sanitizers build. *)
Definition public_user_keys : list string :=
  ["_id"; "roblox"; "username"; "avatar"; "rank"; "level"; "rakeback"; "stats";
   "createdAt"].

(** A bet the sanitizers can read: it has a user, and the user a rakeback. *)
Definition bet_readable (b : jsval) : bool :=
  negb (is_nullish b)
  && negb (is_nullish (prop b "user"))
  && negb (is_nullish (prop (prop b "user") "rakeback")).

(** The public projection of a user: the nine fields, read from [u]. *)
Definition public_projection (u : jsval) : list (string * jsval) :=
  [("_id", prop u "_id"); ("roblox", prop u "roblox");
   ("username", prop u "username"); ("avatar", prop u "avatar");
   ("rank", prop u "rank"); ("level", prop u "level");
   ("rakeback", prop (prop u "rakeback") "name"); ("stats", prop u "stats");
   ("createdAt", prop u "createdAt")].

(** What a sanitized bet [o] is with respect to the bet [b] it comes from:
    an object whose [user] is the public projection of [b.user] and whose
    other fields are those of [{...b}]. *)
Definition sanitized_bet (b o : jsval) : Prop :=
  exists fs : list (string * jsval),
    o = VObj fs
    /\ lookup "user" fs = Some (VObj (public_projection (prop b "user")))
    /\ forall k : string, k <> "user" -> lookup k fs = lookup k (spread b).

(** No seed in state 'created' is on record: the run creates one. *)
Definition needs_seed (db : DB) : bool :=
  match latest_created (seeds db) None with
  | Some _ => false
  | None => true
  end.

(** The seed the run works with: the latest created one, or the one it
    creates. *)
Definition seed_in_use (db : DB) : nat :=
  match latest_created (seeds db) None with
  | Some d => seed_id d
  | None => next_id db
  end.

Definition empty_db : DB := {| seeds := []; games := []; next_id := 0 |}.

Definition no_faults : Faults :=
  {| fail_findOne := false; fail_seed_create := false; fail_game_create := false;
     fail_seed_update := false; fail_populate := false |}.

(** Only the creation of the round is rejected. *)
Definition game_create_fails : Faults :=
  {| fail_findOne := false; fail_seed_create := false; fail_game_create := true;
     fail_seed_update := false; fail_populate := false |}.

(** ** Inputs of the concrete runs *)

(** In the runs below no string is converted to a number and no number to
    a string, so neither conversion is ever called. *)
Definition unused_StringToNumber (s : string) : num := NaN.
Definition unused_NumberToString (n : num) : string := EmptyString.

(** Minimum bet 0.001, at most 1 per round, at most 2 of winnings per
    round: thresholds 1, 1000 and 2000. *)
Definition env_small : Env :=
  {| ROLL_MIN_AMOUNT := fl (1 # 1000); ROLL_MAX_AMOUNT := ofZ 1;
     ROLL_MAX_PROFIT := ofZ 2 |}.

(** No minimum bet: threshold 0. *)
Definition env_no_minimum : Env :=
  {| ROLL_MIN_AMOUNT := ofZ 0; ROLL_MAX_AMOUNT := ofZ 1;
     ROLL_MAX_PROFIT := ofZ 2 |}.

(** At most 10 per round and 10 of winnings per round: ceilings 10000. *)
Definition env_large : Env :=
  {| ROLL_MIN_AMOUNT := fl (1 # 1000); ROLL_MAX_AMOUNT := ofZ 10;
     ROLL_MAX_PROFIT := ofZ 10 |}.

Definition open_round : list (string * jsval) :=
  [("_id", VStr "r1"); ("state", VStr "created"); ("outcome", VNum (ofZ 250));
   ("fair", VObj [("seed", VStr "s1")])].

Definition resolved_round : list (string * jsval) :=
  [("_id", VStr "r1"); ("state", VStr "completed"); ("outcome", VNum (ofZ 250));
   ("fair", VObj [("seed", VStr "s1")])].

(** A bet that carries a [balance] of its own besides its user. *)
Definition bet_with_balance : jsval :=
  VObj [("amount", VNum (ofZ 100)); ("balance", VNum (ofZ 5000));
        ("user", VObj [("_id", VStr "u1"); ("balance", VNum (ofZ 777));
                       ("rakeback", VObj [("name", VStr "gold")]);
                       ("stats", VObj [("balance", VNum (ofZ 777))])])].

(** A stand-in digest for concrete runs, whose results do not depend on it. *)
Definition digest_stub (bytes : list Byte.byte) : list Byte.byte := bytes.

Definition draw1 : list Byte.byte := repeat Byte.x5a 32.
Definition draw2 : list Byte.byte := repeat Byte.xc3 32.

(** ** Round totals

    What [rollGetUserGameStats] reads of a bet and of the user. *)

(** [bet.user._id] where the reads do not throw. *)
Definition bet_owner (b : jsval) : jsval := prop (prop b "user") "_id".

(** A bet whose owner [rollGetUserGameStats] can read: the bet, its user
    and the user's [_id] are neither [undefined] nor [null], and the
    [_id] has a text. *)
Definition owner_readable (b : jsval) : bool :=
  negb (is_nullish b) && negb (is_nullish (prop b "user"))
  && negb (is_nullish (bet_owner b)) && converts (bet_owner b).

(** A user whose [_id] can be converted to a string. *)
Definition user_readable (user : jsval) : bool :=
  negb (is_nullish user) && negb (is_nullish (prop user "_id"))
  && converts (prop user "_id").

(** A bet whose amount and multiplier can be converted to primitives, as
    the two sums of [rollGetUserGameStats] need. *)
Definition bet_countable (b : jsval) : bool :=
  converts (prop b "amount") && converts (prop b "multiplier").

(** The integer an amount denotes (0 where it is not a finite number). *)
Definition amount_value (b : jsval) : Z :=
  match prop b "amount" with
  | VNum (Fin q) => Qfloor q
  | _ => 0
  end.

(** A bet whose amount is an integer that is not negative. *)
Definition natural_amount (b : jsval) : bool :=
  match prop b "amount" with
  | VNum (Fin (Qmake n 1)) => 0 <=? n
  | _ => false
  end.

Fixpoint sum_Z (l : list Z) : Z :=
  match l with
  | [] => 0
  | x :: r => x + sum_Z r
  end.

Section OwnBets.

Variable NumberToString : num -> string.

(** [bet.user._id.toString() === user._id.toString()], where both
    calls return. *)
Definition is_mine (user b : jsval) : bool :=
  String.eqb (text_of NumberToString (bet_owner b))
             (text_of NumberToString (prop user "_id")).

(** What the user has bet in the round, for integer amounts. *)
Definition own_total (user : jsval) (rollBets : list jsval) : Z :=
  sum_Z (map amount_value (filter (is_mine user) rollBets)).

End OwnBets.

(** ** JSON data *)

(** What [JSON.parse] can return: no [undefined] anywhere and no number
    that is not finite. *)
Fixpoint is_json (v : jsval) : bool :=
  match v with
  | VUndef => false
  | VNum (Fin _) => true
  | VNum _ => false
  | VArr l => forallb is_json l
  | VObj fs =>
      (fix all_fields (fs : list (string * jsval)) : bool :=
         match fs with
         | [] => true
         | (k, x) :: r => is_json x && all_fields r
         end) fs
  | _ => true
  end.

(** The fields of an object of JSON data. *)
Definition is_json_fields (fs : list (string * jsval)) : bool :=
  forallb (fun kv => is_json (snd kv)) fs.

(** ** Seeds across runs *)

(** What no operation of a run changes in a stored seed: its identifier,
    its secret and its commitment. *)
Definition seed_core (d : RollSeedDoc) : nat * string * string :=
  (seed_id d, seedServer d, hash d).

(** Identifiers are handed out in increasing order: every stored document
    has one below [next_id]. *)
Definition ids_below_next (db : DB) : bool :=
  forallb (fun d => (seed_id d <? next_id db)%nat) (seeds db)
  && forallb (fun g => (game_id g <? next_id db)%nat) (games db).

(** Only the update of the seed is rejected. *)
Definition seed_update_fails : Faults :=
  {| fail_findOne := false; fail_seed_create := false; fail_game_create := false;
     fail_seed_update := true; fail_populate := false |}.

(** ** The socket handlers of the credit cashier

    The handlers call into modules that are not part of this file: the
    rate limiter, the anti-spam helpers, the user model, the user-data and
    setting checks and the two controllers.  One run of a handler calls
    each of them at most once; what each call does (return, or throw) is
    given, and the run is the sequence of calls it makes. *)

(** What a call does: it returns a value, or it throws one (a rejected
    promise under [await] is a throw). *)
Inductive outcome (A : Type) : Type :=
| Returns (a : A)
| Throws (err : jsval).

Arguments Returns {A} a.
Arguments Throws {A} err.

Inductive controller : Type :=
| cashierSendCreditDepositSocket
| cashierCheckCreditDepositSocket.

Record Collaborators : Type := {
  rateLimiter_consume : jsval -> outcome unit;
  socketCheckAntiSpam : jsval -> outcome unit;
  socketRemoveAntiSpam : jsval -> outcome unit;
  User_findById : jsval -> outcome jsval;
  socketCheckUserData : jsval -> outcome unit;
  settingCheck : jsval -> string -> outcome unit;
  (** the synchronous part of a controller, called with the user and the
      data (and with [io], the socket and the callback) *)
  controller_call : controller -> jsval -> jsval -> outcome unit;
  (** the [TypeError] a property read on [undefined] or [null] throws *)
  type_error : jsval
}.

(** The calls a handler makes, in order. *)
Inductive event : Type :=
| ConsoleLog (text : string)
| Consume (identifier : jsval)
| CheckAntiSpam (id : jsval)
| FindById (id : jsval)
| CheckUserData (user : jsval)
| SettingCheck (user : jsval) (setting : string)
| ControllerCall (c : controller) (user data : jsval)
| RemoveAntiSpam (id : jsval)
| Callback (response : jsval).

(** A handler step: whether it returns or throws, and the calls it
    makes. *)
Definition Handler (A : Type) : Type := (outcome A * list event)%type.

Definition hret {A : Type} (a : A) : Handler A := (Returns a, []).

Definition hbind {A B : Type} (m : Handler A) (k : A -> Handler B) : Handler B :=
  match m with
  | (Returns a, tr) => let '(o, tr') := k a in (o, (tr ++ tr')%list)
  | (Throws err, tr) => (Throws err, tr)
  end.

Notation "x <<- m ;; k" := (hbind m (fun x => k))
  (at level 61, m at next level, right associativity).

(** [try { body } catch (err) { handler }] *)
Definition try_catch {A : Type} (body : Handler A) (handler : jsval -> Handler A) :
  Handler A :=
  match body with
  | (Returns a, tr) => (Returns a, tr)
  | (Throws err, tr) => let '(o, tr') := handler err in (o, (tr ++ tr')%list)
  end.

(** A call of a collaborator. *)
Definition call {A : Type} (e : event) (o : outcome A) : Handler A := (o, [e]).

(** The truth value of a value in a condition. *)
Definition ToBoolean (v : jsval) : bool :=
  match v with
  | VUndef | VNull => false
  | VBool b => b
  | VNum NaN => false
  | VNum (Fin q) => negb (Qis_zero q)
  | VNum (Inf _) => true
  | VStr s => negb (String.eqb s "")
  | VArr _ | VObj _ => true
  end.

(** [{ success: false, error: { type: "error", message } }] *)
Definition failure (message : jsval) : jsval :=
  VObj [("success", VBool false);
        ("error", VObj [("type", VStr "error"); ("message", message)])].

Definition slow_down_message : string :=
  "You need to slow down, you have send to many request. Try again in a minute.".

Definition sign_in_message : string :=
  "You need to sign in to perform this action.".

Section CreditSocket.

Variable w : Collaborators.

(** [v.k], throwing the engine's TypeError when [v] is [undefined] or
    [null]. *)
Definition read (v : jsval) (k : string) : Handler jsval :=
  match get v k with
  | Ok x => hret x
  | Throw _ => (Throws (type_error w), [])
  end.

(** [socket.handshake.headers["cf-connecting-ip"] || socket.conn.remoteAddress] *)
Definition identifier_expr (socket : jsval) : Handler jsval :=
  handshake <<- read socket "handshake" ;;
  headers <<- read handshake "headers" ;;
  forwarded <<- read headers "cf-connecting-ip" ;;
  if ToBoolean forwarded then hret forwarded
  else conn <<- read socket "conn" ;;
       read conn "remoteAddress".

(** The body the two handlers share, from the test of [callback] on.
    [callback] is [None] when the second argument is not a function, and
    otherwise what a call of it does. *)
Definition credit_deposit_handler (c : controller) (socket data : jsval)
  (callback : option (jsval -> outcome unit)) : Handler unit :=
  match callback with
  | None => hret tt
  | Some cb =>
      decoded <<- read socket "decoded" ;;
      if negb (is_nullish decoded) then
        try_catch
          (identifier <<- identifier_expr socket ;;
           _ <<- call (Consume identifier) (rateLimiter_consume w identifier) ;;
           id <<- read decoded "_id" ;;
           _ <<- call (CheckAntiSpam id) (socketCheckAntiSpam w id) ;;
           try_catch
             (id <<- read decoded "_id" ;;
              user <<- call (FindById id) (User_findById w id) ;;
              _ <<- call (CheckUserData user) (socketCheckUserData w user) ;;
              _ <<- call (SettingCheck user "credit.deposit.enabled")
                      (settingCheck w user "credit.deposit.enabled") ;;
              call (ControllerCall c user data) (controller_call w c user data))
             (fun err =>
                id <<- read decoded "_id" ;;
                _ <<- call (RemoveAntiSpam id) (socketRemoveAntiSpam w id) ;;
                message <<- read err "message" ;;
                call (Callback (failure message)) (cb (failure message))))
          (fun err =>
             message <<- read err "message" ;;
             let text := if is_undefined message then VStr slow_down_message
                         else message in
             call (Callback (failure text)) (cb (failure text)))
      else
        call (Callback (failure (VStr sign_in_message)))
          (cb (failure (VStr sign_in_message)))
  end.

Definition sendCreditDeposit (socket data : jsval)
  (callback : option (jsval -> outcome unit)) : Handler unit :=
  credit_deposit_handler cashierSendCreditDepositSocket socket data callback.

Definition checkCreditDeposit (socket data : jsval)
  (callback : option (jsval -> outcome unit)) : Handler unit :=
  _ <<- call (ConsoleLog "checkCreditDeposit") (Returns tt) ;;
  credit_deposit_handler cashierCheckCreditDepositSocket socket data callback.

End CreditSocket.

(** The calls of one run of a handler. *)
Definition calls {A : Type} (h : Handler A) : list event := snd h.

Definition is_callback (e : event) : bool :=
  match e with Callback _ => true | _ => false end.

Definition is_remove_anti_spam (e : event) : bool :=
  match e with RemoveAntiSpam _ => true | _ => false end.

(** The key the rate limiter is charged under, where the reads do not
    throw. *)
Definition identifier_of (socket : jsval) : jsval :=
  let forwarded := prop (prop (prop socket "handshake") "headers") "cf-connecting-ip" in
  if ToBoolean forwarded then forwarded
  else prop (prop socket "conn") "remoteAddress".

(** The identifier can be computed: no read on the way meets [undefined]
    or [null]. *)
Definition identifier_readable (socket : jsval) : bool :=
  negb (is_nullish socket)
  && negb (is_nullish (prop socket "handshake"))
  && negb (is_nullish (prop (prop socket "handshake") "headers"))
  && (ToBoolean (prop (prop (prop socket "handshake") "headers") "cf-connecting-ip")
      || negb (is_nullish (prop socket "conn"))).

(** [socket.decoded._id] *)
Definition decoded_id (socket : jsval) : jsval := prop (prop socket "decoded") "_id".

(** The rate limiter and the anti-spam check both let the request pass. *)
Definition reaches_inner_steps (w : Collaborators) (socket : jsval) : bool :=
  match rateLimiter_consume w (identifier_of socket) with
  | Returns _ =>
      match socketCheckAntiSpam w (decoded_id socket) with
      | Returns _ => true
      | Throws _ => false
      end
  | Throws _ => false
  end.

(** The user lookup, the two checks and the controller all return. *)
Definition inner_steps_pass (w : Collaborators) (c : controller)
  (socket data : jsval) : bool :=
  match User_findById w (decoded_id socket) with
  | Returns user =>
      match socketCheckUserData w user with
      | Returns _ =>
          match settingCheck w user "credit.deposit.enabled" with
          | Returns _ =>
              match controller_call w c user data with
              | Returns _ => true
              | Throws _ => false
              end
          | Throws _ => false
          end
      | Throws _ => false
      end
  | Throws _ => false
  end.

(** A call that, when it throws, throws something other than [undefined]
    and [null]. *)
Definition defined_throw {A : Type} (o : outcome A) : bool :=
  match o with
  | Returns _ => true
  | Throws err => negb (is_nullish err)
  end.

(** No collaborator throws [undefined] or [null]. *)
Definition throws_defined (w : Collaborators) (c : controller) : Prop :=
  is_nullish (type_error w) = false
  /\ (forall x, defined_throw (rateLimiter_consume w x) = true)
  /\ (forall x, defined_throw (socketCheckAntiSpam w x) = true)
  /\ (forall x, defined_throw (socketRemoveAntiSpam w x) = true)
  /\ (forall x, defined_throw (User_findById w x) = true)
  /\ (forall x, defined_throw (socketCheckUserData w x) = true)
  /\ (forall x s, defined_throw (settingCheck w x s) = true)
  /\ (forall x y, defined_throw (controller_call w c x y) = true).

(** The message of a failure reported from the outer [catch]. *)
Definition message_or_slow_down (err : jsval) : jsval :=
  if is_undefined (prop err "message") then VStr slow_down_message
  else prop err "message".

(** ** Inputs of further concrete runs *)

(** A user with an identifier and a balance. *)
Definition user_u1 : list (string * jsval) :=
  [("_id", VStr "u1"); ("balance", VNum (ofZ 5000))].

(** Three bets of a round, two of them placed by the user [u1]. *)
Definition round_bets : list jsval :=
  [placed_bet "u1" 500 150; placed_bet "u2" 50 200; placed_bet "u1" 300 200].

(** A bet of JSON data. *)
Definition json_bet : list (string * jsval) :=
  [("amount", VNum (ofZ 100)); ("multiplier", VNum (ofZ 150));
   ("user", VObj [("_id", VStr "u1"); ("username", VStr "ann");
                  ("balance", VNum (ofZ 777));
                  ("rakeback", VObj [("name", VStr "gold")])])].

(** A collection with one seed already used and one waiting to be used. *)
Definition db_one_created : DB :=
  {| seeds := [ {| seed_id := 0; seedServer := "aa"; hash := "bb";
                   seed_state := "completed" |};
                {| seed_id := 2; seedServer := "cc"; hash := "dd";
                   seed_state := "created" |} ];
     games := [ {| game_id := 1; fair_seed := 0; game_state := "completed" |} ];
     next_id := 3 |}.

(** A socket of a signed-in user behind a proxy. *)
Definition socket_signed_in : jsval :=
  VObj [("decoded", VObj [("_id", VStr "u1")]);
        ("handshake",
         VObj [("headers", VObj [("cf-connecting-ip", VStr "203.0.113.7")])]);
        ("conn", VObj [("remoteAddress", VStr "10.0.0.1")])].

(** Collaborators that let every request pass. *)
Definition all_pass : Collaborators :=
  {| rateLimiter_consume := fun _ => Returns tt;
     socketCheckAntiSpam := fun _ => Returns tt;
     socketRemoveAntiSpam := fun _ => Returns tt;
     User_findById := fun _ => Returns (VObj [("username", VStr "ann")]);
     socketCheckUserData := fun _ => Returns tt;
     settingCheck := fun _ _ => Returns tt;
     controller_call := fun _ _ _ => Returns tt;
     type_error := VObj [("message", VStr "Cannot read properties of undefined")] |}.

(** Collaborators whose setting check refuses the request. *)
Definition deposits_disabled : Collaborators :=
  {| rateLimiter_consume := fun _ => Returns tt;
     socketCheckAntiSpam := fun _ => Returns tt;
     socketRemoveAntiSpam := fun _ => Returns tt;
     User_findById := fun _ => Returns (VObj [("username", VStr "ann")]);
     socketCheckUserData := fun _ => Returns tt;
     settingCheck := fun _ _ => Throws (VObj [("message", VStr "Deposits are disabled.")]);
     controller_call := fun _ _ _ => Returns tt;
     type_error := VObj [("message", VStr "Cannot read properties of undefined")] |}.

(** Collaborators whose rate limiter refuses the request; what it throws
    has no [message]. *)
Definition rate_limited : Collaborators :=
  {| rateLimiter_consume := fun _ => Throws (VObj [("msBeforeNext", VNum (ofZ 41000))]);
     socketCheckAntiSpam := fun _ => Returns tt;
     socketRemoveAntiSpam := fun _ => Returns tt;
     User_findById := fun _ => Returns (VObj [("username", VStr "ann")]);
     socketCheckUserData := fun _ => Returns tt;
     settingCheck := fun _ _ => Returns tt;
     controller_call := fun _ _ _ => Returns tt;
     type_error := VObj [("message", VStr "Cannot read properties of undefined")] |}.

(** A callback that returns. *)
Definition quiet_callback (response : jsval) : outcome unit := Returns tt.

(** * Properties *)

(** ** Rounding *)

Lemma Qred_inject_Z (z : Z) : Qred (inject_Z z) = inject_Z z.
Proof.
  unfold Qred, inject_Z.
  pose proof (Z.ggcd_gcd z 1) as Hg.
  pose proof (Z.ggcd_correct_divisors z 1) as Hd.
  destruct (Z.ggcd z 1) as [g [a b]]. simpl in Hg.
  rewrite Z.gcd_1_r in Hg. subst g. destruct Hd as [Ha Hb].
  replace a with z by lia. replace b with 1 by lia. reflexivity.
Qed.

Lemma rne_den1 (n : Z) : rne n 1 = n.
Proof.
  unfold rne. rewrite Z.mod_1_r, Z.div_1_r. reflexivity.
Qed.

Lemma ilog2_int (z : Z) : 0 < z -> ilog2 z 1 = Z.log2 z.
Proof.
  intros Hz. unfold ilog2, scaled_leb. change (Z.log2 1) with 0.
  rewrite Z.sub_0_r.
  pose proof (Z.log2_nonneg z) as Hn.
  destruct (Z.leb_spec 0 (Z.log2 z)); [|lia].
  destruct (Z.log2_spec z Hz) as [Hlo _].
  destruct (Z.leb_spec (1 * 2 ^ Z.log2 z) z); [reflexivity | lia].
Qed.

Lemma round53_int (z : Z) : 0 < z <= 2 ^ 53 -> round53 z 1 = ofZ z.
Proof.
  intros [Hz Hle]. unfold round53. rewrite (ilog2_int z Hz).
  unfold prec, emin, emax.
  assert (Hl : 0 <= Z.log2 z <= 53).
  { split; [apply Z.log2_nonneg|].
    change 53 with (Z.log2 (2 ^ 53)). apply Z.log2_le_mono; assumption. }
  destruct (Z.log2_spec z Hz) as [Hlo Hhi].
  rewrite Z.max_l by lia.
  destruct (Z.leb_spec 0 (Z.log2 z - (53 - 1))) as [Hk|Hk].
  - assert (Hcase : Z.log2 z = 52 \/ Z.log2 z = 53) by lia.
    destruct Hcase as [E|E]; rewrite E in *.
    + change (2 ^ (52 - (53 - 1))) with 1. rewrite Z.mul_1_r, rne_den1.
      destruct (Z.leb_spec (2 ^ 1024) z) as [Hbig|_].
      * exfalso. assert (2 ^ 53 < 2 ^ 1024) by (apply Z.pow_lt_mono_r; lia). lia.
      * unfold ofZ. f_equal. apply Qred_inject_Z.
    + assert (z = 2 ^ 53) by lia. subst z. vm_compute. reflexivity.
  - rewrite rne_den1. unfold ofZ. f_equal.
    rewrite <- (Qred_inject_Z z). apply Qred_complete.
    assert (Hp : 0 < 2 ^ (- (Z.log2 z - (53 - 1)))) by (apply Z.pow_pos_nonneg; lia).
    unfold Qeq, inject_Z. simpl. rewrite Z2Pos.id by assumption. lia.
Qed.

(** Integers of magnitude at most 2^53 are binary64 values: they are not
    rounded. *)
Lemma fl_ofZ (z : Z) : - 2 ^ 53 <= z <= 2 ^ 53 -> fl (inject_Z z) = ofZ z.
Proof.
  intros Hz. unfold fl. rewrite Qred_inject_Z.
  destruct z as [|p|p]; cbn [inject_Z Qnum Qden].
  - reflexivity.
  - apply round53_int. lia.
  - rewrite round53_int by lia. unfold ofZ, neg. f_equal.
    change (- inject_Z (Z.pos p))%Q with (inject_Z (Z.neg p)).
    apply Qred_inject_Z.
Qed.

Lemma add_ofZ (a b : Z) :
  - 2 ^ 53 <= a + b <= 2 ^ 53 -> add (ofZ a) (ofZ b) = ofZ (a + b).
Proof.
  intros H. rewrite <- (fl_ofZ (a + b)) by assumption.
  unfold add, ofZ, fl.
  rewrite (Qred_complete _ (inject_Z (a + b))); [reflexivity|].
  rewrite inject_Z_plus. reflexivity.
Qed.

Lemma sub_ofZ (a b : Z) :
  - 2 ^ 53 <= a - b <= 2 ^ 53 -> sub (ofZ a) (ofZ b) = ofZ (a - b).
Proof.
  intros H. rewrite <- (fl_ofZ (a - b)) by assumption.
  unfold sub, ofZ, fl.
  rewrite (Qred_complete _ (inject_Z (a - b))); [reflexivity|].
  unfold Qminus. rewrite <- inject_Z_opp, <- inject_Z_plus. reflexivity.
Qed.

(** [rne] is a nearest integer: within one half of the quotient. *)
Lemma rne_near (n d : Z) :
  0 < d -> 2 * n - d <= 2 * d * rne n d <= 2 * n + d.
Proof.
  intros Hd. unfold rne.
  pose proof (Z.div_mod n d ltac:(lia)) as E.
  pose proof (Z.mod_pos_bound n d Hd) as B.
  destruct (Z.ltb_spec (2 * (n mod d)) d);
    [|destruct (Z.ltb_spec d (2 * (n mod d))); [|destruct (Z.even (n / d))]]; nia.
Qed.

Lemma rne_floor (n d : Z) : 0 < d -> n / d <= rne n d <= n / d + 1.
Proof.
  intros Hd. unfold rne.
  destruct (Z.ltb_spec (2 * (n mod d)) d);
    [|destruct (Z.ltb_spec d (2 * (n mod d))); [|destruct (Z.even (n / d))]]; lia.
Qed.

Lemma rne_exact (n d : Z) : 0 < d -> n mod d = 0 -> rne n d = n / d.
Proof.
  intros Hd E. unfold rne. rewrite E.
  destruct (Z.ltb_spec (2 * 0) d); [reflexivity | lia].
Qed.

Lemma pow2_succ (x : Z) : 0 <= x -> 2 ^ (x + 1) = 2 * 2 ^ x.
Proof. intros H. rewrite Z.pow_add_r by lia. change (2 ^ 1) with 2. lia. Qed.

(** The binary exponent of a quotient that is at least one. *)
Lemma ilog2_spec (n d : Z) :
  0 < d <= n ->
  0 <= ilog2 n d /\ d * 2 ^ ilog2 n d <= n < d * 2 ^ (ilog2 n d + 1).
Proof.
  intros [Hd Hn]. unfold ilog2, scaled_leb.
  assert (Hn0 : 0 < n) by lia.
  destruct (Z.log2_spec n Hn0) as [Na Nb].
  destruct (Z.log2_spec d Hd) as [Da Db].
  pose proof (Z.log2_le_mono d n Hn) as Hmono.
  pose proof (Z.log2_nonneg d) as Hb0.
  rewrite Z.pow_succ_r in Nb, Db by lia.
  set (a := Z.log2 n) in *. set (b := Z.log2 d) in *.
  destruct (Z.leb_spec 0 (a - b)); [|lia].
  assert (Hab : 2 ^ a = 2 ^ b * 2 ^ (a - b))
    by (rewrite <- Z.pow_add_r by lia; f_equal; lia).
  assert (Hp : 0 < 2 ^ (a - b)) by (apply Z.pow_pos_nonneg; lia).
  destruct (Z.leb_spec (d * 2 ^ (a - b)) n) as [Hle|Hgt].
  - split; [lia|]. split; [assumption|].
    rewrite pow2_succ by lia. nia.
  - assert (Hpos : 0 < a - b).
    { destruct (Z.eq_dec (a - b) 0) as [E0|]; [|lia].
      rewrite E0 in Hgt. change (2 ^ 0) with 1 in Hgt. lia. }
    replace (a - b - 1 + 1) with (a - b) by lia.
    assert (Hs : 2 ^ (a - b) = 2 * 2 ^ (a - b - 1))
      by (rewrite <- pow2_succ by lia; f_equal; lia).
    split; [lia|]. split; [nia | assumption].
Qed.

(** A quotient in [100, 2^59) rounds to a finite value that is still at
    least 100. *)
Lemma round53_ge_100 (n d : Z) :
  0 < d -> 100 * d <= n -> n < 2 ^ 59 * d ->
  exists q : Q, round53 n d = Fin q /\ (inject_Z 100 <= q)%Q.
Proof.
  intros Hd Hlo Hhi.
  destruct (ilog2_spec n d ltac:(lia)) as [He0 [Ha Hb]].
  set (e := ilog2 n d) in *.
  assert (He6 : 6 <= e).
  { destruct (Z.lt_ge_cases e 6) as [Hlt|]; [|assumption].
    assert (2 ^ (e + 1) <= 2 ^ 6) by (apply Z.pow_le_mono_r; lia).
    change (2 ^ 6) with 64 in *. nia. }
  assert (He58 : e <= 58).
  { destruct (Z.lt_ge_cases 58 e) as [Hlt|]; [|lia].
    assert (2 ^ 59 <= 2 ^ e) by (apply Z.pow_le_mono_r; lia). nia. }
  unfold round53. fold e. unfold prec, emin, emax.
  rewrite Z.max_l by lia.
  destruct (Z.leb_spec 0 (e - (53 - 1))) as [Hk|Hk].
  - set (k := e - (53 - 1)) in *.
    assert (Hpk : 0 < 2 ^ k) by (apply Z.pow_pos_nonneg; lia).
    assert (Hek : 2 ^ e = 2 ^ 52 * 2 ^ k)
      by (rewrite <- Z.pow_add_r by lia; f_equal; lia).
    assert (Hek1 : 2 ^ (e + 1) = 2 ^ 53 * 2 ^ k)
      by (rewrite <- Z.pow_add_r by lia; f_equal; lia).
    assert (Hk6 : 2 ^ k <= 2 ^ 6) by (apply Z.pow_le_mono_r; lia).
    pose proof (rne_floor n (d * 2 ^ k) ltac:(nia)) as [Hf1 Hf2].
    assert (Hq1 : 2 ^ 52 <= n / (d * 2 ^ k))
      by (apply Z.div_le_lower_bound; nia).
    assert (Hq2 : n / (d * 2 ^ k) < 2 ^ 53)
      by (apply Z.div_lt_upper_bound; nia).
    set (m := rne n (d * 2 ^ k)) in *.
    assert (Hm : m * 2 ^ k <= 2 ^ 53 * 2 ^ 6) by nia.
    destruct (Z.leb_spec (2 ^ 1024) (m * 2 ^ k)) as [Hov|_].
    + exfalso. assert (2 ^ 53 * 2 ^ 6 < 2 ^ 1024) by (vm_compute; reflexivity). lia.
    + eexists. split; [reflexivity|].
      rewrite Qred_correct. unfold Qle, inject_Z. cbn [Qnum Qden].
      assert (100 <= 2 ^ 52) by (vm_compute; discriminate). nia.
  - set (j := - (e - (53 - 1))) in *.
    assert (Hpj : 0 < 2 ^ j) by (apply Z.pow_pos_nonneg; lia).
    pose proof (rne_floor (n * 2 ^ j) d Hd) as [Hf1 _].
    assert (Hq : 100 * 2 ^ j <= n * 2 ^ j / d)
      by (apply Z.div_le_lower_bound; nia).
    eexists. split; [reflexivity|].
    rewrite Qred_correct. unfold Qle, inject_Z. cbn [Qnum Qden].
    rewrite Z2Pos.id by assumption. lia.
Qed.

Lemma fl_ge_100 (q : Q) :
  (inject_Z 100 <= q)%Q -> (q < inject_Z (2 ^ 59))%Q ->
  exists q' : Q, fl q = Fin q' /\ (inject_Z 100 <= q')%Q.
Proof.
  intros Hlo Hhi. unfold fl.
  rewrite <- (Qred_correct q) in Hlo, Hhi.
  destruct (Qred q) as [n d].
  unfold Qle, Qlt, inject_Z in Hlo, Hhi. cbn [Qnum Qden] in *.
  destruct n as [|p|p]; try lia.
  apply round53_ge_100; lia.
Qed.

(** ** The rounding model against the kernel's binary64 numbers

    [fl] is written from the definition of rounding to nearest; the
    kernel's primitive floats are binary64 as well, and the two agree on
    the operations the program performs. *)

#[local] Set Warnings "-inexact-float".

Example binary64_add :
  of_float (0.1 + 0.2)%float = add (fl (1 # 10)) (fl (2 # 10)).
Proof. vm_compute. reflexivity. Qed.

Example binary64_mul_div :
  of_float (100 * (115 / 100))%float = mul (ofZ 100) (div (ofZ 115) (ofZ 100)).
Proof. vm_compute. reflexivity. Qed.

Example binary64_house_edge :
  of_float (100 / (0.05 * 100))%float = house_edge_quotient.
Proof. vm_compute. reflexivity. Qed.

Example binary64_curve :
  of_float ((100 * 4503599627370496 - 4503599627370495)
            / (4503599627370496 - 4503599627370495))%float
  = div (sub (mul (ofZ 100) (ofZ (2 ^ 52))) (ofZ (2 ^ 52 - 1)))
        (sub (ofZ (2 ^ 52)) (ofZ (2 ^ 52 - 1))).
Proof. vm_compute. reflexivity. Qed.

Example binary64_curve_mid :
  of_float ((100 * 4503599627370496 - 4004360016986049)
            / (4503599627370496 - 4004360016986049))%float
  = div (sub (mul (ofZ 100) (ofZ (2 ^ 52))) (ofZ 4004360016986049))
        (sub (ofZ (2 ^ 52)) (ofZ 4004360016986049)).
Proof. vm_compute. reflexivity. Qed.

Example binary64_overflow :
  of_float (1e308 * 10)%float = mul (fl (10 ^ 308 # 1)) (ofZ 10).
Proof. vm_compute. reflexivity. Qed.

Example binary64_underflow :
  of_float (3e-324 / 4 + 1e-310 * 3)%float
  = add (div (fl (3 # Pos.pow 10 324)) (ofZ 4)) (mul (fl (1 # Pos.pow 10 310)) (ofZ 3)).
Proof. vm_compute. reflexivity. Qed.

(** ** Strings *)

Lemma str_drop_0 (s : string) : str_drop 0 s = s.
Proof. destruct s; reflexivity. Qed.

Lemma str_drop_empty (n : nat) : str_drop n EmptyString = EmptyString.
Proof. destruct n; reflexivity. Qed.

Lemma str_take_empty (n : nat) : str_take n EmptyString = EmptyString.
Proof. destruct n; reflexivity. Qed.

Lemma substring_take_drop (n m : nat) (s : string) :
  String.substring n m s = str_take m (str_drop n s).
Proof.
  revert n m. induction s as [|c r IH]; intros n m.
  - rewrite str_drop_empty, str_take_empty. destruct n, m; reflexivity.
  - destruct n as [|n].
    + rewrite str_drop_0. destruct m as [|m]; simpl; [reflexivity|].
      rewrite IH, str_drop_0. reflexivity.
    + simpl. apply IH.
Qed.

Lemma str_drop_length (n : nat) (s : string) :
  String.length (str_drop n s) = (String.length s - n)%nat.
Proof.
  revert n. induction s as [|c r IH]; intros [|n]; simpl; auto.
Qed.

Lemma str_take_length (n : nat) (s : string) :
  String.length (str_take n s) = Nat.min n (String.length s).
Proof.
  revert n. induction s as [|c r IH]; intros [|n]; simpl; auto.
Qed.

Lemma str_drop_all (n : nat) (s : string) :
  (String.length s <= n)%nat -> str_drop n s = EmptyString.
Proof.
  revert n. induction s as [|c r IH]; intros [|n] H; simpl in *;
    try reflexivity; try lia. apply IH. lia.
Qed.

Lemma str_take_all (n m : nat) (s : string) :
  (String.length s <= n)%nat -> (String.length s <= m)%nat ->
  str_take n s = str_take m s.
Proof.
  revert n m. induction s as [|c r IH]; intros [|n] [|m] Hn Hm; simpl in *;
    try reflexivity; try lia. f_equal. apply IH; lia.
Qed.

Lemma str_drop_drop (n m : nat) (s : string) :
  str_drop m (str_drop n s) = str_drop (n + m) s.
Proof.
  revert n. induction s as [|c r IH]; intros n.
  - rewrite !str_drop_empty. reflexivity.
  - destruct n as [|n]; [rewrite str_drop_0; reflexivity|]. simpl. apply IH.
Qed.

Lemma groups4_step (s : string) :
  s <> EmptyString -> groups4 s = str_take 4 s :: groups4 (str_drop 4 s).
Proof.
  intros Hs. destruct s as [|a [|b [|c [|d r]]]]; try reflexivity.
  contradiction.
Qed.

(** [substring(i, i + 4)] from a position inside or past the string. *)
Lemma substring_chunk (s : string) (i : Z) :
  0 <= i -> substring s i (i + 4) = str_take 4 (str_drop (Z.to_nat i) s).
Proof.
  intros Hi. unfold substring, clamp, len.
  rewrite substring_take_drop.
  set (n := Z.of_nat (String.length s)).
  destruct (Z.le_gt_cases n i) as [Hout|Hin].
  - rewrite (str_drop_all (Z.to_nat i)) by lia.
    rewrite str_take_empty.
    replace (Z.min (Z.min (Z.max i 0) n) (Z.min (Z.max (i + 4) 0) n)) with n by lia.
    rewrite (str_drop_all (Z.to_nat n)) by lia. apply str_take_empty.
  - replace (Z.min (Z.min (Z.max i 0) n) (Z.min (Z.max (i + 4) 0) n)) with i by lia.
    destruct (Z.le_gt_cases (i + 4) n) as [H4|H4].
    + replace (Z.max (Z.min (Z.max i 0) n) (Z.min (Z.max (i + 4) 0) n) - i)
        with 4 by lia. reflexivity.
    + apply str_take_all; rewrite str_drop_length; lia.
Qed.

(** The first iteration when the length is not a multiple of four:
    [substring(o - 4, o)] is the leading [o] characters. *)
Lemma substring_lead (s : string) (o : Z) :
  0 < o <= len s -> o < 4 -> substring s (o - 4) (o - 4 + 4) = str_take (Z.to_nat o) s.
Proof.
  intros Ho H4. unfold substring, clamp. unfold len in *.
  rewrite substring_take_drop.
  replace (Z.min (Z.min (Z.max (o - 4) 0) (Z.of_nat (String.length s)))
                 (Z.min (Z.max (o - 4 + 4) 0) (Z.of_nat (String.length s))))
    with 0 by lia.
  replace (Z.max (Z.min (Z.max (o - 4) 0) (Z.of_nat (String.length s)))
                 (Z.min (Z.max (o - 4 + 4) 0) (Z.of_nat (String.length s))) - 0)
    with o by lia.
  simpl Z.to_nat at 2. rewrite str_drop_0. reflexivity.
Qed.

(** ** The loop of [rollIsHashDivisible] as a fold over chunks *)

Lemma loop_groups4 (md : num) (combined : string) :
  forall (fuel : nat) (i : Z) (val : num),
    0 <= i ->
    len combined - i <= 4 * Z.of_nat fuel ->
    rollIsHashDivisible_loop fuel combined md i val =
    Some (fold_left (fold_step md) (groups4 (str_drop (Z.to_nat i) combined)) val).
Proof.
  induction fuel as [|fuel IH]; intros i val Hi Hfuel.
  - cbn [rollIsHashDivisible_loop]. destruct (Z.ltb_spec i (len combined)); [lia|].
    rewrite str_drop_all by (unfold len in *; lia). reflexivity.
  - cbn [rollIsHashDivisible_loop]. destruct (Z.ltb_spec i (len combined)) as [Hin|Hout].
    + rewrite IH by lia.
      rewrite (groups4_step (str_drop (Z.to_nat i) combined)).
      * cbn [fold_left]. rewrite str_drop_drop.
        replace (Z.to_nat i + 4)%nat with (Z.to_nat (i + 4)) by lia.
        unfold fold_step at 3. rewrite substring_chunk by assumption.
        reflexivity.
      * intros E. apply (f_equal String.length) in E.
        rewrite str_drop_length in E. unfold len in *. simpl in E. lia.
    + rewrite str_drop_all by (unfold len in *; lia). reflexivity.
Qed.

(** The loop always runs to its end, and computes the fold over
    [hash_chunks]. *)
Lemma rollIsHashDivisible_val_chunks (combined : string) (md : num) :
  rollIsHashDivisible_val combined md =
  Some (fold_left (fold_step md) (hash_chunks combined) (ofZ 0)).
Proof.
  unfold rollIsHashDivisible_val, hash_chunks.
  assert (Hrem : Z.rem (len combined) 4 = Z.of_nat (String.length combined mod 4)).
  { unfold len. rewrite Z.rem_mod_nonneg by lia.
    rewrite Nat2Z.inj_mod. reflexivity. }
  rewrite Hrem.
  pose proof (Nat.mod_upper_bound (String.length combined) 4 ltac:(lia)) as Hub.
  pose proof (Nat.Div0.mod_le (String.length combined) 4) as Hle.
  set (o := (String.length combined mod 4)%nat) in *.
  destruct (Nat.eqb_spec o 0) as [E|NE].
  - rewrite E. change (if 0 <? Z.of_nat 0 then Z.of_nat 0 - 4 else 0) with 0.
    rewrite loop_groups4 by (unfold len; lia).
    change (Z.to_nat 0) with 0%nat. rewrite str_drop_0. reflexivity.
  - destruct (Z.ltb_spec 0 (Z.of_nat o)); [|lia].
    cbn [rollIsHashDivisible_loop].
    destruct (Z.ltb_spec (Z.of_nat o - 4) (len combined)); [|unfold len in *; lia].
    rewrite loop_groups4 by (unfold len; lia).
    rewrite substring_lead by (unfold len; lia).
    replace (Z.to_nat (Z.of_nat o - 4 + 4)) with o by lia.
    rewrite Nat2Z.id. reflexivity.
Qed.

(** ** Hexadecimal chunks *)

Ltac ascii_cases c :=
  let b0 := fresh in let b1 := fresh in let b2 := fresh in let b3 := fresh in
  let b4 := fresh in let b5 := fresh in let b6 := fresh in let b7 := fresh in
  destruct c as [b0 b1 b2 b3 b4 b5 b6 b7];
  destruct b0, b1, b2, b3, b4, b5, b6, b7.

Lemma hex_digit_value (c : ascii) :
  is_hex_digit c = true -> exists d, digit_value c = Some d /\ 0 <= d < 16.
Proof.
  unfold is_hex_digit. destruct (digit_value c) as [d|] eqn:E; [|discriminate].
  intros H. exists d. split; [reflexivity|].
  apply Z.ltb_lt in H. split; [|assumption].
  unfold digit_value in E.
  repeat match type of E with
         | (if ?b then _ else _) = _ => destruct b eqn:?
         end; inversion E; lia.
Qed.

Lemma hex_digit_plain (c : ascii) :
  is_hex_digit c = true ->
  is_white c = false /\ Ascii.eqb c "-" = false /\ Ascii.eqb c "+" = false
  /\ Ascii.eqb c "x" = false /\ Ascii.eqb c "X" = false.
Proof.
  ascii_cases c; vm_compute; intros H; try discriminate H; repeat split.
Qed.

Lemma parse_digits_hex (s : string) :
  forall acc : option Z,
    is_hex s = true ->
    parse_digits 16 s acc =
    match s with
    | EmptyString => acc
    | _ => Some (hex_value_from (match acc with Some a => a | None => 0 end) s)
    end.
Proof.
  induction s as [|c r IH]; intros acc H; [reflexivity|].
  cbn [is_hex] in H. apply andb_true_iff in H. destruct H as [Hc Hr].
  destruct (hex_digit_value c Hc) as [d [Ed Hd]].
  cbn [parse_digits hex_value_from]. rewrite Ed.
  destruct (Z.ltb_spec d 16); [|lia].
  rewrite (IH _ Hr).
  assert (Hacc : match acc with Some a => a * 16 + d | None => d end
                 = match acc with Some a => a | None => 0 end * 16 + d)
    by (destruct acc; lia).
  rewrite Hacc. destruct r; reflexivity.
Qed.

Lemma hex_value_from_bound (s : string) :
  forall acc : Z,
    is_hex s = true -> 0 <= acc ->
    0 <= hex_value_from acc s < (acc + 1) * 16 ^ Z.of_nat (String.length s).
Proof.
  induction s as [|c r IH]; intros acc H Hacc.
  - cbn. lia.
  - cbn [is_hex] in H. apply andb_true_iff in H. destruct H as [Hc Hr].
    destruct (hex_digit_value c Hc) as [d [Ed Hd]].
    cbn [hex_value_from String.length]. rewrite Ed.
    specialize (IH (acc * 16 + d) Hr ltac:(lia)).
    rewrite Nat2Z.inj_succ, Z.pow_succ_r by lia.
    assert (0 < 16 ^ Z.of_nat (String.length r)) by (apply Z.pow_pos_nonneg; lia).
    nia.
Qed.

Lemma hex_value_bound (s : string) :
  is_hex s = true -> 0 <= hex_value s < 16 ^ Z.of_nat (String.length s).
Proof.
  intros H. pose proof (hex_value_from_bound s 0 H ltac:(lia)) as B.
  unfold hex_value. lia.
Qed.

(** On at most thirteen hexadecimal digits, [parseInt(s, 16)] is the
    exact integer they denote. *)
Lemma parseInt_hex (s : string) :
  s <> EmptyString -> is_hex s = true -> (String.length s <= 13)%nat ->
  parseInt s (Some 16) = ofZ (hex_value s).
Proof.
  intros Hne Hhex Hlen. destruct s as [|c r]; [contradiction|].
  pose proof Hhex as Hhex'.
  cbn [is_hex] in Hhex'. apply andb_true_iff in Hhex'. destruct Hhex' as [Hc Hr].
  destruct (hex_digit_plain c Hc) as [Hw [Hm [Hp _]]].
  unfold parseInt. cbn [trim_left]. rewrite Hw.
  cbn [strip_sign]. rewrite Hm, Hp.
  change (wrap32 16) with 16. cbn [Z.eqb orb andb Z.leb Z.compare Pos.compare Pos.compare_cont].
  assert (Hx : strip_0x (String c r) = None).
  { destruct r as [|x r']; [reflexivity|]. cbn [strip_0x].
    cbn [is_hex] in Hr. apply andb_true_iff in Hr. destruct Hr as [Hxd _].
    destruct (hex_digit_plain x Hxd) as [_ [_ [_ [Hx1 Hx2]]]].
    rewrite Hx1, Hx2. rewrite andb_false_r. reflexivity. }
  rewrite Hx. change ((16 =? 16)%positive) with true. cbv beta iota zeta.
  rewrite (parse_digits_hex _ None Hhex).
  fold (hex_value (String c r)).
  apply fl_ofZ.
  pose proof (hex_value_bound _ Hhex) as B.
  assert (16 ^ Z.of_nat (String.length (String c r)) <= 16 ^ 13)
    by (apply Z.pow_le_mono_r; lia).
  change (16 ^ 13) with (2 ^ 52) in *.
  assert (2 ^ 52 < 2 ^ 53) by (apply Z.pow_lt_mono_r; lia).
  lia.
Qed.

Lemma Qtrunc_inject_Z (z : Z) : Qtrunc (inject_Z z) = z.
Proof. unfold Qtrunc, inject_Z. cbn [Qnum Qden]. apply Z.quot_1_r. Qed.

Lemma wrap32_small (z : Z) : - 2 ^ 31 <= z < 2 ^ 31 -> wrap32 z = z.
Proof.
  intros H. unfold wrap32.
  destruct (Z.le_gt_cases 0 z) as [Hp|Hn].
  - rewrite Z.mod_small by lia. destruct (Z.ltb_spec z (2 ^ 31)); lia.
  - replace (z mod 2 ^ 32) with (z + 2 ^ 32).
    + destruct (Z.ltb_spec (z + 2 ^ 32) (2 ^ 31)); lia.
    + apply Z.mod_unique with (q := -1); lia.
Qed.

Lemma shl_16_small (v : Z) :
  0 <= v < 2 ^ 15 -> shl (ofZ v) (ofZ 16) = ofZ (Z.shiftl v 16).
Proof.
  intros H. unfold shl, ToInt32, ofZ. rewrite !Qtrunc_inject_Z.
  rewrite (wrap32_small v) by lia.
  change (Z.land (wrap32 16 mod 2 ^ 32) 31) with 16.
  rewrite wrap32_small; [reflexivity|].
  rewrite Z.shiftl_mul_pow2 by lia. lia.
Qed.

Lemma rem_ofZ (x m : Z) :
  0 <= x -> 0 < m -> rem (ofZ x) (ofZ m) = ofZ (x mod m).
Proof.
  intros Hx Hm. unfold rem, ofZ.
  assert (Hz : Qis_zero (inject_Z m) = false)
    by (unfold Qis_zero; cbn [inject_Z Qnum]; apply Z.eqb_neq; lia).
  rewrite Hz. f_equal.
  rewrite <- (Qred_inject_Z (x mod m)). apply Qred_complete.
  assert (Ht : Qtrunc (inject_Z x / inject_Z m) = x / m).
  { destruct m as [|p|p]; try lia.
    unfold Qtrunc, Qdiv, Qinv, Qmult, inject_Z. cbn [Qnum Qden].
    rewrite Z.mul_1_r, Pos.mul_1_l. apply Z.quot_div_nonneg; lia. }
  rewrite Ht. rewrite (Z.mod_eq x m) by lia.
  unfold Qminus. rewrite <- inject_Z_mult, <- inject_Z_opp, <- inject_Z_plus.
  reflexivity.
Qed.

Lemma eqb_ofZ_0 (x : Z) : eqb (ofZ x) (ofZ 0) = (x =? 0).
Proof. destruct x; reflexivity. Qed.

Lemma fold_step_hex (M v : Z) (chunk : string) :
  0 < M <= 2 ^ 15 -> 0 <= v < M -> good_chunk chunk ->
  fold_step (ofZ M) (ofZ v) chunk = ofZ ((Z.shiftl v 16 + hex_value chunk) mod M).
Proof.
  intros HM Hv [Hne [Hhex Hlen]]. unfold fold_step.
  rewrite shl_16_small by lia.
  rewrite parseInt_hex by (auto; lia).
  pose proof (hex_value_bound _ Hhex) as B.
  assert (16 ^ Z.of_nat (String.length chunk) <= 16 ^ 4)
    by (apply Z.pow_le_mono_r; lia).
  assert (Hs : 0 <= Z.shiftl v 16 < 2 ^ 31)
    by (rewrite Z.shiftl_mul_pow2 by lia; lia).
  rewrite add_ofZ by lia.
  apply rem_ofZ; lia.
Qed.

Lemma fold_hex (M : Z) (chunks : list string) :
  0 < M <= 2 ^ 15 -> Forall good_chunk chunks ->
  forall v : Z, 0 <= v < M ->
    fold_left (fold_step (ofZ M)) chunks (ofZ v) =
    ofZ (fold_left (fun acc chunk => (Z.shiftl acc 16 + chunk) mod M)
                   (map hex_value chunks) v).
Proof.
  intros HM Hall. induction Hall as [|c l Hc Hl IH]; intros v Hv; [reflexivity|].
  cbn [fold_left map]. rewrite fold_step_hex by assumption.
  apply IH. apply Z.mod_pos_bound. lia.
Qed.

Lemma is_hex_take (n : nat) (s : string) :
  is_hex s = true -> is_hex (str_take n s) = true.
Proof.
  revert n. induction s as [|c r IH]; intros [|n] H; try reflexivity.
  cbn [is_hex str_take] in *. apply andb_true_iff in H. destruct H as [Hc Hr].
  rewrite Hc. cbn. apply IH. assumption.
Qed.

Lemma is_hex_drop (n : nat) (s : string) :
  is_hex s = true -> is_hex (str_drop n s) = true.
Proof.
  revert n. induction s as [|c r IH]; intros [|n] H; try assumption.
  cbn [is_hex str_drop] in *. apply andb_true_iff in H. destruct H as [_ Hr].
  apply IH. assumption.
Qed.

Lemma groups4_good (n : nat) :
  forall s : string,
    (String.length s <= n)%nat -> is_hex s = true -> Forall good_chunk (groups4 s).
Proof.
  induction n as [n IH] using lt_wf_ind. intros s Hlen Hhex.
  destruct s as [|a r]; [constructor|].
  rewrite groups4_step by discriminate.
  constructor.
  - split; [discriminate|]. split; [apply is_hex_take; assumption|].
    rewrite str_take_length. lia.
  - apply (IH (String.length (str_drop 4 (String a r)))).
    + rewrite str_drop_length. cbn [String.length] in *. lia.
    + lia.
    + apply is_hex_drop. assumption.
Qed.

Lemma hash_chunks_good (s : string) :
  is_hex s = true -> Forall good_chunk (hash_chunks s).
Proof.
  intros Hhex. unfold hash_chunks.
  pose proof (Nat.mod_upper_bound (String.length s) 4 ltac:(lia)) as Hub.
  pose proof (Nat.Div0.mod_le (String.length s) 4) as Hle.
  destruct (Nat.eqb_spec (String.length s mod 4) 0) as [E|NE].
  - apply (groups4_good (String.length s)); [lia|assumption].
  - constructor.
    + split; [|split].
      * intros E. apply (f_equal String.length) in E.
        rewrite str_take_length in E. cbn [String.length] in E. lia.
      * apply is_hex_take. assumption.
      * rewrite str_take_length. lia.
    + apply (groups4_good (String.length s)).
      * rewrite str_drop_length. lia.
      * apply is_hex_drop. assumption.
Qed.

(** On hexadecimal text the loop of the source computes the modular fold
    of the specification, for every modulus up to 2^15. *)
Lemma rollIsHashDivisible_val_hex (s : string) (M : Z) :
  is_hex s = true -> 0 < M <= 2 ^ 15 ->
  rollIsHashDivisible_val s (ofZ M) =
  Some (ofZ (modular_fold M (map hex_value (hash_chunks s)))).
Proof.
  intros Hhex HM. rewrite rollIsHashDivisible_val_chunks. f_equal.
  apply fold_hex; [assumption | apply hash_chunks_good; assumption | lia].
Qed.

Lemma rollIsHashDivisible_hex (s : string) (M : Z) :
  is_hex s = true -> 0 < M <= 2 ^ 15 ->
  rollIsHashDivisible s (ofZ M) =
  (modular_fold M (map hex_value (hash_chunks s)) =? 0).
Proof.
  intros Hhex HM. unfold rollIsHashDivisible.
  rewrite rollIsHashDivisible_val_hex by assumption. apply eqb_ofZ_0.
Qed.

Lemma rollGetOutcome_mod_20 : rollGetOutcome_mod = ofZ 20.
Proof. vm_compute. reflexivity. Qed.

(** The arithmetic behind the modulus: [100 / (0.05 * 100)] is 20. *)
Lemma house_edge_quotient_20 : house_edge_quotient = ofZ 20.
Proof. vm_compute. reflexivity. Qed.

(** C2.  On a hexadecimal hash, [rollGetOutcome] tests the modular fold of
    the hash (leading partial chunk first, then groups of four digits,
    accumulator [((acc << 16) + chunk) mod 20]) against zero: it returns
    100 from the first branch exactly when the fold is 0, and goes on to
    the second branch otherwise. *)
Theorem rollGetOutcome_fold_zero (combined : string) :
  is_hex combined = true ->
  let acc := modular_fold 20 (map hex_value (hash_chunks combined)) in
  rollIsHashDivisible_val combined rollGetOutcome_mod = Some (ofZ acc)
  /\ rollIsHashDivisible combined rollGetOutcome_mod = (acc =? 0)
  /\ (acc = 0 -> rollGetOutcome combined = ofZ 100)
  /\ (acc <> 0 -> rollGetOutcome combined = rollGetOutcome_curve combined).
Proof.
  intros Hhex acc. rewrite rollGetOutcome_mod_20.
  assert (HM : 0 < 20 <= 2 ^ 15) by (split; [lia | vm_compute; discriminate]).
  pose proof (rollIsHashDivisible_hex combined 20 Hhex HM) as Hd.
  fold acc in Hd.
  split; [apply rollIsHashDivisible_val_hex; assumption|].
  split; [assumption|].
  unfold rollGetOutcome. rewrite rollGetOutcome_mod_20, Hd.
  split; intros Hacc.
  - rewrite Hacc. reflexivity.
  - destruct (Z.eqb_spec acc 0); [contradiction | reflexivity].
Qed.

(** The guard at work: a hash whose fold is 0, and one whose fold is not. *)
Lemma rollGetOutcome_fold_zero_witness :
  rollIsHashDivisible
    "0000000000000000000000000000000000000000000000000000000000000014"
    rollGetOutcome_mod = true
  /\ rollGetOutcome
       "0000000000000000000000000000000000000000000000000000000000000014"
     = ofZ 100
  /\ rollIsHashDivisible
       "e3b0c44298fc1c149afbf4c8996fb92427ae41e4649b934ca495991b7852b855"
       rollGetOutcome_mod = false.
Proof.
  pose proof (rollGetOutcome_fold_zero
    "0000000000000000000000000000000000000000000000000000000000000014"
    eq_refl) as [_ [H1 [H2 _]]].
  pose proof (rollGetOutcome_fold_zero
    "e3b0c44298fc1c149afbf4c8996fb92427ae41e4649b934ca495991b7852b855"
    eq_refl) as [_ [H3 _]].
  split; [exact H1|]. split; [apply H2; reflexivity | exact H3].
Defined.

(** ** The second branch of [rollGetOutcome] *)

Lemma slice_lead13 (s : string) : slice s 0 (52 / 4) = str_take 13 s.
Proof.
  unfold slice, len. change (52 / 4) with 13.
  change (0 <? 0) with false. change (13 <? 0) with false. cbv beta iota.
  rewrite substring_take_drop.
  replace (Z.to_nat (Z.min 0 (Z.of_nat (String.length s)))) with 0%nat by lia.
  rewrite str_drop_0.
  destruct (Nat.le_gt_cases 13 (String.length s)) as [H|H].
  - f_equal. lia.
  - apply str_take_all; lia.
Qed.

Lemma round53_int58 (N : Z) :
  2 ^ 58 <= N < 2 ^ 59 -> round53 N 1 = ofZ (rne N 64 * 64).
Proof.
  intros [Hlo Hhi]. unfold round53.
  assert (H58 : 0 < 2 ^ 58) by (vm_compute; reflexivity).
  rewrite ilog2_int by lia.
  assert (HL : Z.log2 N = 58).
  { apply Z.log2_unique; [lia|]. split; [lia|]. exact Hhi. }
  rewrite HL.
  change (Z.max (58 - (prec - 1)) emin) with 6.
  change (0 <=? 6) with true. cbv beta iota zeta.
  change (1 * 2 ^ 6) with 64. change (2 ^ 6) with 64.
  pose proof (rne_near N 64 ltac:(lia)) as Hn.
  destruct (Z.leb_spec (2 ^ emax) (rne N 64 * 64)) as [Hov|_].
  - exfalso. assert (2 ^ 60 < 2 ^ emax) by (vm_compute; reflexivity).
    assert (2 ^ 59 < 2 ^ 60) by (vm_compute; reflexivity). lia.
  - unfold ofZ. f_equal. apply Qred_inject_Z.
Qed.

(** The numerator [100 * e - h] is rounded to a multiple of 64, at most 32
    away, that stays at least [100 * (e - h)]. *)
Lemma curve_numerator (h : Z) :
  0 <= h < 2 ^ 52 ->
  exists N' : Z,
    sub (mul (ofZ 100) (ofZ (2 ^ 52))) (ofZ h) = ofZ N'
    /\ 100 * (2 ^ 52 - h) <= N'
    /\ 100 * 2 ^ 52 - h - 32 <= N' <= 100 * 2 ^ 52 - h + 32.
Proof.
  intros Hh.
  assert (Hmul : mul (ofZ 100) (ofZ (2 ^ 52)) = ofZ (100 * 2 ^ 52))
    by (vm_compute; reflexivity).
  rewrite Hmul.
  set (A := 100 * 2 ^ 52) in *.
  assert (HA : A = 450359962737049600) by reflexivity.
  assert (He : 2 ^ 52 = 4503599627370496) by reflexivity.
  assert (H58 : 2 ^ 58 = 288230376151711744) by reflexivity.
  assert (H59 : 2 ^ 59 = 576460752303423488) by reflexivity.
  exists (rne (A - h) 64 * 64). split.
  - unfold sub, ofZ, fl.
    rewrite (Qred_complete _ (inject_Z (A - h)))
      by (unfold Qminus; rewrite <- inject_Z_opp, <- inject_Z_plus; reflexivity).
    rewrite Qred_inject_Z. cbn [inject_Z Qnum Qden].
    destruct (A - h) as [|p|p] eqn:E; try lia.
    apply round53_int58. lia.
  - pose proof (rne_near (A - h) 64 ltac:(lia)) as Hn.
    split; [|lia].
    destruct (Z.eq_dec h 0) as [-> | Hnz]; [|lia].
    rewrite Z.sub_0_r in *. rewrite rne_exact by (subst A; lia || reflexivity).
    subst A. rewrite He. vm_compute. discriminate.
Qed.

Lemma div_ofZ_ge_100 (N D : Z) :
  0 < D -> 100 * D <= N -> N < 2 ^ 59 * D ->
  exists v : Z, floor (div (ofZ N) (ofZ D)) = ofZ v /\ 100 <= v.
Proof.
  intros HD Hlo Hhi. unfold div, ofZ.
  assert (Hz : Qis_zero (inject_Z D) = false)
    by (unfold Qis_zero; cbn [inject_Z Qnum]; apply Z.eqb_neq; lia).
  rewrite Hz.
  assert (HDq : (0 < inject_Z D)%Q)
    by (unfold Qlt, inject_Z; cbn [Qnum Qden]; lia).
  destruct (fl_ge_100 (inject_Z N / inject_Z D)) as [q [Eq Hq]].
  - apply Qle_shift_div_l; [assumption|].
    rewrite <- inject_Z_mult, <- Zle_Qle. assumption.
  - apply Qlt_shift_div_r; [assumption|].
    rewrite <- inject_Z_mult, <- Zlt_Qlt. assumption.
  - rewrite Eq. cbn [floor]. exists (Qfloor q). split; [reflexivity|].
    rewrite <- (Qfloor_Z 100). apply Qfloor_resp_le. assumption.
Qed.

(** Rounding a quotient in [1, 2^52): the result is a multiple of
    [2^-j], [j > 0], nearest to the quotient. *)
Lemma round53_below_2_52 (n d : Z) :
  0 < d -> d <= n -> n < 2 ^ 52 * d ->
  exists j m : Z,
    0 < j
    /\ round53 n d = Fin (Qred (m # Z.to_pos (2 ^ j)))
    /\ 2 * n * 2 ^ j - d <= 2 * d * m <= 2 * n * 2 ^ j + d.
Proof.
  intros Hd Hlo Hhi.
  destruct (ilog2_spec n d ltac:(lia)) as [He0 [Ha Hb]].
  set (e := ilog2 n d) in *.
  assert (He : e < 52).
  { destruct (Z.lt_ge_cases e 52) as [|Hge]; [assumption|].
    assert (2 ^ 52 <= 2 ^ e) by (apply Z.pow_le_mono_r; lia). nia. }
  unfold round53. fold e. unfold prec, emin.
  rewrite Z.max_l by lia.
  destruct (Z.leb_spec 0 (e - (53 - 1))) as [Hk|Hk]; [lia|].
  exists (- (e - (53 - 1))), (rne (n * 2 ^ (- (e - (53 - 1)))) d).
  split; [lia|]. split; [reflexivity|].
  pose proof (rne_near (n * 2 ^ (- (e - (53 - 1)))) d Hd). lia.
Qed.

Lemma fl_quotient_below_2_52 (N D : Z) :
  0 < D -> D <= N -> N < 2 ^ 52 * D ->
  exists j m : Z,
    0 < j
    /\ fl (inject_Z N / inject_Z D) = Fin (Qred (m # Z.to_pos (2 ^ j)))
    /\ 2 * N * 2 ^ j - D <= 2 * D * m <= 2 * N * 2 ^ j + D.
Proof.
  intros HD Hlo Hhi. unfold fl.
  assert (Hq : (Qred (inject_Z N / inject_Z D) == N # Z.to_pos D)%Q).
  { rewrite Qred_correct. destruct D as [|p|p]; try lia.
    symmetry. apply Qmake_Qdiv. }
  destruct (Qred (inject_Z N / inject_Z D)) as [n d].
  unfold Qeq in Hq. cbn [Qnum Qden] in *. rewrite Z2Pos.id in Hq by assumption.
  assert (Hn : 0 < n) by nia.
  destruct n as [|p|p]; try lia.
  destruct (round53_below_2_52 (Z.pos p) (Z.pos d)) as [j [m [Hj [E Hm]]]];
    [lia | nia | nia |].
  exists j, m. split; [assumption|]. split; [exact E|].
  assert (HP : 0 < 2 ^ j) by (apply Z.pow_pos_nonneg; lia).
  set (P := 2 ^ j) in *.
  assert (Hd : 0 < Z.pos d) by lia.
  set (dd := Z.pos d) in *. set (nn := Z.pos p) in *.
  split.
  - apply Z.mul_le_mono_pos_l with (p := dd); [assumption|]. nia.
  - apply Z.mul_le_mono_pos_l with (p := dd); [assumption|]. nia.
Qed.

(** With a divisor of at least 128, rounding the numerator by at most 32
    and the quotient to binary64 moves the floor by at most one. *)
Lemma floor_div_within_one (N N' D : Z) :
  128 <= D -> D <= N' -> N' < 2 ^ 52 * D -> N - 32 <= N' <= N + 32 ->
  exists v : Z,
    floor (div (ofZ N') (ofZ D)) = ofZ v /\ N / D - 1 <= v <= N / D + 1.
Proof.
  intros HD Hlo Hhi HN. unfold div, ofZ.
  assert (Hz : Qis_zero (inject_Z D) = false)
    by (unfold Qis_zero; cbn [inject_Z Qnum]; apply Z.eqb_neq; lia).
  rewrite Hz.
  destruct (fl_quotient_below_2_52 N' D) as [j [m [Hj [E Hm]]]]; try lia.
  rewrite E. cbn [floor]. unfold ofZ.
  rewrite (Qfloor_comp _ _ (Qred_correct _)).
  assert (HP : 0 < 2 ^ j) by (apply Z.pow_pos_nonneg; lia).
  change (Qfloor (m # Z.to_pos (2 ^ j))) with (m / Z.pos (Z.to_pos (2 ^ j))).
  rewrite Z2Pos.id by assumption.
  exists (m / 2 ^ j). split; [reflexivity|].
  set (P := 2 ^ j) in *.
  pose proof (Z.mul_div_le N D ltac:(lia)) as Hq1.
  pose proof (Z.mul_succ_div_gt N D ltac:(lia)) as Hq2.
  set (qd := N / D) in *.
  split.
  - apply Z.div_le_lower_bound; [assumption|].
    assert (2 * D * (P * (qd - 1)) <= 2 * D * m) by nia. nia.
  - assert (m / P < qd + 2); [|lia].
    apply Z.div_lt_upper_bound; [assumption|].
    assert (2 * D * m < 2 * D * (P * (qd + 2))) by nia. nia.
Qed.

Lemma ofZ_inj (a b : Z) : ofZ a = ofZ b -> a = b.
Proof. unfold ofZ, inject_Z. intros H. inversion H. reflexivity. Qed.

Lemma rollGetOutcome_curve_hex (s : string) :
  s <> EmptyString -> is_hex s = true ->
  rollGetOutcome_curve s =
    floor (div (sub (mul (ofZ 100) (ofZ (2 ^ 52))) (ofZ (hex_value (str_take 13 s))))
               (sub (ofZ (2 ^ 52)) (ofZ (hex_value (str_take 13 s)))))
  /\ exists v : Z,
       rollGetOutcome_curve s = ofZ v
       /\ 100 <= v
       /\ (hex_value (str_take 13 s) <= 2 ^ 52 - 128 ->
           exact_curve (hex_value (str_take 13 s)) - 1 <= v
           <= exact_curve (hex_value (str_take 13 s)) + 1).
Proof.
  intros Hne Hhex. unfold rollGetOutcome_curve.
  rewrite slice_lead13.
  assert (Ht : is_hex (str_take 13 s) = true) by (apply is_hex_take; assumption).
  assert (Hl : (String.length (str_take 13 s) <= 13)%nat)
    by (rewrite str_take_length; lia).
  rewrite parseInt_hex; [|destruct s; [contradiction | discriminate] | assumption | assumption].
  split; [reflexivity|].
  pose proof (hex_value_bound _ Ht) as B.
  assert (16 ^ Z.of_nat (String.length (str_take 13 s)) <= 16 ^ 13)
    by (apply Z.pow_le_mono_r; lia).
  change (16 ^ 13) with (2 ^ 52) in *.
  unfold exact_curve.
  set (h := hex_value (str_take 13 s)) in *.
  assert (He : 2 ^ 52 = 4503599627370496) by reflexivity.
  assert (H53 : 2 ^ 53 = 9007199254740992) by reflexivity.
  assert (H59 : 2 ^ 59 = 576460752303423488) by reflexivity.
  destruct (curve_numerator h ltac:(lia)) as [N' [EN [HN HN32]]].
  rewrite EN. rewrite sub_ofZ by lia.
  destruct (div_ofZ_ge_100 N' (2 ^ 52 - h)) as [v [Ev Hv]]; try lia.
  exists v. split; [exact Ev|]. split; [assumption|].
  intros Hh.
  destruct (floor_div_within_one (100 * 2 ^ 52 - h) N' (2 ^ 52 - h))
    as [v' [Ev' Hv']]; try lia.
  rewrite Ev in Ev'. apply ofZ_inj in Ev'. subst v'. exact Hv'.
Qed.

(** C1 (amended).  On a hexadecimal hash whose modular fold is not 0,
    [rollGetOutcome] returns the floor of [(100 e - h) / (e - h)] as
    binary64 arithmetic evaluates it ([h] the value of the leading 13
    hexadecimal digits, [e = 2^52]; the difference [100 e - h] and the
    quotient are each rounded to the nearest binary64 value).  This
    integer is at least 100, and for [h <= 2^52 - 128] it is within one of
    the exact [floor((100 e - h) / (e - h))]. *)
Theorem rollGetOutcome_curve_ge_100 (combined : string) :
  is_hex combined = true ->
  modular_fold 20 (map hex_value (hash_chunks combined)) <> 0 ->
  rollGetOutcome combined =
    floor (div (sub (mul (ofZ 100) (ofZ (2 ^ 52)))
                    (ofZ (hex_value (str_take 13 combined))))
               (sub (ofZ (2 ^ 52)) (ofZ (hex_value (str_take 13 combined)))))
  /\ exists v : Z,
       rollGetOutcome combined = ofZ v
       /\ 100 <= v
       /\ (hex_value (str_take 13 combined) <= 2 ^ 52 - 128 ->
           exact_curve (hex_value (str_take 13 combined)) - 1 <= v
           <= exact_curve (hex_value (str_take 13 combined)) + 1).
Proof.
  intros Hhex Hfold.
  assert (Hne : combined <> EmptyString)
    by (intros ->; apply Hfold; reflexivity).
  assert (HM : 0 < 20 <= 2 ^ 15) by (split; [lia | vm_compute; discriminate]).
  assert (Hbranch : rollGetOutcome combined = rollGetOutcome_curve combined).
  { unfold rollGetOutcome. rewrite rollGetOutcome_mod_20.
    rewrite rollIsHashDivisible_hex by assumption.
    destruct (Z.eqb_spec (modular_fold 20 (map hex_value (hash_chunks combined))) 0);
      [contradiction | reflexivity]. }
  rewrite Hbranch. apply rollGetOutcome_curve_hex; assumption.
Qed.

(** The second branch at work on the SHA-256 digest of the empty text. *)
Lemma rollGetOutcome_curve_ge_100_witness :
  rollGetOutcome "e3b0c44298fc1c149afbf4c8996fb92427ae41e4649b934ca495991b7852b855"
  = floor (div (sub (mul (ofZ 100) (ofZ (2 ^ 52)))
                    (ofZ (hex_value "e3b0c44298fc1")))
               (sub (ofZ (2 ^ 52)) (ofZ (hex_value "e3b0c44298fc1"))))
  /\ exists v : Z,
       rollGetOutcome "e3b0c44298fc1c149afbf4c8996fb92427ae41e4649b934ca495991b7852b855"
       = ofZ v
       /\ 100 <= v
       /\ (hex_value "e3b0c44298fc1" <= 2 ^ 52 - 128 ->
           exact_curve (hex_value "e3b0c44298fc1") - 1 <= v
           <= exact_curve (hex_value "e3b0c44298fc1") + 1).
Proof.
  apply (rollGetOutcome_curve_ge_100
           "e3b0c44298fc1c149afbf4c8996fb92427ae41e4649b934ca495991b7852b855").
  - reflexivity.
  - vm_compute. discriminate.
Defined.

(** On this hash the function returns 896, the exact quotient as well. *)
Example rollGetOutcome_896 :
  rollGetOutcome "e3b0c44298fc1c149afbf4c8996fb92427ae41e4649b934ca495991b7852b855"
  = ofZ 896
  /\ exact_curve (hex_value "e3b0c44298fc1") = 896.
Proof. split; vm_compute; reflexivity. Qed.

(** Rounding shows at ordinary values too: here the function returns 104
    where the exact quotient is 103. *)
Example rollGetOutcome_104 :
  modular_fold 20
    (map hex_value
       (hash_chunks "09f1165e725481c149afbf4c8996fb92427ae41e4649b934ca495991b7852b85"))
  = 17
  /\ rollGetOutcome "09f1165e725481c149afbf4c8996fb92427ae41e4649b934ca495991b7852b85"
     = ofZ 104
  /\ exact_curve (hex_value "09f1165e72548") = 103
  /\ of_float ((100 * 4503599627370496 - 174897072907592)
               / (4503599627370496 - 174897072907592))%float
     = div (sub (mul (ofZ 100) (ofZ (2 ^ 52))) (ofZ (hex_value "09f1165e72548")))
           (sub (ofZ (2 ^ 52)) (ofZ (hex_value "09f1165e72548"))).
Proof. repeat split; vm_compute; reflexivity. Qed.

(** C1 as stated fails: on this hash the fold is not 0, the function
    returns 99 * 2^52, which is not below 100 and is not the exact integer
    quotient either. *)
Lemma rollGetOutcome_not_below_100 :
  is_hex "fffffffffffff1c149afbf4c8996fb92427ae41e4649b934ca495991b7852b85" = true
  /\ modular_fold 20
       (map hex_value
          (hash_chunks "fffffffffffff1c149afbf4c8996fb92427ae41e4649b934ca495991b7852b85"))
     = 5
  /\ hex_value (str_take 13 "fffffffffffff1c149afbf4c8996fb92427ae41e4649b934ca495991b7852b85")
     = 2 ^ 52 - 1
  /\ rollGetOutcome "fffffffffffff1c149afbf4c8996fb92427ae41e4649b934ca495991b7852b85"
     = ofZ 445856363109679104
  /\ exact_curve (2 ^ 52 - 1) = 445856363109679105
  /\ ~ (0 <= 445856363109679104 < 100).
Proof.
  repeat split; try (vm_compute; reflexivity).
  intros [_ H]. lia.
Qed.

(** ** Comparisons and floors of integers *)

Lemma floor_ofZ (z : Z) : floor (ofZ z) = ofZ z.
Proof. unfold floor, ofZ. rewrite Qfloor_Z. reflexivity. Qed.

Lemma floor_floor (n : num) : floor (floor n) = floor n.
Proof. destruct n; try reflexivity. cbn [floor]. apply floor_ofZ. Qed.

Lemma is_nan_floor (n : num) : is_nan (floor n) = is_nan n.
Proof. destruct n; reflexivity. Qed.

Lemma leb_ofZ (a b : Z) : leb (ofZ a) (ofZ b) = (a <=? b).
Proof.
  unfold leb, ofZ, Qle_bool, inject_Z. cbn [Qnum Qden].
  rewrite !Z.mul_1_r. reflexivity.
Qed.



Lemma leb_floor_negative (q : Q) : (q < 0)%Q -> leb (floor (Fin q)) (ofZ 0) = true.
Proof.
  intros Hq. cbn [floor]. rewrite leb_ofZ. apply Z.leb_le.
  pose proof (Qfloor_le q) as Hf.
  assert (H : (inject_Z (Qfloor q) < inject_Z 0)%Q)
    by (eapply Qle_lt_trans; [exact Hf | exact Hq]).
  rewrite <- Zlt_Qlt in H. lia.
Qed.

(** Against a floored threshold, a number compares as its floor does. *)
Lemma ltb_floor_l (x t : num) : ltb (floor x) (floor t) = ltb x (floor t).
Proof.
  destruct x as [| s | q]; try reflexivity.
  destruct t as [| s | r]; try reflexivity.
  cbn [floor]. unfold ltb, ofZ. f_equal.
  apply Bool.eq_iff_eq_true. rewrite !Qle_bool_iff. split; intros H.
  - eapply Qle_trans; [exact H | apply Qfloor_le].
  - rewrite <- Zle_Qle.
    rewrite <- (Qfloor_Z (Qfloor r)). apply Qfloor_resp_le. exact H.
Qed.

(** ** Reading a property *)

Lemma get_prop (v : jsval) (k : string) :
  is_nullish v = false -> get v k = Ok (prop v k).
Proof. destruct v; try discriminate; reflexivity. Qed.

Lemma get_nullish (v : jsval) (k : string) :
  is_nullish v = true -> get v k = Throw TypeError.
Proof. destruct v; try discriminate; reflexivity. Qed.

(** ** Conversions *)

Section Conversions.

Variable StringToNumber : string -> num.
Variable NumberToString : num -> string.

Local Abbreviation ToString := (ToString NumberToString).
Local Abbreviation ToPrimitive := (ToPrimitive NumberToString).
Local Abbreviation ToNumber := (ToNumber StringToNumber NumberToString).
Local Abbreviation number_of := (number_of StringToNumber NumberToString).
Local Abbreviation Math_floor := (Math_floor StringToNumber NumberToString).
Local Abbreviation isNaN := (isNaN StringToNumber NumberToString).
Local Abbreviation js_add := (js_add StringToNumber NumberToString).
Local Abbreviation js_mul := (js_mul StringToNumber NumberToString).
Local Abbreviation js_div := (js_div StringToNumber NumberToString).
Local Abbreviation profit_total := (profit_total StringToNumber NumberToString).
Local Abbreviation invalid_number := (invalid_number StringToNumber NumberToString).

(** A conversion returns exactly on the values that have a conversion to
    a primitive, and throws a TypeError on the others. *)
Lemma ToNumber_converts (v : jsval) :
  ToNumber v = if converts v then Ok (number_of v) else Throw TypeError.
Proof.
  unfold number_of, ToNumber, ToPrimitive, ToString.
  destruct v; try reflexivity; destruct (converts _); reflexivity.
Qed.

Lemma number_of_unconvertible (v : jsval) :
  converts v = false -> number_of v = NaN.
Proof.
  intros H. unfold number_of. rewrite ToNumber_converts, H. reflexivity.
Qed.

Lemma Math_floor_converts (v : jsval) :
  Math_floor v = if converts v then Ok (floor (number_of v)) else Throw TypeError.
Proof.
  unfold Math_floor. rewrite ToNumber_converts.
  destruct (converts v); reflexivity.
Qed.

Lemma isNaN_converts (v : jsval) :
  isNaN v = if converts v then Ok (is_nan (number_of v)) else Throw TypeError.
Proof.
  unfold isNaN. rewrite ToNumber_converts.
  destruct (converts v); reflexivity.
Qed.

Lemma Math_floor_num (n : num) : Math_floor (VNum n) = Ok (floor n).
Proof. reflexivity. Qed.

Lemma js_add_num (a b : num) : js_add (VNum a) (VNum b) = Ok (VNum (add a b)).
Proof. reflexivity. Qed.

Lemma ltb_NaN_r (x : num) : ltb x NaN = false.
Proof. destruct x; reflexivity. Qed.

(** The conversions throw nothing but a TypeError. *)
Lemma ToPrimitive_throws (v : jsval) (e : error) :
  ToPrimitive v = Throw e -> e = TypeError.
Proof.
  unfold ToPrimitive, ToString.
  destruct v; try discriminate; destruct (converts _); cbn [bind];
    congruence.
Qed.

Lemma ToNumber_throws (v : jsval) (e : error) :
  ToNumber v = Throw e -> e = TypeError.
Proof.
  rewrite ToNumber_converts. destruct (converts v); congruence.
Qed.

Lemma Math_floor_throws (v : jsval) (e : error) :
  Math_floor v = Throw e -> e = TypeError.
Proof.
  rewrite Math_floor_converts. destruct (converts v); congruence.
Qed.

Lemma js_add_throws (a b : jsval) (e : error) :
  js_add a b = Throw e -> e = TypeError.
Proof.
  unfold js_add.
  destruct (ToPrimitive a) as [pa|ea] eqn:Ha; cbn [bind];
    [|intros E; injection E as <-; exact (ToPrimitive_throws _ _ Ha)].
  destruct (ToPrimitive b) as [pb|eb] eqn:Hb; cbn [bind];
    [discriminate|intros E; injection E as <-; exact (ToPrimitive_throws _ _ Hb)].
Qed.

Lemma js_mul_converts (a b : jsval) :
  js_mul a b
  = if converts a && converts b
    then Ok (VNum (mul (number_of a) (number_of b)))
    else Throw TypeError.
Proof.
  unfold js_mul. rewrite !ToNumber_converts.
  destruct (converts a), (converts b); reflexivity.
Qed.

Lemma js_div_converts (a b : jsval) :
  js_div a b
  = if converts a && converts b
    then Ok (VNum (div (number_of a) (number_of b)))
    else Throw TypeError.
Proof.
  unfold js_div. rewrite !ToNumber_converts.
  destruct (converts a), (converts b); reflexivity.
Qed.

Lemma js_mul_throws (a b : jsval) (e : error) :
  js_mul a b = Throw e -> e = TypeError.
Proof.
  rewrite js_mul_converts. destruct (converts a && converts b); congruence.
Qed.

Lemma js_div_throws (a b : jsval) (e : error) :
  js_div a b = Throw e -> e = TypeError.
Proof.
  rewrite js_div_converts. destruct (converts a && converts b); congruence.
Qed.

Lemma get_throws (v : jsval) (k : string) (e : error) :
  get v k = Throw e -> e = TypeError.
Proof. destruct v; cbn [get]; congruence. Qed.

Lemma profit_total_throws (amount multiplier winnings : jsval) (e : error) :
  profit_total amount multiplier winnings = Throw e -> e = TypeError.
Proof.
  unfold profit_total.
  destruct (js_div multiplier _) as [q|e1] eqn:H1; cbn [bind];
    [|intros E; injection E as <-; exact (js_div_throws _ _ _ H1)].
  destruct (js_mul amount q) as [p|e2] eqn:H2; cbn [bind];
    [|intros E; injection E as <-; exact (js_mul_throws _ _ _ H2)].
  destruct (js_add p winnings) as [t|e3] eqn:H3; cbn [bind];
    [|intros E; injection E as <-; exact (js_add_throws _ _ _ H3)].
  apply Math_floor_throws.
Qed.

(** On numbers the potential winnings are computed as written. *)
Lemma profit_total_num (a m w : num) :
  profit_total (VNum a) (VNum m) (VNum w)
  = Ok (floor (add (mul a (div m (ofZ 100))) w)).
Proof. reflexivity. Qed.

(** The test of an amount or a multiplier, by cases. *)
Lemma invalid_number_converts (v : jsval) (bound : num) :
  invalid_number v bound =
  if is_nullish v then Ok true
  else if converts v
       then Ok (is_nan (number_of v) || leb (floor (number_of v)) bound)
       else Throw TypeError.
Proof.
  unfold invalid_number. destruct (is_nullish v); [reflexivity|].
  rewrite isNaN_converts, Math_floor_converts.
  destruct (converts v); [|reflexivity].
  cbn [bind]. destruct (is_nan (number_of v)); reflexivity.
Qed.

Lemma number_of_num (n : num) : number_of (VNum n) = n.
Proof. reflexivity. Qed.

Lemma toString_method_converts (v : jsval) :
  toString_method NumberToString v
  = if negb (is_nullish v) && converts v
    then Ok (text_of NumberToString v)
    else Throw TypeError.
Proof.
  unfold toString_method, ToString.
  destruct (is_nullish v); [reflexivity|]. reflexivity.
Qed.

(** A sum returns exactly when both sides have a conversion, and what it
    returns is a primitive. *)
Lemma js_add_converts (a b : jsval) :
  converts a = true -> converts b = true ->
  exists p : jsval, js_add a b = Ok p /\ converts p = true.
Proof.
  intros Ha Hb. unfold js_add, ToPrimitive, ToString.
  destruct a; destruct b; try rewrite Ha; try rewrite Hb; cbn [bind];
    try (destruct b0); try (destruct b);
    eexists; (split; [reflexivity|]); reflexivity.
Qed.

Lemma js_add_unconvertible (a b : jsval) :
  converts a && converts b = false -> js_add a b = Throw TypeError.
Proof.
  intros H. unfold js_add, ToPrimitive, ToString.
  destruct (converts a) eqn:Ha; destruct (converts b) eqn:Hb;
    try discriminate H;
    destruct a; try discriminate Ha; destruct b; try discriminate Hb;
    try rewrite Ha; try rewrite Hb; reflexivity.
Qed.

End Conversions.

(** ** Bet validation *)

Section BetValidation.

Variable StringToNumber : string -> num.
Variable NumberToString : num -> string.
Variable env : Env.

Local Abbreviation ToString := (ToString NumberToString).
Local Abbreviation ToPrimitive := (ToPrimitive NumberToString).
Local Abbreviation ToNumber := (ToNumber StringToNumber NumberToString).
Local Abbreviation number_of := (number_of StringToNumber NumberToString).
Local Abbreviation Math_floor := (Math_floor StringToNumber NumberToString).
Local Abbreviation isNaN := (isNaN StringToNumber NumberToString).
Local Abbreviation js_add := (js_add StringToNumber NumberToString).
Local Abbreviation js_mul := (js_mul StringToNumber NumberToString).
Local Abbreviation js_div := (js_div StringToNumber NumberToString).
Local Abbreviation profit_total := (profit_total StringToNumber NumberToString).
Local Abbreviation invalid_number := (invalid_number StringToNumber NumberToString).
Local Abbreviation rollCheckSendBetData :=
  (rollCheckSendBetData StringToNumber NumberToString env).
Local Abbreviation rollCheckSendBetUser :=
  (rollCheckSendBetUser StringToNumber NumberToString env).
Local Abbreviation rollGetUserGameStats :=
  (rollGetUserGameStats StringToNumber NumberToString).

(** [rollCheckSendBetData] on anything that is not [undefined] or [null]. *)
Lemma rollCheckSendBetData_defined (data : jsval) :
  is_nullish data = false ->
  rollCheckSendBetData data =
  if is_nullish (prop data "amount") then throw_msg MsgInvalidAmount
  else if negb (converts (prop data "amount")) then Throw TypeError
  else if is_nan (number_of (prop data "amount"))
          || leb (floor (number_of (prop data "amount"))) (ofZ 0)
  then throw_msg MsgInvalidAmount
  else if is_nullish (prop data "multiplier") then throw_msg MsgInvalidMultiplier
  else if negb (converts (prop data "multiplier")) then Throw TypeError
  else if is_nan (number_of (prop data "multiplier"))
          || leb (floor (number_of (prop data "multiplier"))) (ofZ 100)
  then throw_msg MsgInvalidMultiplier
  else if ltb (floor (number_of (prop data "amount"))) (min_threshold env)
  then throw_msg MsgMinAmount
  else Ok tt.
Proof.
  intros H. unfold rollCheckSendBetData. rewrite H.
  rewrite !(get_prop data _ H). cbn [bind].
  rewrite !invalid_number_converts, Math_floor_converts.
  destruct (is_nullish (prop data "amount")); [reflexivity|].
  destruct (converts (prop data "amount")); [|reflexivity].
  cbn [negb bind].
  destruct (is_nan (number_of (prop data "amount"))
            || leb (floor (number_of (prop data "amount"))) (ofZ 0));
    [reflexivity|].
  destruct (is_nullish (prop data "multiplier")); [reflexivity|].
  destruct (converts (prop data "multiplier")); [|reflexivity].
  cbn [negb bind].
  destruct (is_nan (number_of (prop data "multiplier"))
            || leb (floor (number_of (prop data "multiplier"))) (ofZ 100));
    reflexivity.
Qed.

(** [rollCheckSendBetUser] on objects. *)
Lemma rollCheckSendBetUser_objects (dfs ufs sfs : list (string * jsval)) :
  rollCheckSendBetUser (VObj dfs) (VObj ufs) (VObj sfs) =
  floored <- Math_floor (field dfs "amount") ;;
  balance_number <- ToNumber (field ufs "balance") ;;
  if ltb balance_number floored then throw_msg MsgBalance
  else
    sum <- js_add (field dfs "amount") (field sfs "bet") ;;
    total <- Math_floor sum ;;
    if gtb total (max_bet_ceiling env) then throw_msg MsgMaxAmount
    else
      profit <- profit_total (field dfs "amount") (field dfs "multiplier")
                  (field sfs "winnings") ;;
      if gtb profit (max_profit_ceiling env) then throw_msg MsgMaxProfit
      else Ok tt.
Proof. reflexivity. Qed.

(** The two ceiling tests throw their own messages or a TypeError. *)
Lemma ceiling_tests_throw (amount multiplier userStats : jsval) (e : error) :
  (stats_bet <- get userStats "bet" ;;
   sum <- js_add amount stats_bet ;;
   total <- Math_floor sum ;;
   if gtb total (max_bet_ceiling env) then throw_msg MsgMaxAmount
   else
     stats_winnings <- get userStats "winnings" ;;
     profit <- profit_total amount multiplier stats_winnings ;;
     if gtb profit (max_profit_ceiling env) then throw_msg MsgMaxProfit
     else Ok tt) = Throw e ->
  e = TypeError \/ e = Error MsgMaxAmount \/ e = Error MsgMaxProfit.
Proof.
  unfold throw_msg.
  destruct (get userStats "bet") as [sb|e1] eqn:H1; cbn [bind];
    [|intros E; injection E as <-; left; exact (get_throws _ _ _ H1)].
  destruct (js_add amount sb) as [sum|e2] eqn:H2; cbn [bind];
    [|intros E; injection E as <-; left; exact (js_add_throws _ _ _ _ _ H2)].
  destruct (Math_floor sum) as [total|e3] eqn:H3; cbn [bind];
    [|intros E; injection E as <-; left; exact (Math_floor_throws _ _ _ _ H3)].
  destruct (gtb total (max_bet_ceiling env));
    [intros E; injection E as <-; right; left; reflexivity|].
  destruct (get userStats "winnings") as [sw|e4] eqn:H4; cbn [bind];
    [|intros E; injection E as <-; left; exact (get_throws _ _ _ H4)].
  destruct (profit_total amount multiplier sw) as [p|e5] eqn:H5; cbn [bind];
    [|intros E; injection E as <-; left; exact (profit_total_throws _ _ _ _ _ _ H5)].
  destruct (gtb p (max_profit_ceiling env));
    [intros E; injection E as <-; right; right; reflexivity | discriminate].
Qed.

(** The balance test comes first and reads only the balance and the
    amount. *)
Lemma rollCheckSendBetUser_balance_iff
  (dfs ufs : list (string * jsval)) (userStats : jsval) :
  rollCheckSendBetUser (VObj dfs) (VObj ufs) userStats = Throw (Error MsgBalance)
  <-> converts (field dfs "amount") = true
      /\ converts (field ufs "balance") = true
      /\ ltb (number_of (field ufs "balance"))
             (floor (number_of (field dfs "amount"))) = true.
Proof.
  unfold rollCheckSendBetUser.
  cbn [is_undefined orb get bind]. fold (field ufs "balance").
  fold (field dfs "amount").
  rewrite Math_floor_converts, ToNumber_converts.
  destruct (converts (field dfs "amount")); cbn [bind];
    [|split; [discriminate | intros (H & _); discriminate H]].
  destruct (converts (field ufs "balance")); cbn [bind];
    [|split; [discriminate | intros (_ & H & _); discriminate H]].
  destruct (ltb (number_of (field ufs "balance"))
                (floor (number_of (field dfs "amount")))).
  - split; [intros _; repeat split | reflexivity].
  - split; [|intros (_ & _ & H); discriminate H].
    intros H. apply ceiling_tests_throw in H.
    destruct H as [H|[H|H]]; discriminate H.
Qed.

(** User validation of a numeric amount against a numeric round total. *)
Lemma rollCheckSendBetUser_num (n b : num) (balance multiplier winnings : jsval) :
  rollCheckSendBetUser (bet_data (VNum n) multiplier)
    (user_with_balance balance) (stats_obj (VNum b) winnings)
  = if converts balance
    then if ltb (number_of balance) (floor n) then Throw (Error MsgBalance)
         else if gtb (floor (add n b)) (max_bet_ceiling env)
              then Throw (Error MsgMaxAmount)
              else profit <- profit_total (VNum n) multiplier winnings ;;
                   if gtb profit (max_profit_ceiling env)
                   then Throw (Error MsgMaxProfit)
                   else Ok tt
    else Throw TypeError.
Proof.
  unfold bet_data, user_with_balance, stats_obj.
  rewrite rollCheckSendBetUser_objects.
  change (field [("balance", balance)] "balance") with balance.
  change (field [("amount", VNum n); ("multiplier", multiplier)] "amount")
    with (VNum n).
  change (field [("amount", VNum n); ("multiplier", multiplier)] "multiplier")
    with multiplier.
  change (field [("bet", VNum b); ("winnings", winnings)] "bet") with (VNum b).
  change (field [("bet", VNum b); ("winnings", winnings)] "winnings")
    with winnings.
  rewrite js_add_num, Math_floor_num, ToNumber_converts.
  destruct (converts balance); [|reflexivity].
  cbn [bind]. rewrite Math_floor_num. cbn [bind]. reflexivity.
Qed.

(** The profit test throws its own message or a TypeError. *)
Lemma profit_test_throws (amount multiplier winnings : jsval) (e : error) :
  (profit <- profit_total amount multiplier winnings ;;
   if gtb profit (max_profit_ceiling env) then Throw (Error MsgMaxProfit)
   else Ok tt) = Throw e ->
  e = TypeError \/ e = Error MsgMaxProfit.
Proof.
  destruct (profit_total amount multiplier winnings) as [p|e5] eqn:H5; cbn [bind];
    [|intros E; injection E as <-; left; exact (profit_total_throws _ _ _ _ _ _ H5)].
  destruct (gtb p (max_profit_ceiling env));
    [intros E; injection E as <-; right; reflexivity | discriminate].
Qed.

Lemma leb_floor_below_one (q : Q) : (q < 1)%Q -> leb (floor (Fin q)) (ofZ 0) = true.
Proof.
  intros Hq. cbn [floor]. rewrite leb_ofZ. apply Z.leb_le.
  pose proof (Qfloor_le q) as Hf.
  assert (H : (inject_Z (Qfloor q) < inject_Z 1)%Q)
    by (eapply Qle_lt_trans; [exact Hf | exact Hq]).
  rewrite <- Zlt_Qlt in H. lia.
Qed.

(** C7 (amended).  Format validation returns, throws one of its own four
    messages, or throws a TypeError.  It fails exactly when the amount is
    missing, has no conversion to a number, is not numeric, has a floor of
    at most 0 or is below the minimum-bet threshold, or the multiplier is
    missing, has no conversion to a number, is not numeric or has a floor
    of at most 100.  The failure is a TypeError, not one of the messages,
    exactly when the amount is present and has no conversion, or the amount
    passes its test and the multiplier is present and has no conversion.
    Validation rejects amount 0, negative amounts, every amount below 1 and
    the multipliers 100 and 99, and accepts multiplier 101 with an amount of
    at least 1 that is not below the minimum. *)
Theorem rollCheckSendBetData_fails_iff :
  (forall data : jsval,
      rollCheckSendBetData data = Ok tt
      \/ rollCheckSendBetData data = Throw TypeError
      \/ exists m : message,
           rollCheckSendBetData data = Throw (Error m)
           /\ In m [MsgSomethingWrong; MsgInvalidAmount; MsgInvalidMultiplier;
                    MsgMinAmount])
  /\ (forall data : jsval,
        rollCheckSendBetData data <> Ok tt <->
        (is_nullish (prop data "amount") = true
         \/ converts (prop data "amount") = false
         \/ is_nan (number_of (prop data "amount")) = true
         \/ leb (floor (number_of (prop data "amount"))) (ofZ 0) = true
         \/ ltb (number_of (prop data "amount")) (min_threshold env) = true
         \/ is_nullish (prop data "multiplier") = true
         \/ converts (prop data "multiplier") = false
         \/ is_nan (number_of (prop data "multiplier")) = true
         \/ leb (floor (number_of (prop data "multiplier"))) (ofZ 100) = true))
  /\ (forall data : jsval,
        rollCheckSendBetData data = Throw TypeError <->
        is_nullish (prop data "amount") = false
        /\ (converts (prop data "amount") = false
            \/ (is_nan (number_of (prop data "amount")) = false
                /\ leb (floor (number_of (prop data "amount"))) (ofZ 0) = false
                /\ is_nullish (prop data "multiplier") = false
                /\ converts (prop data "multiplier") = false)))
  /\ (forall multiplier : jsval,
        rollCheckSendBetData (bet_data (VNum (ofZ 0)) multiplier)
        = Throw (Error MsgInvalidAmount))
  /\ (forall (q : Q) (multiplier : jsval),
        (q < 0)%Q ->
        rollCheckSendBetData (bet_data (VNum (Fin q)) multiplier)
        = Throw (Error MsgInvalidAmount))
  /\ (forall (q : Q) (multiplier : jsval),
        (q < 1)%Q ->
        rollCheckSendBetData (bet_data (VNum (Fin q)) multiplier)
        = Throw (Error MsgInvalidAmount))
  /\ (forall a : Z,
        0 < a ->
        rollCheckSendBetData (bet_data (VNum (ofZ a)) (VNum (ofZ 100)))
        = Throw (Error MsgInvalidMultiplier)
        /\ rollCheckSendBetData (bet_data (VNum (ofZ a)) (VNum (ofZ 99)))
           = Throw (Error MsgInvalidMultiplier))
  /\ (forall q : Q,
        (1 <= q)%Q -> ltb (Fin q) (min_threshold env) = false ->
        rollCheckSendBetData (bet_data (VNum (Fin q)) (VNum (ofZ 101))) = Ok tt).
Proof.
  assert (Hlow : forall (q : Q) (multiplier : jsval),
             (q < 1)%Q ->
             rollCheckSendBetData (bet_data (VNum (Fin q)) multiplier)
             = Throw (Error MsgInvalidAmount)).
  { intros q multiplier Hq.
    rewrite rollCheckSendBetData_defined by reflexivity.
    change (prop (bet_data (VNum (Fin q)) multiplier) "amount") with (VNum (Fin q)).
    rewrite number_of_num, (leb_floor_below_one q Hq).
    rewrite orb_true_r. reflexivity. }
  split; [|split; [|split; [|split; [|split; [|split; [|split]]]]]].
  - intros data. destruct (is_nullish data) eqn:Hn.
    + right. right. exists MsgSomethingWrong. split; [|cbn; auto].
      unfold rollCheckSendBetData. rewrite Hn. reflexivity.
    + rewrite rollCheckSendBetData_defined by assumption.
      repeat match goal with
             | |- context [if ?b then _ else _] => destruct b
             end;
        (left; reflexivity) || (right; left; reflexivity)
        || (right; right; eexists; split; [reflexivity | cbn; tauto]).
  - intros data. destruct (is_nullish data) eqn:Hn.
    + split; [intros _; left; destruct data; try discriminate Hn; reflexivity
             | intros _].
      unfold rollCheckSendBetData. rewrite Hn. discriminate.
    + rewrite rollCheckSendBetData_defined by assumption.
      unfold min_threshold. rewrite ltb_floor_l.
      fold (min_threshold env).
      destruct (is_nullish (prop data "amount"));
        destruct (converts (prop data "amount"));
        destruct (is_nan (number_of (prop data "amount")));
        destruct (leb (floor (number_of (prop data "amount"))) (ofZ 0));
        destruct (is_nullish (prop data "multiplier"));
        destruct (converts (prop data "multiplier"));
        destruct (is_nan (number_of (prop data "multiplier")));
        destruct (leb (floor (number_of (prop data "multiplier"))) (ofZ 100));
        destruct (ltb (number_of (prop data "amount")) (min_threshold env));
        cbn [orb negb throw_msg];
        (split; [intros H; try tauto; exfalso; apply H; reflexivity
                | intros H; try discriminate;
                  repeat (destruct H as [H|H]; try discriminate H)]).
  - intros data. destruct (is_nullish data) eqn:Hn.
    + unfold rollCheckSendBetData. rewrite Hn.
      split; [discriminate|].
      intros [H _]. destruct data; discriminate.
    + rewrite rollCheckSendBetData_defined by assumption.
      destruct (is_nullish (prop data "amount"));
        destruct (converts (prop data "amount"));
        destruct (is_nan (number_of (prop data "amount")));
        destruct (leb (floor (number_of (prop data "amount"))) (ofZ 0));
        destruct (is_nullish (prop data "multiplier"));
        destruct (converts (prop data "multiplier"));
        destruct (is_nan (number_of (prop data "multiplier")));
        destruct (leb (floor (number_of (prop data "multiplier"))) (ofZ 100));
        destruct (ltb (floor (number_of (prop data "amount"))) (min_threshold env));
        cbn [orb negb throw_msg];
        (split; [intros H; try discriminate H; intuition congruence
                | intros H; try reflexivity; exfalso; intuition congruence]).
  - intros multiplier. reflexivity.
  - intros q multiplier Hq. apply Hlow.
    eapply Qlt_trans; [exact Hq | reflexivity].
  - exact Hlow.
  - intros a Ha.
    assert (Hpos : leb (floor (ofZ a)) (ofZ 0) = false).
    { rewrite floor_ofZ, leb_ofZ. apply Z.leb_gt. assumption. }
    split; rewrite rollCheckSendBetData_defined by reflexivity.
    + change (prop (bet_data (VNum (ofZ a)) (VNum (ofZ 100))) "amount")
        with (VNum (ofZ a)).
      rewrite number_of_num, Hpos. reflexivity.
    + change (prop (bet_data (VNum (ofZ a)) (VNum (ofZ 99))) "amount")
        with (VNum (ofZ a)).
      rewrite number_of_num, Hpos. reflexivity.
  - intros q Hq Hmin.
    assert (Hpos : leb (floor (Fin q)) (ofZ 0) = false).
    { cbn [floor]. rewrite leb_ofZ. apply Z.leb_gt.
      pose proof (Qfloor_resp_le _ _ Hq) as H1.
      change 1%Q with (inject_Z 1) in H1. rewrite Qfloor_Z in H1. lia. }
    rewrite rollCheckSendBetData_defined by reflexivity.
    change (prop (bet_data (VNum (Fin q)) (VNum (ofZ 101))) "amount")
      with (VNum (Fin q)).
    change (prop (bet_data (VNum (Fin q)) (VNum (ofZ 101))) "multiplier")
      with (VNum (ofZ 101)).
    rewrite !number_of_num, Hpos. unfold min_threshold in *.
    rewrite ltb_floor_l, Hmin. reflexivity.
Qed.

(** C4 (amended).  The insufficient-balance error is thrown exactly when
    the amount and the balance convert to numbers and the raw balance is
    below [Math.floor(amount)]; what the user has already bet in the round
    plays no part in it.  With balance 1000 and an existing bet of 900, a
    new bet of 200 is therefore not rejected for insufficient balance: it
    is rejected exactly when a per-round ceiling is exceeded (the bet
    ceiling by the round total 1100, or the profit ceiling by the
    winnings), or when the multiplier or the winnings so far have no
    conversion to a number, and accepted otherwise. *)
Theorem rollCheckSendBetUser_balance_raw :
  (forall (dfs ufs : list (string * jsval)) (userStats : jsval),
      rollCheckSendBetUser (VObj dfs) (VObj ufs) userStats
      = Throw (Error MsgBalance)
      <-> converts (field dfs "amount") = true
          /\ converts (field ufs "balance") = true
          /\ ltb (number_of (field ufs "balance"))
                 (floor (number_of (field dfs "amount"))) = true)
  /\ (forall multiplier winnings : jsval,
        rollCheckSendBetUser (bet_data (VNum (ofZ 200)) multiplier)
          (user_with_balance (VNum (ofZ 1000)))
          (stats_obj (VNum (ofZ 900)) winnings)
        <> Throw (Error MsgBalance))
  /\ (forall multiplier winnings : jsval,
        rollCheckSendBetUser (bet_data (VNum (ofZ 200)) multiplier)
          (user_with_balance (VNum (ofZ 1000)))
          (stats_obj (VNum (ofZ 900)) winnings)
        = if gtb (ofZ 1100) (max_bet_ceiling env)
          then Throw (Error MsgMaxAmount)
          else profit <- profit_total (VNum (ofZ 200)) multiplier winnings ;;
               if gtb profit (max_profit_ceiling env)
               then Throw (Error MsgMaxProfit)
               else Ok tt)
  /\ (forall m w : num,
        rollCheckSendBetUser (bet_data (VNum (ofZ 200)) (VNum m))
          (user_with_balance (VNum (ofZ 1000)))
          (stats_obj (VNum (ofZ 900)) (VNum w))
        = if gtb (ofZ 1100) (max_bet_ceiling env)
          then Throw (Error MsgMaxAmount)
          else if gtb (floor (add (mul (ofZ 200) (div m (ofZ 100))) w))
                      (max_profit_ceiling env)
               then Throw (Error MsgMaxProfit)
               else Ok tt).
Proof.
  assert (Hrun : forall multiplier winnings : jsval,
             rollCheckSendBetUser (bet_data (VNum (ofZ 200)) multiplier)
               (user_with_balance (VNum (ofZ 1000)))
               (stats_obj (VNum (ofZ 900)) winnings)
             = if gtb (ofZ 1100) (max_bet_ceiling env)
               then Throw (Error MsgMaxAmount)
               else profit <- profit_total (VNum (ofZ 200)) multiplier winnings ;;
                    if gtb profit (max_profit_ceiling env)
                    then Throw (Error MsgMaxProfit)
                    else Ok tt).
  { intros multiplier winnings. rewrite rollCheckSendBetUser_num.
    reflexivity. }
  split; [exact rollCheckSendBetUser_balance_iff|]. split; [|split].
  - intros multiplier winnings H.
    apply rollCheckSendBetUser_balance_iff in H.
    destruct H as (_ & _ & H). revert H. vm_compute. discriminate.
  - exact Hrun.
  - intros m w. rewrite Hrun, profit_total_num. reflexivity.
Qed.


(** C10 (amended).  A numeric amount need not be an integer.  Format
    validation gives a number and its floor the same verdict, and so does
    the balance test of user validation: positivity, minimum bet and
    balance are all tested on [Math.floor(amount)]. *)
Theorem amount_checks_use_floor :
  (forall (n : num) (rest : list (string * jsval)),
      rollCheckSendBetData (VObj (("amount", VNum n) :: rest))
      = rollCheckSendBetData (VObj (("amount", VNum (floor n)) :: rest)))
  /\ (forall (n : num) (rest ufs : list (string * jsval)) (userStats : jsval),
        rollCheckSendBetUser (VObj (("amount", VNum n) :: rest)) (VObj ufs) userStats
        = Throw (Error MsgBalance)
        <-> rollCheckSendBetUser (VObj (("amount", VNum (floor n)) :: rest))
              (VObj ufs) userStats
            = Throw (Error MsgBalance)).
Proof.
  split.
  - intros n rest.
    rewrite !rollCheckSendBetData_defined by reflexivity.
    change (prop (VObj (("amount", VNum n) :: rest)) "amount") with (VNum n).
    change (prop (VObj (("amount", VNum (floor n)) :: rest)) "amount")
      with (VNum (floor n)).
    change (prop (VObj (("amount", VNum n) :: rest)) "multiplier")
      with (field rest "multiplier").
    change (prop (VObj (("amount", VNum (floor n)) :: rest)) "multiplier")
      with (field rest "multiplier").
    rewrite !number_of_num, floor_floor, is_nan_floor. reflexivity.
  - intros n rest ufs userStats.
    rewrite !rollCheckSendBetUser_balance_iff.
    change (field (("amount", VNum n) :: rest) "amount") with (VNum n).
    change (field (("amount", VNum (floor n)) :: rest) "amount")
      with (VNum (floor n)).
    rewrite !number_of_num, floor_floor. reflexivity.
Qed.

End BetValidation.

(** ** View sanitizers *)

Lemma json_copy_fields_cons (k : string) (x : jsval) (r : list (string * jsval)) :
  json_copy_fields ((k, x) :: r) =
  match x with
  | VUndef => json_copy_fields r
  | _ => (k, json_copy x) :: json_copy_fields r
  end.
Proof. destruct x; reflexivity. Qed.

Lemma json_copy_obj (fs : list (string * jsval)) :
  json_copy (VObj fs) = VObj (json_copy_fields fs).
Proof. reflexivity. Qed.

Lemma strict_eq_str_json_copy (x : jsval) (s : string) :
  strict_eq_str (json_copy x) s = strict_eq_str x s.
Proof. destruct x as [| | | [ | |] | | |]; reflexivity. Qed.

Lemma lookup_not_in (k : string) (fs : list (string * jsval)) :
  ~ In k (map fst fs) -> lookup k fs = None.
Proof.
  induction fs as [|[k' v] r IH]; intros H; [reflexivity|].
  cbn [lookup]. destruct (String.eqb_spec k' k) as [->|NE].
  - exfalso. apply H. left. reflexivity.
  - apply IH. intros Hin. apply H. right. assumption.
Qed.

(** Reading a key of the copy: the copied value, unless the property held
    [undefined]. *)
Lemma lookup_json_copy_fields (k : string) (fs : list (string * jsval)) :
  NoDup (map fst fs) ->
  lookup k (json_copy_fields fs) =
  match lookup k fs with
  | Some VUndef | None => None
  | Some x => Some (json_copy x)
  end.
Proof.
  induction fs as [|[k' v] r IH]; intros Hnd; [reflexivity|].
  cbn [map fst] in Hnd. inversion Hnd as [|? ? Hnotin Hnd']; subst.
  rewrite json_copy_fields_cons. cbn [lookup].
  destruct (String.eqb_spec k' k) as [->|NE].
  - destruct v; cbn [lookup]; rewrite ?String.eqb_refl; try reflexivity.
    rewrite (IH Hnd'), (lookup_not_in k r Hnotin). reflexivity.
  - destruct v; cbn [lookup];
      try (destruct (String.eqb_spec k' k); [contradiction|]); apply IH; assumption.
Qed.

Lemma lookup_remove_key_same (k : string) (fs : list (string * jsval)) :
  lookup k (remove_key k fs) = None.
Proof.
  induction fs as [|[k' v] r IH]; [reflexivity|].
  cbn [remove_key]. destruct (String.eqb_spec k' k) as [->|NE]; [assumption|].
  cbn [lookup]. destruct (String.eqb_spec k' k); [contradiction | assumption].
Qed.

Lemma lookup_remove_key_other (k k' : string) (fs : list (string * jsval)) :
  k <> k' -> lookup k (remove_key k' fs) = lookup k fs.
Proof.
  intros NE. induction fs as [|[k0 v] r IH]; [reflexivity|].
  cbn [remove_key lookup]. destruct (String.eqb_spec k0 k') as [->|NE'].
  - destruct (String.eqb_spec k' k); [congruence | assumption].
  - cbn [lookup]. rewrite IH. reflexivity.
Qed.

(** C8.  For a round object, [rollSanitizeGame] returns a JSON copy.  When
    the state is neither 'rolling' nor 'completed' the result is the copy
    without its [outcome] and [fair] fields: it has neither of them, and
    every other field of it is the copied field of the round.  When the
    state is 'rolling' or 'completed' the result is the whole copy: every
    field of it is the copied field of the round, so [outcome] and [fair]
    are in it whenever the round has them. *)
Theorem rollSanitizeGame_fields (fs : list (string * jsval)) :
  NoDup (map fst fs) ->
  exists out : list (string * jsval),
    rollSanitizeGame (VObj fs) = Ok (VObj out)
    /\ (field fs "state" <> VStr "rolling" ->
        field fs "state" <> VStr "completed" ->
        out = remove_key "fair" (remove_key "outcome" (json_copy_fields fs))
        /\ lookup "outcome" out = None /\ lookup "fair" out = None
        /\ (forall k : string,
              k <> "outcome" -> k <> "fair" ->
              lookup k out = match lookup k fs with
                             | Some VUndef | None => None
                             | Some x => Some (json_copy x)
                             end))
    /\ (field fs "state" = VStr "rolling" \/ field fs "state" = VStr "completed" ->
        out = json_copy_fields fs
        /\ (forall k : string,
              lookup k out = match lookup k fs with
                             | Some VUndef | None => None
                             | Some x => Some (json_copy x)
                             end)
        /\ (field fs "outcome" <> VUndef ->
            lookup "outcome" out = Some (json_copy (field fs "outcome")))
        /\ (field fs "fair" <> VUndef ->
            lookup "fair" out = Some (json_copy (field fs "fair")))).
Proof.
  intros Hnd. unfold rollSanitizeGame.
  cbn [JSON_roundtrip bind]. rewrite json_copy_obj. cbn [get bind].
  pose proof (lookup_json_copy_fields "state" fs Hnd) as Hstate.
  assert (Hs : forall s : string,
             strict_eq_str
               match lookup "state" (json_copy_fields fs) with
               | Some x => x
               | None => VUndef
               end s = strict_eq_str (field fs "state") s).
  { intros s. rewrite Hstate. unfold field.
    destruct (lookup "state" fs) as [x|]; [|reflexivity].
    destruct x; try reflexivity. apply strict_eq_str_json_copy. }
  rewrite !Hs.
  assert (Hkeep : forall k : string,
             field fs k <> VUndef ->
             lookup k (json_copy_fields fs) = Some (json_copy (field fs k))).
  { intros k Hk. rewrite (lookup_json_copy_fields k fs Hnd). unfold field in *.
    destruct (lookup k fs) as [x|]; [|contradiction].
    destruct x; try reflexivity. contradiction. }
  destruct (strict_eq_str (field fs "state") "rolling") eqn:Er;
    destruct (strict_eq_str (field fs "state") "completed") eqn:Ec;
    cbn [negb andb delete];
    eexists; (split; [reflexivity|]); split;
    try (intros Hr Hc; exfalso;
         unfold strict_eq_str in Er, Ec;
         destruct (field fs "state") as [| | | |t| |]; try discriminate;
         match goal with
         | E : String.eqb t _ = true |- _ =>
             apply String.eqb_eq in E; subst t; congruence
         end);
    try (intros _; split; [reflexivity|]; split;
         [intros k; apply lookup_json_copy_fields; assumption
         | split; apply Hkeep]).
  - intros _ _. split; [reflexivity|]. split; [|split].
    + rewrite lookup_remove_key_other by discriminate.
      apply lookup_remove_key_same.
    + apply lookup_remove_key_same.
    + intros k Hko Hkf.
      rewrite lookup_remove_key_other by assumption.
      rewrite lookup_remove_key_other by assumption.
      apply lookup_json_copy_fields. assumption.
  - intros [E|E]; rewrite E in Er, Ec; discriminate.
Qed.

Lemma lookup_set_key_same (k : string) (v : jsval) (fs : list (string * jsval)) :
  lookup k (set_key k v fs) = Some v.
Proof.
  induction fs as [|[k' v'] r IH]; cbn [set_key lookup].
  - rewrite String.eqb_refl. reflexivity.
  - destruct (String.eqb_spec k' k) as [->|NE]; cbn [lookup].
    + rewrite String.eqb_refl. reflexivity.
    + destruct (String.eqb_spec k' k); [contradiction | assumption].
Qed.

Lemma lookup_set_key_other (k k' : string) (v : jsval) (fs : list (string * jsval)) :
  k <> k' -> lookup k (set_key k' v fs) = lookup k fs.
Proof.
  intros NE. induction fs as [|[k0 v0] r IH]; cbn [set_key lookup].
  - destruct (String.eqb_spec k' k); [congruence | reflexivity].
  - destruct (String.eqb_spec k0 k') as [->|NE']; cbn [lookup].
    + destruct (String.eqb_spec k' k); [congruence | reflexivity].
    + rewrite IH. reflexivity.
Qed.

(** [public_user] succeeds exactly on a user that is an object or a
    primitive other than [undefined] and [null], with such a rakeback. *)
Lemma public_user_ok (u : jsval) :
  is_nullish u = false -> is_nullish (prop u "rakeback") = false ->
  public_user u = Ok (VObj (public_projection u)).
Proof.
  intros Hu Hr. unfold public_user.
  rewrite !(get_prop u) by assumption. cbn [bind].
  rewrite (get_prop (prop u "rakeback")) by assumption. reflexivity.
Qed.

Lemma public_user_throws (u : jsval) :
  is_nullish u = true \/ is_nullish (prop u "rakeback") = true ->
  public_user u = Throw TypeError.
Proof.
  intros [Hu|Hr]; unfold public_user.
  - rewrite (get_nullish u) by assumption. reflexivity.
  - destruct (is_nullish u) eqn:Hu.
    + rewrite (get_nullish u) by assumption. reflexivity.
    + rewrite !(get_prop u) by assumption. cbn [bind].
      rewrite (get_nullish (prop u "rakeback")) by assumption. reflexivity.
Qed.

Lemma rollSanitizeBets_cons (b : jsval) (rest : list jsval) :
  rollSanitizeBets (b :: rest) =
  if bet_readable b then
    match rollSanitizeBets rest with
    | Ok sanitized =>
        Ok (VObj (set_key "user" (VObj (public_projection (prop b "user"))) (spread b))
              :: sanitized)
    | Throw e => Throw e
    end
  else Throw TypeError.
Proof.
  cbn [rollSanitizeBets]. unfold bet_readable.
  destruct (is_nullish b) eqn:Hb.
  - rewrite (get_nullish b) by assumption. reflexivity.
  - rewrite (get_prop b) by assumption. cbn [bind negb andb].
    destruct (is_nullish (prop b "user")) eqn:Hu.
    + rewrite public_user_throws by (left; assumption). reflexivity.
    + destruct (is_nullish (prop (prop b "user") "rakeback")) eqn:Hr.
      * rewrite public_user_throws by (right; assumption). reflexivity.
      * rewrite public_user_ok by assumption. reflexivity.
Qed.

(** Whatever [rollSanitizeBets] throws is a TypeError. *)
Lemma rollSanitizeBets_error (bets : list jsval) (e : error) :
  rollSanitizeBets bets = Throw e -> e = TypeError.
Proof.
  induction bets as [|b rest IH]; intros H; [discriminate H|].
  rewrite rollSanitizeBets_cons in H.
  destruct (bet_readable b); [|congruence].
  destruct (rollSanitizeBets rest) as [sanitized|e']; [discriminate H|].
  apply IH. congruence.
Qed.

Lemma rollSanitizeBets_is_ok (bets : list jsval) :
  is_ok (rollSanitizeBets bets) = forallb bet_readable bets.
Proof.
  induction bets as [|b rest IH]; [reflexivity|].
  rewrite rollSanitizeBets_cons. cbn [forallb].
  destruct (bet_readable b); [|reflexivity].
  cbn [andb]. rewrite <- IH. destruct (rollSanitizeBets rest); reflexivity.
Qed.

(** C9 (amended).  [rollSanitizeBets] returns a result exactly when every
    bet has a user with a rakeback, and throws a TypeError exactly when
    some bet has not.  Each element of the result is an object whose [user]
    has exactly the nine public keys, read from the bet's user, and hence
    no [balance] key; every other field of the element is the one of the
    bet's own copy. *)
Theorem rollSanitizeBets_public_user (bets : list jsval) :
  is_ok (rollSanitizeBets bets) = forallb bet_readable bets
  /\ (forall out : list jsval,
        rollSanitizeBets bets = Ok out -> Forall2 sanitized_bet bets out)
  /\ (forall u : jsval,
        map fst (public_projection u) = public_user_keys
        /\ lookup "balance" (public_projection u) = None)
  /\ (rollSanitizeBets bets = Throw TypeError
      <-> forallb bet_readable bets = false).
Proof.
  split; [|split; [|split]].
  - apply rollSanitizeBets_is_ok.
  - induction bets as [|b rest IH]; intros out H.
    + inversion H. constructor.
    + rewrite rollSanitizeBets_cons in H.
      destruct (bet_readable b); [|discriminate].
      destruct (rollSanitizeBets rest) as [sanitized|e]; [|discriminate].
      inversion H; subst out. constructor; [|apply IH; reflexivity].
      eexists. split; [reflexivity|]. split.
      * apply lookup_set_key_same.
      * intros k Hk. apply lookup_set_key_other. assumption.
  - intros u. split; reflexivity.
  - rewrite <- rollSanitizeBets_is_ok.
    destruct (rollSanitizeBets bets) as [out|e] eqn:E; cbn [is_ok].
    + split; discriminate.
    + rewrite (rollSanitizeBets_error bets e E). split; reflexivity.
Qed.

(** ** Round creation *)

Lemma map_hash_set_seed_state (id : nat) (st : string) (l : list RollSeedDoc) :
  map hash (map (set_seed_state id st) l) = map hash l.
Proof.
  rewrite map_map. apply map_ext. intros d. unfold set_seed_state.
  destruct (seed_id d =? id)%nat; reflexivity.
Qed.

Lemma set_seed_state_same (st : string) (d : RollSeedDoc) :
  seed_state (set_seed_state (seed_id d) st d) = st
  /\ seed_id (set_seed_state (seed_id d) st d) = seed_id d.
Proof. unfold set_seed_state. rewrite Nat.eqb_refl. split; reflexivity. Qed.

Lemma latest_created_In (l : list RollSeedDoc) :
  forall (best : option RollSeedDoc) (d : RollSeedDoc),
    latest_created l best = Some d -> In d l \/ best = Some d.
Proof.
  induction l as [|x r IH]; intros best d H; cbn [latest_created] in H.
  - right. assumption.
  - destruct (String.eqb (seed_state x) "created").
    + destruct best as [b|].
      * destruct (seed_id b <? seed_id x)%nat;
          destruct (IH _ _ H) as [Hin|Heq];
          try (left; right; assumption);
          try (right; assumption).
        inversion Heq; subst. left. left. reflexivity.
      * destruct (IH _ _ H) as [Hin|Heq]; [left; right; assumption|].
        inversion Heq; subst. left. left. reflexivity.
    + destruct (IH _ _ H) as [Hin|Heq]; [left; right; assumption | right; assumption].
Qed.

Section RoundCreation.

Variable sha256 : list Byte.byte -> list Byte.byte.

Local Abbreviation run := (rollGenerateGame sha256).

(** The run, written out by cases on the seed lookup. *)
Lemma rollGenerateGame_unfold (f : Faults) (r1 r2 : list Byte.byte) (db : DB) :
  run f r1 r2 db =
  if fail_findOne f then (Throw DbError, db)
  else
    match latest_created (seeds db) None with
    | Some d =>
        (promise <~ promise_all2
                      (RollGame_create f (seed_id d) "created")
                      (RollSeed_findByIdAndUpdate f (seed_id d) "completed") ;;
         populate_seed f (fst promise)) db
    | None =>
        if fail_seed_create f then (Throw DbError, db)
        else
          (promise <~ promise_all2
                        (RollGame_create f (next_id db) "created")
                        (RollSeed_findByIdAndUpdate f (next_id db) "completed") ;;
           populate_seed f (fst promise))
            {| seeds := seeds db ++
                        [{| seed_id := next_id db;
                            seedServer := hex_of_bytes r1;
                            hash := hex_of_bytes (sha256 r2);
                            seed_state := "created" |}];
               games := games db;
               next_id := S (next_id db) |}
    end.
Proof.
  unfold rollGenerateGame, mbind, RollSeed_findOne_created, RollSeed_create, ret.
  destruct (fail_findOne f); [reflexivity|].
  destruct (latest_created (seeds db) None) as [d|]; [reflexivity|].
  destruct (fail_seed_create f); reflexivity.
Qed.

(** C5.  The [hash] column of the seed collection after a run does not
    depend on the bytes drawn for the secret: two runs that differ only in
    the secret store the same commitments.  When the run creates a seed,
    the stored secret is the hex text of the first draw and the stored
    commitment the hex digest of the second draw. *)
Theorem commitment_independent_of_secret
  (f : Faults) (r1 r1' r2 : list Byte.byte) (db : DB) :
  map hash (seeds (snd (run f r1 r2 db)))
  = map hash (seeds (snd (run f r1' r2 db)))
  /\ (fail_findOne f = false -> needs_seed db = true -> fail_seed_create f = false ->
      exists d : RollSeedDoc,
        In d (seeds (snd (run f r1 r2 db)))
        /\ seed_id d = next_id db
        /\ seedServer d = hex_of_bytes r1
        /\ hash d = hex_of_bytes (sha256 r2)).
Proof.
  split.
  - rewrite !rollGenerateGame_unfold.
    destruct (fail_findOne f); [reflexivity|].
    destruct (latest_created (seeds db) None) as [d|]; [reflexivity|].
    destruct (fail_seed_create f); [reflexivity|].
    unfold mbind, promise_all2, RollGame_create, RollSeed_findByIdAndUpdate,
      populate_seed.
    destruct (fail_game_create f), (fail_seed_update f), (fail_populate f);
      cbn [fst snd seeds games next_id];
      rewrite ?map_hash_set_seed_state, ?map_app; reflexivity.
  - intros Hfind Hneeds Hcreate. rewrite rollGenerateGame_unfold, Hfind, Hcreate.
    unfold needs_seed in Hneeds.
    destruct (latest_created (seeds db) None); [discriminate|].
    unfold mbind, promise_all2, RollGame_create, RollSeed_findByIdAndUpdate,
      populate_seed.
    destruct (fail_game_create f), (fail_seed_update f), (fail_populate f);
      cbn [fst snd seeds games next_id];
      try (eexists; split; [apply in_or_app; right; left; reflexivity|];
           repeat split; reflexivity);
      (eexists; split;
       [apply in_map; apply in_or_app; right; left; reflexivity|];
       unfold set_seed_state; cbn [seed_id]; rewrite Nat.eqb_refl;
       repeat split; reflexivity).
Qed.

(** C3 (amended).  [rollGenerateGame] is rejected exactly when one of the
    operations it performs is rejected.  When none is, the round is added
    in state 'created', refers to the seed in use, and that seed is marked
    'completed'.  The round creation and the seed update are issued
    together and independently: when only the round creation is rejected,
    the run is rejected, no round is added, and the seed is marked
    'completed' all the same. *)
Theorem rollGenerateGame_no_rollback
  (f : Faults) (r1 r2 : list Byte.byte) (db : DB) :
  is_ok (fst (run f r1 r2 db)) =
    negb (fail_findOne f) && negb (needs_seed db && fail_seed_create f)
    && negb (fail_game_create f) && negb (fail_seed_update f)
    && negb (fail_populate f)
  /\ (forall view : RollGameView,
        fst (run f r1 r2 db) = Ok view ->
        view_state view = "created"
        /\ exists (g : RollGameDoc) (d : RollSeedDoc),
             games (snd (run f r1 r2 db)) = (games db ++ [g])%list
             /\ game_id g = view_id view
             /\ game_state g = "created"
             /\ fair_seed g = seed_in_use db
             /\ In d (seeds (snd (run f r1 r2 db)))
             /\ seed_id d = seed_in_use db
             /\ seed_state d = "completed")
  /\ (fail_findOne f = false -> needs_seed db && fail_seed_create f = false ->
      fail_game_create f = true -> fail_seed_update f = false ->
      fst (run f r1 r2 db) = Throw DbError
      /\ games (snd (run f r1 r2 db)) = games db
      /\ exists d : RollSeedDoc,
           In d (seeds (snd (run f r1 r2 db)))
           /\ seed_id d = seed_in_use db
           /\ seed_state d = "completed").
Proof.
  rewrite rollGenerateGame_unfold. unfold needs_seed, seed_in_use.
  destruct (fail_findOne f) eqn:Ffind.
  { split; [reflexivity|]. split; [discriminate|]. discriminate. }
  destruct (latest_created (seeds db) None) as [d0|] eqn:Hfound.
  - destruct (latest_created_In _ _ _ Hfound) as [Hin|Hbad]; [|discriminate].
    pose proof (set_seed_state_same "completed" d0) as [Hst Hid].
    unfold mbind, promise_all2, RollGame_create, RollSeed_findByIdAndUpdate,
      populate_seed.
    destruct (fail_game_create f), (fail_seed_update f), (fail_populate f);
      cbn [fst snd seeds games next_id negb andb is_ok];
      (split; [reflexivity|]); split;
      try discriminate;
      try (intros _ _ H; discriminate H);
      try (intros _ _ _ H; discriminate H).
    + intros _ _ _ _. split; [reflexivity|]. split; [reflexivity|].
      exists (set_seed_state (seed_id d0) "completed" d0).
      split; [apply in_map; assumption|]. split; assumption.
    + intros _ _ _ _. split; [reflexivity|]. split; [reflexivity|].
      exists (set_seed_state (seed_id d0) "completed" d0).
      split; [apply in_map; assumption|]. split; assumption.
    + intros view H. inversion H; subst view. cbn [view_state view_id].
      split; [reflexivity|].
      eexists. exists (set_seed_state (seed_id d0) "completed" d0).
      split; [reflexivity|]. cbn [game_id game_state fair_seed].
      repeat split; try reflexivity; try assumption.
      apply in_map. assumption.
  - destruct (fail_seed_create f) eqn:Fcreate.
    { split; [reflexivity|]. split; [discriminate|]. discriminate. }
    unfold mbind, promise_all2, RollGame_create, RollSeed_findByIdAndUpdate,
      populate_seed.
    destruct (fail_game_create f), (fail_seed_update f), (fail_populate f);
      cbn [fst snd seeds games next_id negb andb is_ok];
      (split; [reflexivity|]); split;
      try discriminate;
      try (intros _ _ H; discriminate H);
      try (intros _ _ _ H; discriminate H).
    + intros _ _ _ _. split; [reflexivity|]. split; [reflexivity|].
      eexists. split; [apply in_map; apply in_or_app; right; left; reflexivity|].
      unfold set_seed_state. cbn [seed_id]. rewrite Nat.eqb_refl.
      split; reflexivity.
    + intros _ _ _ _. split; [reflexivity|]. split; [reflexivity|].
      eexists. split; [apply in_map; apply in_or_app; right; left; reflexivity|].
      unfold set_seed_state. cbn [seed_id]. rewrite Nat.eqb_refl.
      split; reflexivity.
    + intros view H. inversion H; subst view. cbn [view_state view_id].
      split; [reflexivity|].
      eexists. eexists.
      split; [reflexivity|]. cbn [game_id game_state fair_seed].
      split; [reflexivity|]. split; [reflexivity|]. split; [reflexivity|].
      split; [apply in_map; apply in_or_app; right; left; reflexivity|].
      unfold set_seed_state. cbn [seed_id]. rewrite Nat.eqb_refl.
      split; reflexivity.
Qed.

End RoundCreation.

(** ** The hash as a number *)

Lemma hex_value_from_shift (s : string) :
  forall acc : Z,
    hex_value_from acc s = acc * 16 ^ Z.of_nat (String.length s) + hex_value s.
Proof.
  unfold hex_value.
  induction s as [|c r IH]; intros acc.
  - cbn. lia.
  - cbn [hex_value_from String.length].
    rewrite (IH (acc * 16 + _)), (IH (0 * 16 + _)).
    rewrite Nat2Z.inj_succ, Z.pow_succ_r by lia. ring.
Qed.

Lemma hex_value_app (a b : string) :
  hex_value (a ++ b) = hex_value a * 16 ^ Z.of_nat (String.length b) + hex_value b.
Proof.
  unfold hex_value at 1 2. generalize 0.
  induction a as [|c r IH]; intros acc.
  - cbn [append hex_value_from]. apply hex_value_from_shift.
  - cbn [append hex_value_from]. apply IH.
Qed.

Lemma str_take_drop (n : nat) :
  forall s : string, str_take n s ++ str_drop n s = s.
Proof.
  induction n as [|n IH]; intros [|c r]; cbn; try reflexivity.
  now rewrite IH.
Qed.

(** Folding groups of four digits is Horner's rule in base [2^16], taken
    modulo [M] at every step. *)
Lemma modular_fold_groups4 (M : Z) :
  0 < M ->
  forall (n : nat) (s : string) (v : Z),
    String.length s = (4 * n)%nat ->
    fold_left (fun acc chunk => (Z.shiftl acc 16 + chunk) mod M)
              (map hex_value (groups4 s)) (v mod M)
    = (v * 16 ^ Z.of_nat (String.length s) + hex_value s) mod M.
Proof.
  intros HM. induction n as [|n IH]; intros s v Hlen.
  - destruct s; [|discriminate]. cbn. f_equal. lia.
  - destruct s as [|a [|b [|c [|d r]]]]; cbn [String.length] in Hlen;
      try (exfalso; lia).
    assert (Hr : String.length r = (4 * n)%nat) by lia.
    cbn [groups4 map fold_left].
    rewrite Z.shiftl_mul_pow2 by lia.
    set (x := hex_value (String a (String b (String c (String d EmptyString))))).
    replace ((v mod M * 2 ^ 16 + x) mod M) with ((v * 2 ^ 16 + x) mod M)
      by (rewrite (Z.add_mod (v mod M * 2 ^ 16)), (Z.mul_mod (v mod M)), Z.mod_mod,
            <- Z.mul_mod, <- Z.add_mod by lia; reflexivity).
    rewrite (IH r _ Hr).
    f_equal.
    change (String a (String b (String c (String d r))))
      with (String a (String b (String c (String d EmptyString))) ++ r).
    rewrite hex_value_app. fold x.
    replace (String.length (String a (String b (String c (String d EmptyString))) ++ r))
      with (4 + String.length r)%nat by reflexivity.
    rewrite Nat2Z.inj_add, Z.pow_add_r by lia.
    change (16 ^ Z.of_nat 4) with (2 ^ 16). ring.
Qed.

(** The modular fold over the chunks of a hash is the residue of the
    number the hash denotes. *)
Lemma modular_fold_hex_value (M : Z) (s : string) :
  0 < M ->
  modular_fold M (map hex_value (hash_chunks s)) = hex_value s mod M.
Proof.
  intros HM. unfold modular_fold, hash_chunks.
  destruct (String.length s mod 4 =? 0)%nat eqn:E.
  - apply Nat.eqb_eq in E.
    change 0 with (0 mod M) at 1.
    rewrite (modular_fold_groups4 M HM (String.length s / 4) s 0).
    + now rewrite Z.mul_0_l, Z.add_0_l.
    + pose proof (Nat.div_mod_eq (String.length s) 4). lia.
  - apply Nat.eqb_neq in E.
    set (o := (String.length s mod 4)%nat) in *.
    cbn [map fold_left]. rewrite Z.shiftl_0_l, Z.add_0_l.
    assert (Ho : (o < 4)%nat) by (apply Nat.mod_upper_bound; lia).
    assert (Hos : (o <= String.length s)%nat) by (apply Nat.Div0.mod_le).
    rewrite (modular_fold_groups4 M HM ((String.length s - o) / 4) (str_drop o s)).
    + now rewrite <- hex_value_app, str_take_drop.
    + rewrite str_drop_length.
      pose proof (Nat.div_mod_eq (String.length s) 4) as Hdm. fold o in Hdm.
      replace (String.length s - o)%nat with (4 * (String.length s / 4))%nat by lia.
      rewrite Nat.mul_comm, Nat.div_mul by lia. lia.
Qed.

(** X1.  On a hexadecimal hash and a modulus between 1 and [2^15],
    [rollIsHashDivisible] is true exactly when the number the whole hash
    denotes is divisible by the modulus. *)
Theorem rollIsHashDivisible_divides (combined : string) (M : Z) :
  is_hex combined = true -> 0 < M <= 2 ^ 15 ->
  rollIsHashDivisible combined (ofZ M) = (hex_value combined mod M =? 0).
Proof.
  intros Hhex HM.
  rewrite rollIsHashDivisible_hex by assumption.
  rewrite modular_fold_hex_value by lia. reflexivity.
Qed.

(** X2.  On every hexadecimal hash, the empty one included,
    [rollGetOutcome] returns an integer that is at least 100; it is 100
    whenever the number the hash denotes is divisible by 20. *)
Theorem rollGetOutcome_at_least_100 (combined : string) :
  is_hex combined = true ->
  exists v : Z,
    rollGetOutcome combined = ofZ v
    /\ 100 <= v
    /\ (hex_value combined mod 20 = 0 -> v = 100).
Proof.
  intros Hhex. unfold rollGetOutcome.
  rewrite rollGetOutcome_mod_20.
  rewrite rollIsHashDivisible_hex;
    [| assumption | split; [reflexivity | discriminate]].
  rewrite modular_fold_hex_value by reflexivity.
  destruct (Z.eqb_spec (hex_value combined mod 20) 0) as [E|NE].
  - exists 100. split; [reflexivity|]. split; [discriminate | reflexivity].
  - assert (Hne : combined <> EmptyString) by (intros ->; apply NE; reflexivity).
    destruct (rollGetOutcome_curve_hex combined Hne Hhex) as (_ & v & Hv & Hge & _).
    exists v. split; [assumption|]. split; [assumption | contradiction].
Qed.

(** A modulus above [2^15] lets the shifted accumulator leave the 32-bit
    range: the result then no longer tells divisibility. *)
Example rollIsHashDivisible_large_modulus :
  hex_value "ffffffff" mod 65537 = 0
  /\ rollIsHashDivisible "ffffffff" (ofZ 65537) = false.
Proof. vm_compute. split; reflexivity. Qed.

(** ** Monotonicity of the curve *)

(** Rounding to the nearest integer is monotone in the quotient. *)
Lemma rne_mono (n1 d1 n2 d2 : Z) :
  0 < d1 -> 0 < d2 -> n1 * d2 <= n2 * d1 -> rne n1 d1 <= rne n2 d2.
Proof.
  intros H1 H2 Hle.
  pose proof (Z.div_mod n1 d1 ltac:(lia)) as E1.
  pose proof (Z.div_mod n2 d2 ltac:(lia)) as E2.
  pose proof (Z.mod_pos_bound n1 d1 H1) as B1.
  pose proof (Z.mod_pos_bound n2 d2 H2) as B2.
  assert (Hq : n1 / d1 <= n2 / d2).
  { apply Z.div_le_lower_bound; [assumption|]. nia. }
  destruct (Z.eq_dec (n1 / d1) (n2 / d2)) as [Eq|NE].
  - unfold rne. rewrite <- Eq.
    set (q := n1 / d1) in *. set (r1 := n1 mod d1) in *. set (r2 := n2 mod d2) in *.
    assert (Hr : r1 * d2 <= r2 * d1) by nia.
    destruct (Z.ltb_spec (2 * r1) d1) as [A1|A1];
      destruct (Z.ltb_spec (2 * r2) d2) as [A2|A2];
      try destruct (Z.ltb_spec d1 (2 * r1)) as [C1|C1];
      try destruct (Z.ltb_spec d2 (2 * r2)) as [C2|C2];
      try destruct (Z.even q); try lia; exfalso; nia.
  - pose proof (rne_floor n1 d1 H1). pose proof (rne_floor n2 d2 H2). lia.
Qed.

(** The integer part of the binary64 value nearest to a quotient in
    [100, 2^59). *)
Lemma floor_round53 (n d : Z) :
  0 < d -> 100 * d <= n -> n < 2 ^ 59 * d ->
  6 <= ilog2 n d <= 58
  /\ floor (round53 n d)
     = ofZ (if 0 <=? ilog2 n d - 52
            then rne n (d * 2 ^ (ilog2 n d - 52)) * 2 ^ (ilog2 n d - 52)
            else rne (n * 2 ^ (52 - ilog2 n d)) d / 2 ^ (52 - ilog2 n d)).
Proof.
  intros Hd Hlo Hhi.
  destruct (ilog2_spec n d ltac:(lia)) as [He0 [Ha Hb]].
  set (e := ilog2 n d) in *.
  assert (He6 : 6 <= e).
  { destruct (Z.lt_ge_cases e 6) as [Hlt|]; [|assumption].
    assert (2 ^ (e + 1) <= 2 ^ 6) by (apply Z.pow_le_mono_r; lia).
    change (2 ^ 6) with 64 in *. nia. }
  assert (He58 : e <= 58).
  { destruct (Z.lt_ge_cases 58 e) as [Hlt|]; [|lia].
    assert (2 ^ 59 <= 2 ^ e) by (apply Z.pow_le_mono_r; lia). nia. }
  split; [lia|].
  unfold round53. fold e. unfold prec, emin, emax.
  rewrite Z.max_l by lia.
  replace (e - (53 - 1)) with (e - 52) by lia.
  destruct (Z.leb_spec 0 (e - 52)) as [Hk|Hk].
  - set (k := e - 52) in *.
    assert (Hpk : 0 < 2 ^ k) by (apply Z.pow_pos_nonneg; lia).
    assert (Hek1 : 2 ^ (e + 1) = 2 ^ 53 * 2 ^ k)
      by (rewrite <- Z.pow_add_r by lia; f_equal; lia).
    assert (Hk6 : 2 ^ k <= 2 ^ 6) by (apply Z.pow_le_mono_r; lia).
    pose proof (rne_floor n (d * 2 ^ k) ltac:(nia)) as [Hf1 Hf2].
    assert (Hq2 : n / (d * 2 ^ k) < 2 ^ 53)
      by (apply Z.div_lt_upper_bound; nia).
    set (m := rne n (d * 2 ^ k)) in *.
    assert (Hm : m * 2 ^ k <= 2 ^ 53 * 2 ^ 6) by nia.
    destruct (Z.leb_spec (2 ^ 1024) (m * 2 ^ k)) as [Hov|_].
    + exfalso. assert (2 ^ 53 * 2 ^ 6 < 2 ^ 1024) by (vm_compute; reflexivity). lia.
    + cbn [floor]. f_equal.
      rewrite (Qfloor_comp _ _ (Qred_correct _)).
      unfold Qfloor. apply Z.div_1_r.
  - replace (- (e - 52)) with (52 - e) by lia.
    set (j := 52 - e) in *.
    assert (Hpj : 0 < 2 ^ j) by (apply Z.pow_pos_nonneg; lia).
    cbn [floor]. f_equal.
    rewrite (Qfloor_comp _ _ (Qred_correct _)).
    unfold Qfloor. rewrite Z2Pos.id by assumption. reflexivity.
Qed.

(** Rounding to binary64 and taking the integer part is monotone on
    quotients in [100, 2^59). *)
Lemma floor_round53_mono (n1 d1 n2 d2 : Z) :
  0 < d1 -> 0 < d2 -> 100 * d1 <= n1 -> n2 < 2 ^ 59 * d2 ->
  n1 * d2 <= n2 * d1 ->
  exists v1 v2 : Z,
    floor (round53 n1 d1) = ofZ v1 /\ floor (round53 n2 d2) = ofZ v2 /\ v1 <= v2.
Proof.
  intros H1 H2 Hlo Hhi Hle.
  assert (Hlo2 : 100 * d2 <= n2) by nia.
  assert (Hhi1 : n1 < 2 ^ 59 * d1).
  { assert (0 < 2 ^ 59) by (vm_compute; reflexivity). nia. }
  destruct (floor_round53 n1 d1 H1 Hlo Hhi1) as [Be1 F1].
  destruct (floor_round53 n2 d2 H2 Hlo2 Hhi) as [Be2 F2].
  destruct (ilog2_spec n1 d1 ltac:(lia)) as [_ [A1 B1]].
  destruct (ilog2_spec n2 d2 ltac:(lia)) as [_ [A2 B2]].
  set (e1 := ilog2 n1 d1) in *. set (e2 := ilog2 n2 d2) in *.
  eexists. eexists. split; [exact F1|]. split; [exact F2|].
  assert (He : e1 <= e2).
  { destruct (Z.lt_ge_cases e2 e1) as [Hlt|]; [|lia].
    exfalso.
    assert (HQP : 2 ^ (e2 + 1) <= 2 ^ e1) by (apply Z.pow_le_mono_r; lia).
    set (P := 2 ^ e1) in *. set (Q := 2 ^ (e2 + 1)) in *.
    assert (d1 * Q * d2 <= d1 * P * d2)
      by (apply Z.mul_le_mono_nonneg_r; [lia|];
          apply Z.mul_le_mono_nonneg_l; lia).
    assert (n2 * d1 < d2 * Q * d1) by (apply Z.mul_lt_mono_pos_r; lia).
    assert (d1 * P * d2 <= n1 * d2) by (apply Z.mul_le_mono_nonneg_r; lia).
    lia. }
  destruct (Z.eq_dec e1 e2) as [Eq|NE].
  - rewrite <- Eq.
    destruct (Z.leb_spec 0 (e1 - 52)) as [Hk|Hk].
    + assert (Hp : 0 < 2 ^ (e1 - 52)) by (apply Z.pow_pos_nonneg; lia).
      apply Z.mul_le_mono_nonneg_r; [lia|].
      apply rne_mono; nia.
    + assert (Hp : 0 < 2 ^ (52 - e1)) by (apply Z.pow_pos_nonneg; lia).
      apply Z.div_le_mono; [assumption|].
      apply rne_mono; nia.
  - assert (Hlt : e1 + 1 <= e2) by lia.
    assert (Hpow : 2 ^ (e1 + 1) <= 2 ^ e2) by (apply Z.pow_le_mono_r; lia).
    (* the first value is at most 2^(e1+1), the second at least 2^e2 *)
    assert (Hv1 : (if 0 <=? e1 - 52
                   then rne n1 (d1 * 2 ^ (e1 - 52)) * 2 ^ (e1 - 52)
                   else rne (n1 * 2 ^ (52 - e1)) d1 / 2 ^ (52 - e1))
                  <= 2 ^ (e1 + 1)).
    { destruct (Z.leb_spec 0 (e1 - 52)) as [Hk|Hk].
      - assert (Hp : 0 < 2 ^ (e1 - 52)) by (apply Z.pow_pos_nonneg; lia).
        assert (Hs : 2 ^ (e1 + 1) = 2 ^ 53 * 2 ^ (e1 - 52))
          by (rewrite <- Z.pow_add_r by lia; f_equal; lia).
        pose proof (rne_floor n1 (d1 * 2 ^ (e1 - 52)) ltac:(nia)) as [_ Hf].
        assert (n1 / (d1 * 2 ^ (e1 - 52)) < 2 ^ 53)
          by (apply Z.div_lt_upper_bound; nia).
        rewrite Hs. apply Z.mul_le_mono_nonneg_r; lia.
      - assert (Hp : 0 < 2 ^ (52 - e1)) by (apply Z.pow_pos_nonneg; lia).
        assert (Hs : 2 ^ 53 = 2 ^ (e1 + 1) * 2 ^ (52 - e1))
          by (rewrite <- Z.pow_add_r by lia; f_equal; lia).
        pose proof (rne_floor (n1 * 2 ^ (52 - e1)) d1 H1) as [_ Hf].
        assert (n1 * 2 ^ (52 - e1) / d1 < 2 ^ 53)
          by (apply Z.div_lt_upper_bound; nia).
        apply Z.div_le_upper_bound; [assumption|]. nia. }
    assert (Hv2 : 2 ^ e2
                  <= (if 0 <=? e2 - 52
                      then rne n2 (d2 * 2 ^ (e2 - 52)) * 2 ^ (e2 - 52)
                      else rne (n2 * 2 ^ (52 - e2)) d2 / 2 ^ (52 - e2))).
    { destruct (Z.leb_spec 0 (e2 - 52)) as [Hk|Hk].
      - assert (Hp : 0 < 2 ^ (e2 - 52)) by (apply Z.pow_pos_nonneg; lia).
        assert (Hs : 2 ^ e2 = 2 ^ 52 * 2 ^ (e2 - 52))
          by (rewrite <- Z.pow_add_r by lia; f_equal; lia).
        pose proof (rne_floor n2 (d2 * 2 ^ (e2 - 52)) ltac:(nia)) as [Hf _].
        assert (2 ^ 52 <= n2 / (d2 * 2 ^ (e2 - 52)))
          by (apply Z.div_le_lower_bound; nia).
        rewrite Hs. apply Z.mul_le_mono_nonneg_r; lia.
      - assert (Hp : 0 < 2 ^ (52 - e2)) by (apply Z.pow_pos_nonneg; lia).
        assert (Hs : 2 ^ 52 = 2 ^ e2 * 2 ^ (52 - e2))
          by (rewrite <- Z.pow_add_r by lia; f_equal; lia).
        pose proof (rne_floor (n2 * 2 ^ (52 - e2)) d2 H2) as [Hf _].
        assert (2 ^ 52 <= n2 * 2 ^ (52 - e2) / d2)
          by (apply Z.div_le_lower_bound; nia).
        apply Z.div_le_lower_bound; [assumption|]. nia. }
    lia.
Qed.

(** The reduced form of a positive quotient of integers. *)
Lemma fl_quotient_round53 (N D : Z) :
  0 < D -> 0 < N ->
  exists n d : Z,
    0 < d /\ 0 < n /\ n * D = N * d
    /\ div (ofZ N) (ofZ D) = round53 n d.
Proof.
  intros HD HN. unfold div, ofZ.
  assert (Hz : Qis_zero (inject_Z D) = false)
    by (unfold Qis_zero; cbn [inject_Z Qnum]; apply Z.eqb_neq; lia).
  rewrite Hz. unfold fl.
  destruct D as [|pD|pD]; try lia.
  assert (Hred : (Qred (inject_Z N / inject_Z (Z.pos pD)) == N # pD)%Q)
    by (rewrite Qred_correct; symmetry; apply Qmake_Qdiv).
  destruct (Qred (inject_Z N / inject_Z (Z.pos pD))) as [n d].
  unfold Qeq in Hred. cbn [Qnum Qden] in *.
  destruct n as [|p|p]; try lia.
  exists (Z.pos p), (Z.pos d). repeat split; try lia.
Qed.

(** Division followed by [Math.floor] is monotone on quotients of
    integers in [100, 2^59). *)
Lemma floor_div_mono (N1 D1 N2 D2 : Z) :
  0 < D1 -> 0 < D2 -> 100 * D1 <= N1 -> N2 < 2 ^ 59 * D2 ->
  N1 * D2 <= N2 * D1 ->
  exists v1 v2 : Z,
    floor (div (ofZ N1) (ofZ D1)) = ofZ v1
    /\ floor (div (ofZ N2) (ofZ D2)) = ofZ v2
    /\ v1 <= v2.
Proof.
  intros H1 H2 Hlo Hhi Hle.
  assert (HN2 : 100 * D2 <= N2) by nia.
  destruct (fl_quotient_round53 N1 D1 H1 ltac:(lia)) as (n1 & d1 & Hd1 & Hn1 & E1 & R1).
  destruct (fl_quotient_round53 N2 D2 H2 ltac:(lia)) as (n2 & d2 & Hd2 & Hn2 & E2 & R2).
  rewrite R1, R2.
  assert (H59 : 0 < 2 ^ 59) by (vm_compute; reflexivity).
  apply floor_round53_mono; try assumption.
  - (* 100 * d1 <= n1 *)
    apply (Z.mul_le_mono_pos_r _ _ D1); [assumption|].
    replace (n1 * D1) with (N1 * d1) by lia. nia.
  - apply (Z.mul_lt_mono_pos_r D2); [assumption|].
    replace (n2 * D2) with (N2 * d2) by lia. nia.
  - (* n1 * d2 <= n2 * d1 *)
    apply (Z.mul_le_mono_pos_r _ _ (D1 * D2)); [nia|].
    replace (n1 * d2 * (D1 * D2)) with ((n1 * D1) * (d2 * D2)) by ring.
    replace (n2 * d1 * (D1 * D2)) with ((n2 * D2) * (d1 * D1)) by ring.
    rewrite E1, E2.
    replace (N1 * d1 * (d2 * D2)) with ((N1 * D2) * (d1 * d2)) by ring.
    replace (N2 * d2 * (d1 * D1)) with ((N2 * D1) * (d1 * d2)) by ring.
    apply Z.mul_le_mono_nonneg_r; [nia | assumption].
Qed.

(** X22.  The curve is monotone in the leading digits, rounding
    included: of two hexadecimal hashes that are not divisible by 20, the
    one whose first 13 digits denote the greater number never gets the
    smaller outcome. *)
Theorem rollGetOutcome_monotone (a b : string) :
  is_hex a = true -> is_hex b = true ->
  hex_value a mod 20 <> 0 -> hex_value b mod 20 <> 0 ->
  hex_value (str_take 13 a) <= hex_value (str_take 13 b) ->
  exists va vb : Z,
    rollGetOutcome a = ofZ va /\ rollGetOutcome b = ofZ vb /\ va <= vb.
Proof.
  intros Ha Hb Hma Hmb Hle.
  assert (Hcurve : forall s : string,
             is_hex s = true -> hex_value s mod 20 <> 0 ->
             s <> EmptyString /\ rollGetOutcome s = rollGetOutcome_curve s).
  { intros s Hs Hm. split; [intros ->; apply Hm; reflexivity|].
    unfold rollGetOutcome. rewrite rollGetOutcome_mod_20.
    rewrite rollIsHashDivisible_hex;
      [| assumption | split; [reflexivity | discriminate]].
    rewrite modular_fold_hex_value by reflexivity.
    destruct (Z.eqb_spec (hex_value s mod 20) 0); [contradiction | reflexivity]. }
  destruct (Hcurve a Ha Hma) as [Hna ->]. destruct (Hcurve b Hb Hmb) as [Hnb ->].
  destruct (rollGetOutcome_curve_hex a Hna Ha) as [-> _].
  destruct (rollGetOutcome_curve_hex b Hnb Hb) as [-> _].
  assert (Hbound : forall s : string,
             is_hex s = true -> 0 <= hex_value (str_take 13 s) < 2 ^ 52).
  { intros s Hs.
    assert (Ht : is_hex (str_take 13 s) = true) by (apply is_hex_take; assumption).
    pose proof (hex_value_bound _ Ht) as B.
    assert (16 ^ Z.of_nat (String.length (str_take 13 s)) <= 16 ^ 13)
      by (apply Z.pow_le_mono_r; [lia | rewrite str_take_length; lia]).
    change (16 ^ 13) with (2 ^ 52) in *. lia. }
  pose proof (Hbound a Ha) as Ba. pose proof (Hbound b Hb) as Bb.
  set (ha := hex_value (str_take 13 a)) in *.
  set (hb := hex_value (str_take 13 b)) in *.
  assert (He : 2 ^ 52 = 4503599627370496) by reflexivity.
  assert (H59 : 2 ^ 59 = 576460752303423488) by reflexivity.
  destruct (curve_numerator ha Ba) as (Na & Ea & Ha100 & Ha32).
  destruct (curve_numerator hb Bb) as (Nb & Eb & Hb100 & Hb32).
  destruct (Z.eq_dec ha hb) as [Eq|NE].
  - rewrite <- Eq in *. rewrite Ea in Eb. apply ofZ_inj in Eb. subst Nb.
    rewrite Ea, sub_ofZ by lia.
    destruct (div_ofZ_ge_100 Na (2 ^ 52 - ha)) as (v & Ev & _); try lia.
    exists v, v. repeat split; try assumption. lia.
  - rewrite Ea, Eb, !sub_ofZ by lia.
    apply floor_div_mono; try lia.
    set (Da := 2 ^ 52 - ha) in *. set (Db := 2 ^ 52 - hb) in *.
    assert (HD : Db + (hb - ha) = Da) by lia.
    assert (Hdelta : 1 <= hb - ha) by lia.
    nia.
Qed.

(** ** Round totals *)

Section UserGameStats.

Variable StringToNumber : string -> num.
Variable NumberToString : num -> string.

Local Abbreviation text_of := (text_of NumberToString).
Local Abbreviation is_mine := (is_mine NumberToString).
Local Abbreviation own_total := (own_total NumberToString).

Local Abbreviation number_of := (number_of StringToNumber NumberToString).
Local Abbreviation Math_floor := (Math_floor StringToNumber NumberToString).
Local Abbreviation js_add := (js_add StringToNumber NumberToString).
Local Abbreviation js_mul := (js_mul StringToNumber NumberToString).
Local Abbreviation js_div := (js_div StringToNumber NumberToString).
Local Abbreviation rollGetUserGameStats :=
  (rollGetUserGameStats StringToNumber NumberToString).
Local Abbreviation stats_loop :=
  (rollGetUserGameStats_loop StringToNumber NumberToString).

(** One turn of the loop on a bet and a user that can be read. *)
Lemma rollGetUserGameStats_loop_cons (user b : jsval) (rest : list jsval)
  (stats_bet stats_winnings : jsval) :
  user_readable user = true -> owner_readable b = true ->
  stats_loop user (b :: rest) stats_bet stats_winnings =
  if is_mine user b then
    sum <- js_add stats_bet (prop b "amount") ;;
    new_bet <- Math_floor sum ;;
    quotient <- js_div (prop b "multiplier") (VNum (ofZ 100)) ;;
    product <- js_mul (prop b "amount") quotient ;;
    winnings <- js_add stats_winnings product ;;
    new_winnings <- Math_floor winnings ;;
    stats_loop user rest (VNum new_bet) (VNum new_winnings)
  else stats_loop user rest stats_bet stats_winnings.
Proof.
  unfold user_readable, owner_readable, is_mine, bet_owner.
  intros Hu Hb.
  apply andb_prop in Hu. destruct Hu as [Hu12 Hu3].
  apply andb_prop in Hu12. destruct Hu12 as [Hu1 Hu2].
  apply andb_prop in Hb. destruct Hb as [Hb123 Hb4].
  apply andb_prop in Hb123. destruct Hb123 as [Hb12 Hb3].
  apply andb_prop in Hb12. destruct Hb12 as [Hb1 Hb2].
  apply negb_true_iff in Hu1, Hu2, Hb1, Hb2, Hb3.
  cbn [rollGetUserGameStats_loop].
  rewrite (get_prop b "user" Hb1). cbn [bind].
  rewrite (get_prop _ "_id" Hb2). cbn [bind].
  rewrite toString_method_converts, Hb3, Hb4. cbn [negb andb bind].
  rewrite (get_prop user "_id" Hu1). cbn [bind].
  rewrite toString_method_converts, Hu2, Hu3. cbn [negb andb bind].
  rewrite !(get_prop b _ Hb1). cbn [bind]. reflexivity.
Qed.

(** The loop stops with a TypeError at the first bet it cannot read. *)
Lemma rollGetUserGameStats_loop_unreadable (user b : jsval) (rest : list jsval)
  (stats_bet stats_winnings : jsval) :
  user_readable user && owner_readable b = false ->
  stats_loop user (b :: rest) stats_bet stats_winnings
  = Throw TypeError.
Proof.
  unfold user_readable, owner_readable, bet_owner. intros H.
  cbn [rollGetUserGameStats_loop].
  destruct (is_nullish b) eqn:Hb1; [rewrite (get_nullish _ _ Hb1); reflexivity|].
  rewrite (get_prop b "user" Hb1). cbn [bind].
  destruct (is_nullish (prop b "user")) eqn:Hb2;
    [rewrite (get_nullish _ _ Hb2); reflexivity|].
  rewrite (get_prop _ "_id" Hb2). cbn [bind].
  rewrite toString_method_converts.
  destruct (is_nullish (prop (prop b "user") "_id")) eqn:Hb3; [reflexivity|].
  destruct (converts (prop (prop b "user") "_id")) eqn:Hb4; [|reflexivity].
  cbn [negb andb bind].
  destruct (is_nullish user) eqn:Hu1; [rewrite (get_nullish _ _ Hu1); reflexivity|].
  rewrite (get_prop user "_id" Hu1). cbn [bind].
  rewrite toString_method_converts.
  destruct (is_nullish (prop user "_id")) eqn:Hu2; [reflexivity|].
  destruct (converts (prop user "_id")) eqn:Hu3; [|reflexivity].
  discriminate H.
Qed.

(** A bet of the user whose amount and multiplier convert is added to
    both totals, which stay whole. *)
Lemma rollGetUserGameStats_loop_own (user b : jsval) (rest : list jsval)
  (b0 w0 : num) :
  user_readable user = true -> owner_readable b = true ->
  is_mine user b = true -> bet_countable b = true ->
  exists b1 w1 : num,
    floor b1 = b1 /\ floor w1 = w1
    /\ stats_loop user (b :: rest) (VNum b0) (VNum w0)
       = stats_loop user rest (VNum b1) (VNum w1).
Proof.
  intros Hu Hb Hmine Hc.
  rewrite (rollGetUserGameStats_loop_cons _ _ _ _ _ Hu Hb), Hmine.
  unfold bet_countable in Hc. apply andb_prop in Hc. destruct Hc as [Ha Hm].
  destruct (js_add_converts StringToNumber NumberToString
              (VNum b0) (prop b "amount") eq_refl Ha) as (p & Hp & Hpc).
  rewrite Hp. cbn [bind]. rewrite Math_floor_converts, Hpc. cbn [bind].
  rewrite js_div_converts, Hm. cbn [converts andb bind].
  rewrite js_mul_converts, Ha. cbn [converts andb bind].
  rewrite js_add_num. cbn [bind]. rewrite Math_floor_num. cbn [bind].
  eexists. eexists. split; [|split; [|reflexivity]]; apply floor_floor.
Qed.

(** A bet of the user whose amount or multiplier has no conversion stops
    the loop with a TypeError. *)
Lemma rollGetUserGameStats_loop_uncountable (user b : jsval) (rest : list jsval)
  (b0 w0 : num) :
  user_readable user = true -> owner_readable b = true ->
  is_mine user b = true -> bet_countable b = false ->
  stats_loop user (b :: rest) (VNum b0) (VNum w0) = Throw TypeError.
Proof.
  intros Hu Hb Hmine Hc.
  rewrite (rollGetUserGameStats_loop_cons _ _ _ _ _ Hu Hb), Hmine.
  unfold bet_countable in Hc.
  destruct (converts (prop b "amount")) eqn:Ha.
  - cbn [andb] in Hc.
    destruct (js_add_converts StringToNumber NumberToString
                (VNum b0) (prop b "amount") eq_refl Ha) as (p & Hp & Hpc).
    rewrite Hp. cbn [bind]. rewrite Math_floor_converts, Hpc. cbn [bind].
    rewrite js_div_converts, Hc. reflexivity.
  - rewrite js_add_unconvertible by (cbn [converts andb]; exact Ha).
    reflexivity.
Qed.

(** X4.  [rollGetUserGameStats] returns on an empty list of bets whatever
    the user is; on a list that is not empty it returns exactly when the
    user has an [_id] with a text, every bet has a user with an [_id] with
    a text, and the amount and the multiplier of every bet of the user
    have a conversion to a number.  It throws nothing but a TypeError.
    What it returns is an object of two numbers, [bet] and [winnings],
    each of them left unchanged by [Math.floor]. *)
Theorem rollGetUserGameStats_result (user : jsval) (rollBets : list jsval) :
  is_ok (rollGetUserGameStats user rollBets)
  = match rollBets with
    | [] => true
    | _ => user_readable user
           && forallb (fun b => owner_readable b
                                && (negb (is_mine user b) || bet_countable b))
                rollBets
    end
  /\ (forall e : error, rollGetUserGameStats user rollBets = Throw e -> e = TypeError)
  /\ (forall stats : jsval,
        rollGetUserGameStats user rollBets = Ok stats ->
        exists b w : num,
          stats = stats_obj (VNum b) (VNum w) /\ floor b = b /\ floor w = w).
Proof.
  unfold rollGetUserGameStats.
  set (usable := fun b => owner_readable b
                          && (negb (is_mine user b) || bet_countable b)).
  assert (Hloop : forall (l : list jsval) (b w : num),
             floor b = b -> floor w = w ->
             is_ok (stats_loop user l (VNum b) (VNum w))
             = match l with
               | [] => true
               | _ => user_readable user && forallb usable l
               end
             /\ (forall e : error,
                   stats_loop user l (VNum b) (VNum w) = Throw e ->
                   e = TypeError)
             /\ (forall stats : jsval,
                   stats_loop user l (VNum b) (VNum w) = Ok stats ->
                   exists b' w' : num,
                     stats = stats_obj (VNum b') (VNum w')
                     /\ floor b' = b' /\ floor w' = w')).
  { induction l as [|x r IH]; intros b w Hb Hw.
    - cbn. split; [reflexivity|]. split; [discriminate|].
      intros stats H. inversion H. exists b, w. auto.
    - destruct (user_readable user && owner_readable x) eqn:E.
      + apply andb_prop in E. destruct E as [Eu Ex].
        cbn [forallb]. unfold usable at 1. rewrite Eu, Ex. cbn [andb].
        assert (Hr : forall b1 w1 : num,
                   floor b1 = b1 -> floor w1 = w1 ->
                   is_ok (stats_loop user r (VNum b1) (VNum w1))
                   = forallb usable r).
        { intros b1 w1 H1 H2. destruct (IH b1 w1 H1 H2) as (H & _).
          rewrite H. destruct r; [reflexivity|]. rewrite Eu. reflexivity. }
        destruct (is_mine user x) eqn:Em; cbn [negb orb].
        * destruct (bet_countable x) eqn:Ec.
          -- destruct (rollGetUserGameStats_loop_own user x r b w Eu Ex Em Ec)
               as (b1 & w1 & Hb1 & Hw1 & Hstep).
             rewrite Hstep, (Hr b1 w1 Hb1 Hw1).
             split; [reflexivity|]. apply IH; assumption.
          -- rewrite (rollGetUserGameStats_loop_uncountable
                        user x r b w Eu Ex Em Ec).
             split; [reflexivity|].
             split; [intros e H; inversion H; reflexivity | discriminate].
        * rewrite (rollGetUserGameStats_loop_cons _ _ _ _ _ Eu Ex), Em.
          rewrite Hr by assumption.
          split; [reflexivity|]. apply IH; assumption.
      + rewrite (rollGetUserGameStats_loop_unreadable _ _ _ _ _ E).
        cbn [is_ok forallb]. unfold usable at 1.
        split.
        * destruct (user_readable user); [|reflexivity].
          cbn [andb] in E. rewrite E. reflexivity.
        * split; [intros e H; inversion H; reflexivity | discriminate]. }
  apply Hloop; reflexivity.
Qed.

(** X5.  The bets of other users play no part: when the user has an
    [_id] with a text and so has the user of every bet,
    [rollGetUserGameStats] gives the same result on the list of bets and
    on the bets of the user alone, in the same order. *)
Theorem rollGetUserGameStats_own_bets_only (user : jsval) (rollBets : list jsval) :
  user_readable user = true -> forallb owner_readable rollBets = true ->
  rollGetUserGameStats user rollBets
  = rollGetUserGameStats user (filter (is_mine user) rollBets).
Proof.
  intros Hu. unfold rollGetUserGameStats.
  generalize (VNum (ofZ 0)) at 1 3. generalize (VNum (ofZ 0)).
  induction rollBets as [|x r IH]; intros w b Hall; [reflexivity|].
  cbn [forallb] in Hall. apply andb_prop in Hall. destruct Hall as [Hx Hr].
  rewrite (rollGetUserGameStats_loop_cons _ _ _ _ _ Hu Hx).
  cbn [filter]. destruct (is_mine user x) eqn:E.
  - rewrite (rollGetUserGameStats_loop_cons _ _ _ _ _ Hu Hx), E.
    destruct (js_add b (prop x "amount")) as [sum|e]; [|reflexivity].
    cbn [bind]. destruct (Math_floor sum) as [new_bet|e]; [|reflexivity].
    cbn [bind].
    destruct (js_div (prop x "multiplier") (VNum (ofZ 100))) as [q|e];
      [|reflexivity].
    cbn [bind]. destruct (js_mul (prop x "amount") q) as [p|e]; [|reflexivity].
    cbn [bind]. destruct (js_add w p) as [s|e]; [|reflexivity].
    cbn [bind]. destruct (Math_floor s) as [new_winnings|e]; [|reflexivity].
    cbn [bind]. apply IH. assumption.
  - apply IH. assumption.
Qed.

Lemma natural_amount_value (b : jsval) :
  natural_amount b = true ->
  prop b "amount" = VNum (ofZ (amount_value b)) /\ 0 <= amount_value b.
Proof.
  unfold natural_amount, amount_value.
  destruct (prop b "amount") as [| | | [| |[n [| |]]] | | |]; try discriminate.
  intros H. apply Z.leb_le in H.
  assert (E : Qfloor (n # 1) = n) by (apply (Qfloor_Z n)).
  rewrite E. split; [reflexivity | assumption].
Qed.

Lemma sum_Z_nonneg (l : list Z) : Forall (fun x => 0 <= x) l -> 0 <= sum_Z l.
Proof. induction 1; cbn [sum_Z]; lia. Qed.

Lemma own_total_nonneg (user : jsval) (rollBets : list jsval) :
  forallb natural_amount (filter (is_mine user) rollBets) = true ->
  0 <= own_total user rollBets.
Proof.
  intros Hnat. apply sum_Z_nonneg. rewrite Forall_forall. intros x Hin.
  apply in_map_iff in Hin. destruct Hin as (y & <- & Hy).
  rewrite forallb_forall in Hnat.
  apply (natural_amount_value y (Hnat y Hy)).
Qed.

(** The loop on integer amounts, from a total [t]: whatever it returns
    has the total of the user's bets in its [bet] field, and it returns
    when the multipliers of the user's bets have a conversion. *)
Lemma rollGetUserGameStats_loop_total (user : jsval) (rollBets : list jsval) :
  user_readable user = true -> forallb owner_readable rollBets = true ->
  forallb natural_amount (filter (is_mine user) rollBets) = true ->
  forall (t : Z) (w : num),
    0 <= t -> t + own_total user rollBets <= 2 ^ 53 ->
    (forall stats : jsval,
        stats_loop user rollBets (VNum (ofZ t)) (VNum w) = Ok stats ->
        exists w' : num,
          stats = stats_obj (VNum (ofZ (t + own_total user rollBets))) (VNum w'))
    /\ (forallb bet_countable (filter (is_mine user) rollBets) = true ->
        is_ok (stats_loop user rollBets (VNum (ofZ t)) (VNum w)) = true).
Proof.
  intros Hu. unfold own_total.
  induction rollBets as [|x r IH]; intros Hall Hnat t w Ht Hsum.
  - split; [|reflexivity].
    intros stats H. exists w. cbn in H |- *. rewrite Z.add_0_r.
    inversion H. reflexivity.
  - cbn [forallb] in Hall. apply andb_prop in Hall. destruct Hall as [Hx Hr].
    rewrite (rollGetUserGameStats_loop_cons _ _ _ _ _ Hu Hx).
    cbn [filter] in *. destruct (is_mine user x) eqn:E.
    + cbn [forallb map sum_Z] in *.
      apply andb_prop in Hnat. destruct Hnat as [Hnx Hnr].
      destruct (natural_amount_value x Hnx) as [Ha Hpos].
      pose proof (own_total_nonneg user r Hnr) as Hrest.
      unfold own_total in Hrest.
      rewrite Ha, js_add_num. cbn [bind].
      rewrite Math_floor_num. cbn [bind].
      rewrite add_ofZ, floor_ofZ by lia.
      rewrite js_div_converts. cbn [converts]. rewrite andb_true_r.
      destruct (converts (prop x "multiplier")) eqn:Hm; cbn [bind];
        [|split; [discriminate|]; intros H; unfold bet_countable in H;
          rewrite Hm, andb_false_r in H; discriminate H].
      rewrite js_mul_converts. cbn [converts andb bind].
      rewrite js_add_num. cbn [bind]. rewrite Math_floor_num. cbn [bind].
      rewrite Z.add_assoc.
      match goal with
      | |- context [stats_loop user r _ (VNum ?w1)] =>
          destruct (IH Hr Hnr (t + amount_value x) w1) as (Hval & Hok);
            [lia | lia |]
      end.
      split; [exact Hval|].
      intros H. apply andb_prop in H. apply Hok. apply H.
    + apply IH; assumption.
Qed.

(** X6.  When the amounts of the user's own bets are integers that are
    not negative and add up to at most [2^53], and their multipliers have
    a conversion to a number, the [bet] field of the result is the sum of
    the amounts. *)
Theorem rollGetUserGameStats_total (user : jsval) (rollBets : list jsval) :
  user_readable user = true -> forallb owner_readable rollBets = true ->
  forallb natural_amount (filter (is_mine user) rollBets) = true ->
  forallb bet_countable (filter (is_mine user) rollBets) = true ->
  own_total user rollBets <= 2 ^ 53 ->
  exists w : num,
    rollGetUserGameStats user rollBets
    = Ok (stats_obj (VNum (ofZ (own_total user rollBets))) (VNum w)).
Proof.
  intros Hu Hall Hnat Hcount Hsum. unfold rollGetUserGameStats.
  destruct (rollGetUserGameStats_loop_total user rollBets Hu Hall Hnat 0 (ofZ 0))
    as (Hval & Hok); [lia | lia |].
  specialize (Hok Hcount).
  destruct (stats_loop user rollBets (VNum (ofZ 0)) (VNum (ofZ 0)))
    as [stats|e]; [|discriminate Hok].
  destruct (Hval stats eq_refl) as (w & ->).
  exists w. reflexivity.
Qed.

End UserGameStats.

(** ** Admission of a bet *)

Section BetAdmission.

Variable StringToNumber : string -> num.
Variable NumberToString : num -> string.
Variable env : Env.

Local Abbreviation number_of := (number_of StringToNumber NumberToString).
Local Abbreviation profit_total := (profit_total StringToNumber NumberToString).
Local Abbreviation rollCheckSendBetData :=
  (rollCheckSendBetData StringToNumber NumberToString env).
Local Abbreviation rollCheckSendBetUser :=
  (rollCheckSendBetUser StringToNumber NumberToString env).
Local Abbreviation rollGetUserGameStats :=
  (rollGetUserGameStats StringToNumber NumberToString).
Local Abbreviation own_total := (own_total NumberToString).
Local Abbreviation is_mine := (is_mine NumberToString).


(** X8.  [rollCheckSendBetUser] guards against [undefined] only.  With
    [null] for the data or for the user it throws a TypeError, not its
    generic error, and with [undefined] or [null] for the stats it throws
    a TypeError as soon as the balance test passes; [rollCheckSendBetData]
    answers [null] with its generic error. *)
Theorem rollCheckSendBetUser_null (data user userStats : jsval) :
  (is_undefined user = false ->
   rollCheckSendBetUser VNull user userStats = Throw TypeError)
  /\ (is_undefined data = false ->
      rollCheckSendBetUser data VNull userStats = Throw TypeError)
  /\ (forall dfs ufs : list (string * jsval),
        is_nullish userStats = true ->
        rollCheckSendBetUser (VObj dfs) (VObj ufs) userStats
        = if ltb (number_of (field ufs "balance"))
                 (floor (number_of (field dfs "amount")))
          then Throw (Error MsgBalance) else Throw TypeError)
  /\ rollCheckSendBetData VNull = Throw (Error MsgSomethingWrong).
Proof.
  split; [|split; [|split]].
  - intros Hu. unfold rollCheckSendBetUser. rewrite Hu.
    cbn [is_undefined orb].
    destruct user; try discriminate Hu; reflexivity.
  - intros Hd. unfold rollCheckSendBetUser. rewrite Hd. reflexivity.
  - intros dfs ufs Hs. unfold rollCheckSendBetUser.
    cbn [is_undefined orb get bind]. fold (field ufs "balance").
    fold (field dfs "amount").
    rewrite Math_floor_converts, ToNumber_converts.
    destruct (converts (field dfs "amount")) eqn:Ha; cbn [bind].
    + destruct (converts (field ufs "balance")) eqn:Hb; cbn [bind].
      * destruct (ltb _ _); [reflexivity|].
        rewrite (get_nullish _ _ Hs). reflexivity.
      * rewrite (number_of_unconvertible _ _ _ Hb). reflexivity.
    + rewrite (number_of_unconvertible _ _ _ Ha). cbn [floor].
      rewrite ltb_NaN_r. reflexivity.
  - reflexivity.
Qed.

(** X9.  An amount given as a string passes format validation exactly
    like the number it converts to, but the max-bet test of
    [rollCheckSendBetUser] then concatenates it with the round total:
    the quantity compared with the ceiling is the number read from the
    text of the amount followed by the text of the total.  The max-bet
    error is thrown exactly when the balance converts to a number that
    covers the amount and that quantity exceeds the ceiling. *)
Theorem string_amount_concatenated
  (s : string) (b : num) (balance multiplier winnings : jsval) :
  rollCheckSendBetData (bet_data (VStr s) multiplier)
  = rollCheckSendBetData (bet_data (VNum (StringToNumber s)) multiplier)
  /\ (rollCheckSendBetUser (bet_data (VStr s) multiplier)
        (user_with_balance balance) (stats_obj (VNum b) winnings)
      = Throw (Error MsgMaxAmount)
      <-> converts balance = true
          /\ ltb (number_of balance) (floor (StringToNumber s)) = false
          /\ gtb (floor (StringToNumber (s ++ NumberToString b)))
                 (max_bet_ceiling env) = true).
Proof.
  split; [reflexivity|].
  unfold bet_data, user_with_balance, stats_obj.
  rewrite rollCheckSendBetUser_objects.
  change (field [("balance", balance)] "balance") with balance.
  change (field [("amount", VStr s); ("multiplier", multiplier)] "amount")
    with (VStr s).
  change (field [("amount", VStr s); ("multiplier", multiplier)] "multiplier")
    with multiplier.
  change (field [("bet", VNum b); ("winnings", winnings)] "bet") with (VNum b).
  change (field [("bet", VNum b); ("winnings", winnings)] "winnings")
    with winnings.
  change (Math_floor StringToNumber NumberToString (VStr s))
    with (Ok (A:=num) (floor (StringToNumber s))).
  rewrite ToNumber_converts. cbn [bind].
  destruct (converts balance); cbn [bind];
    [|split; [discriminate | intros (H & _); discriminate H]].
  destruct (ltb (number_of balance) (floor (StringToNumber s))).
  - split; [discriminate | intros (_ & H & _); discriminate H].
  - change (js_add StringToNumber NumberToString (VStr s) (VNum b))
      with (Ok (A:=jsval) (VStr (s ++ NumberToString b))).
    cbn [bind].
    change (Math_floor StringToNumber NumberToString (VStr (s ++ NumberToString b)))
      with (Ok (A:=num) (floor (StringToNumber (s ++ NumberToString b)))).
    cbn [bind].
    destruct (gtb (floor (StringToNumber (s ++ NumberToString b)))
                  (max_bet_ceiling env)).
    + split; [intros _; repeat split | reflexivity].
    + split; [|intros (_ & _ & H); discriminate H].
      intros H. apply profit_test_throws in H.
      destruct H as [H|H]; discriminate H.
Qed.


(** X24.  A balance that is missing or not a number never leads to the
    insufficient-balance error: the comparison with a NaN is false. *)
Theorem missing_balance_passes_balance_test
  (dfs ufs : list (string * jsval)) (userStats : jsval) :
  is_nan (number_of (field ufs "balance")) = true ->
  rollCheckSendBetUser (VObj dfs) (VObj ufs) userStats <> Throw (Error MsgBalance).
Proof.
  intros Hnan H. apply rollCheckSendBetUser_balance_iff in H.
  destruct H as (_ & _ & H).
  destruct (number_of (field ufs "balance")); try discriminate Hnan.
  discriminate H.
Qed.

End BetAdmission.

(** ** Open rounds *)

(** X3.  [rollCheckSendBetGame] accepts a round exactly when its [state]
    is the string 'created'; it throws its generic error on [undefined]
    and [null] and the wait-for-the-next-round error otherwise.  A round
    object it accepts is one whose sanitized view keeps the state and has
    neither [outcome] nor [fair]. *)
Theorem open_round_view_hides_outcome :
  (forall rollGame : jsval,
      rollCheckSendBetGame rollGame
      = if is_nullish rollGame then Throw (Error MsgSomethingWrong)
        else if strict_eq_str (prop rollGame "state") "created" then Ok tt
             else Throw (Error MsgWaitNextRound))
  /\ (forall fs : list (string * jsval),
        NoDup (map fst fs) ->
        rollCheckSendBetGame (VObj fs) = Ok tt ->
        exists out : list (string * jsval),
          rollSanitizeGame (VObj fs) = Ok (VObj out)
          /\ lookup "state" out = Some (VStr "created")
          /\ lookup "outcome" out = None
          /\ lookup "fair" out = None).
Proof.
  split.
  - intros g. unfold rollCheckSendBetGame.
    destruct (is_nullish g) eqn:Hn; [reflexivity|].
    rewrite (get_prop _ _ Hn). cbn [bind].
    destruct (strict_eq_str (prop g "state") "created"); reflexivity.
  - intros fs Hnd Hok.
    assert (Hst : lookup "state" fs = Some (VStr "created")).
    { revert Hok. unfold rollCheckSendBetGame. cbn [is_nullish get bind].
      destruct (lookup "state" fs) as [[| | | |t| |]|]; cbn [strict_eq_str negb];
        try discriminate.
      destruct (String.eqb_spec t "created") as [->|]; [reflexivity | discriminate]. }
    unfold rollSanitizeGame. cbn [JSON_roundtrip bind].
    rewrite json_copy_obj. cbn [get bind].
    pose proof (lookup_json_copy_fields "state" fs Hnd) as Hc.
    rewrite Hst in Hc. cbn [json_copy] in Hc. rewrite Hc.
    cbn [strict_eq_str String.eqb Ascii.eqb Bool.eqb negb andb delete].
    eexists. split; [reflexivity|]. split; [|split].
    + rewrite !lookup_remove_key_other by discriminate. assumption.
    + rewrite lookup_remove_key_other by discriminate.
      apply lookup_remove_key_same.
    + apply lookup_remove_key_same.
Qed.

(** ** JSON data and the sanitizers *)

(** Induction on values, with the hypothesis for every array item and
    every property value. *)
Lemma jsval_nested_ind (P : jsval -> Prop)
  (Hundef : P VUndef) (Hnull : P VNull) (Hbool : forall b, P (VBool b))
  (Hnum : forall n, P (VNum n)) (Hstr : forall s, P (VStr s))
  (Harr : forall l, Forall P l -> P (VArr l))
  (Hobj : forall fs, Forall (fun kv => P (snd kv)) fs -> P (VObj fs)) :
  forall v : jsval, P v.
Proof.
  exact (fix go (v : jsval) : P v :=
           match v with
           | VUndef => Hundef
           | VNull => Hnull
           | VBool b => Hbool b
           | VNum n => Hnum n
           | VStr s => Hstr s
           | VArr l =>
               Harr l ((fix items (l : list jsval) : Forall P l :=
                          match l with
                          | [] => Forall_nil P
                          | x :: r => Forall_cons x (go x) (items r)
                          end) l)
           | VObj fs =>
               Hobj fs ((fix fields (fs : list (string * jsval)) :
                           Forall (fun kv => P (snd kv)) fs :=
                           match fs with
                           | [] => Forall_nil _
                           | kv :: r => Forall_cons kv (go (snd kv)) (fields r)
                           end) fs)
           end).
Qed.

Lemma is_json_obj (fs : list (string * jsval)) :
  is_json (VObj fs) = is_json_fields fs.
Proof.
  unfold is_json_fields. induction fs as [|[k x] r IH]; [reflexivity|].
  cbn [forallb snd]. rewrite <- IH. reflexivity.
Qed.

(** A JSON copy is JSON data. *)
Lemma is_json_json_copy (v : jsval) : v <> VUndef -> is_json (json_copy v) = true.
Proof.
  assert (H : forall w, is_json (json_copy w) = true).
  { intros w. induction w as [| | b | n | s | l IH | fs IH] using jsval_nested_ind;
      try reflexivity.
    - destruct n; reflexivity.
    - cbn [json_copy is_json]. rewrite forallb_forall. intros x Hin.
      apply in_map_iff in Hin. destruct Hin as (y & <- & Hy).
      rewrite Forall_forall in IH. apply IH. assumption.
    - rewrite json_copy_obj, is_json_obj. unfold is_json_fields.
      induction IH as [|[k x] r Hx Hr IHr]; [reflexivity|].
      rewrite json_copy_fields_cons. cbn [snd] in Hx.
      destruct x; cbn [forallb snd]; try assumption;
        rewrite ?IHr, ?andb_true_r; try reflexivity; exact Hx. }
  intros _. apply H.
Qed.

(** Copying JSON data changes nothing. *)
Lemma json_copy_is_json (v : jsval) : is_json v = true -> json_copy v = v.
Proof.
  induction v as [| | b | n | s | l IH | fs IH] using jsval_nested_ind;
    intros H; try reflexivity; try discriminate H.
  - destruct n; try discriminate H; reflexivity.
  - cbn [json_copy]. f_equal. cbn [is_json] in H.
    induction IH as [|x r Hx Hr IHr]; [reflexivity|].
    cbn [forallb] in H. apply andb_prop in H. destruct H as [H1 H2].
    cbn [map]. rewrite (Hx H1), (IHr H2). reflexivity.
  - rewrite json_copy_obj. f_equal. rewrite is_json_obj in H.
    unfold is_json_fields in H.
    induction IH as [|[k x] r Hx Hr IHr]; [reflexivity|].
    cbn [forallb snd] in H, Hx. apply andb_prop in H. destruct H as [H1 H2].
    rewrite json_copy_fields_cons, (Hx H1), (IHr H2).
    destruct x; try reflexivity. discriminate H1.
Qed.

Lemma is_json_fields_remove_key (k : string) (fs : list (string * jsval)) :
  is_json_fields fs = true -> is_json_fields (remove_key k fs) = true.
Proof.
  unfold is_json_fields. induction fs as [|[k' x] r IH]; intros H; [reflexivity|].
  cbn [forallb snd] in H. apply andb_prop in H. destruct H as [H1 H2].
  cbn [remove_key]. destruct (String.eqb k' k); [apply IH; assumption|].
  cbn [forallb snd]. rewrite H1, (IH H2). reflexivity.
Qed.

Lemma remove_key_absent (k : string) (fs : list (string * jsval)) :
  lookup k fs = None -> remove_key k fs = fs.
Proof.
  induction fs as [|[k' x] r IH]; intros H; [reflexivity|].
  cbn [lookup] in H. cbn [remove_key].
  destruct (String.eqb k' k); [discriminate|]. rewrite (IH H). reflexivity.
Qed.

(** X10.  Sanitizing a round twice changes nothing: whatever
    [rollSanitizeGame] returns is JSON data that it maps to itself. *)
Theorem rollSanitizeGame_idempotent (game out : jsval) :
  rollSanitizeGame game = Ok out ->
  rollSanitizeGame out = Ok out /\ is_json out = true.
Proof.
  unfold rollSanitizeGame at 1.
  destruct game as [| | b | n | s | l | fs]; cbn [JSON_roundtrip bind];
    try discriminate.
  - intros H. inversion H. split; reflexivity.
  - destruct n as [| neg | q]; cbn [json_copy get bind]; try discriminate.
    intros H. inversion H. split; reflexivity.
  - intros H. inversion H. split; reflexivity.
  - cbn [get bind strict_eq_str negb andb delete]. intros H. inversion H.
    assert (Hj : is_json (VArr (map json_copy l)) = true)
      by (apply (is_json_json_copy (VArr l)); discriminate).
    split; [|assumption].
    unfold rollSanitizeGame. cbn [JSON_roundtrip bind].
    rewrite (json_copy_is_json _ Hj). reflexivity.
  - rewrite json_copy_obj. cbn [get bind].
    assert (Hj : is_json_fields (json_copy_fields fs) = true).
    { rewrite <- is_json_obj, <- json_copy_obj. apply is_json_json_copy. discriminate. }
    set (cf := json_copy_fields fs) in *.
    set (state := match lookup "state" cf with Some x => x | None => VUndef end).
    destruct (negb (strict_eq_str state "rolling")
              && negb (strict_eq_str state "completed")) eqn:E;
      intros H; inversion H; subst out; clear H.
    + cbn [delete].
      set (out := remove_key "fair" (remove_key "outcome" cf)).
      assert (Ho : is_json_fields out = true)
        by (apply is_json_fields_remove_key, is_json_fields_remove_key; assumption).
      split; [|rewrite is_json_obj; assumption].
      unfold rollSanitizeGame. cbn [JSON_roundtrip bind].
      rewrite json_copy_is_json by (rewrite is_json_obj; assumption).
      cbn [get bind].
      assert (Hst : lookup "state" out = lookup "state" cf)
        by (unfold out; rewrite !lookup_remove_key_other by discriminate;
            reflexivity).
      rewrite Hst. fold state. rewrite E. cbn [delete]. f_equal. f_equal.
      rewrite (remove_key_absent "outcome" out).
      * apply remove_key_absent, lookup_remove_key_same.
      * unfold out. rewrite lookup_remove_key_other by discriminate.
        apply lookup_remove_key_same.
    + split; [|rewrite is_json_obj; assumption].
      unfold rollSanitizeGame. cbn [JSON_roundtrip bind].
      rewrite json_copy_is_json by (rewrite is_json_obj; assumption).
      cbn [get bind]. fold state. rewrite E. reflexivity.
Qed.

Lemma set_key_fresh (k : string) (v : jsval) (fs : list (string * jsval)) :
  ~ In k (map fst fs) -> set_key k v fs = (fs ++ [(k, v)])%list.
Proof.
  induction fs as [|[k' x] r IH]; intros H; [reflexivity|].
  cbn [set_key app]. destruct (String.eqb_spec k' k) as [->|NE].
  - exfalso. apply H. left. reflexivity.
  - rewrite IH; [reflexivity|]. intros Hin. apply H. right. assumption.
Qed.

(** Spreading an object whose keys are distinct gives its fields back. *)
Lemma spread_distinct_keys (fs : list (string * jsval)) :
  NoDup (map fst fs) -> spread (VObj fs) = fs.
Proof.
  unfold spread. cbn [own_properties].
  assert (H : forall acc : list (string * jsval),
             NoDup (map fst (acc ++ fs)) ->
             fold_left (fun acc kv => set_key (fst kv) (snd kv) acc) fs acc
             = (acc ++ fs)%list).
  { induction fs as [|[k x] r IH]; intros acc Hnd.
    - rewrite app_nil_r. reflexivity.
    - cbn [fold_left fst snd]. rewrite set_key_fresh.
      + rewrite IH; rewrite <- app_assoc; [reflexivity | assumption].
      + rewrite map_app in Hnd. cbn [map fst] in Hnd.
        apply NoDup_remove_2 in Hnd. intros Hin. apply Hnd.
        apply in_or_app. left. assumption. }
  intros Hnd. apply (H []). assumption.
Qed.

(** X12.  On a bet that is an object of JSON data with distinct keys the
    two bet sanitizers agree: [rollSanitizeBets] on the one-element list
    returns the one-element list of what [rollSanitizeBet] returns, and
    throws when it throws. *)
Theorem rollSanitizeBet_agrees_with_rollSanitizeBets (fs : list (string * jsval)) :
  NoDup (map fst fs) -> is_json (VObj fs) = true ->
  rollSanitizeBets [VObj fs] = (o <- rollSanitizeBet (VObj fs) ;; Ok [o]).
Proof.
  intros Hnd Hj. unfold rollSanitizeBet. cbn [rollSanitizeBets JSON_roundtrip].
  rewrite (json_copy_is_json _ Hj), (spread_distinct_keys fs Hnd).
  cbn [bind get].
  destruct (public_user match lookup "user" fs with Some x => x | None => VUndef end);
    reflexivity.
Qed.

(** X11.  [rollSanitizeBet] returns exactly when the JSON copy of the bet
    has a user with a rakeback; otherwise it throws, a SyntaxError on
    [undefined] and a TypeError in every other case.  What it returns is
    an object whose [user] holds the nine public fields read from the
    copy's user, hence no [balance], and whose other fields are those of
    the JSON copy of the bet. *)
Theorem rollSanitizeBet_public_user (b : jsval) :
  is_ok (rollSanitizeBet b) = bet_readable (json_copy b)
  /\ (forall e : error,
        rollSanitizeBet b = Throw e ->
        e = if is_undefined b then SyntaxError else TypeError)
  /\ (forall o : jsval,
        rollSanitizeBet b = Ok o ->
        exists fs out : list (string * jsval),
          b = VObj fs /\ o = VObj out
          /\ lookup "user" out
             = Some (VObj (public_projection (prop (json_copy b) "user")))
          /\ lookup "balance" (public_projection (prop (json_copy b) "user")) = None
          /\ forall k : string,
               k <> "user" -> lookup k out = lookup k (json_copy_fields fs)).
Proof.
  unfold rollSanitizeBet, bet_readable.
  destruct (is_undefined b) eqn:Hu.
  { destruct b; try discriminate Hu. cbn. split; [reflexivity|].
    split; [intros e H; inversion H; reflexivity | discriminate]. }
  assert (Hrt : JSON_roundtrip b = Ok (json_copy b))
    by (destruct b; try discriminate Hu; reflexivity).
  rewrite Hrt. cbn [bind].
  destruct (is_nullish (json_copy b)) eqn:Hn.
  { rewrite (get_nullish _ _ Hn). cbn [bind is_ok negb andb].
    split; [reflexivity|].
    split; [intros e H; inversion H; reflexivity | discriminate]. }
  rewrite (get_prop _ _ Hn). cbn [bind negb andb].
  set (u := prop (json_copy b) "user").
  destruct (is_nullish u) eqn:Hnu.
  { rewrite public_user_throws by (left; assumption). cbn [bind is_ok negb andb].
    split; [reflexivity|].
    split; [intros e H; inversion H; reflexivity | discriminate]. }
  destruct (is_nullish (prop u "rakeback")) eqn:Hr.
  { rewrite public_user_throws by (right; assumption). cbn [bind is_ok negb andb].
    split; [reflexivity|].
    split; [intros e H; inversion H; reflexivity | discriminate]. }
  rewrite public_user_ok by assumption. cbn [bind negb andb].
  destruct b as [| | bb | n | s | l | fs]; try discriminate Hu;
    try (exfalso; subst u; destruct n; discriminate Hnu);
    try (exfalso; subst u; discriminate Hnu).
  rewrite json_copy_obj. cbn [is_ok].
  split; [reflexivity|]. split; [discriminate|].
  intros o H. inversion H; subst o. exists fs. eexists.
  split; [reflexivity|]. split; [reflexivity|].
  split; [apply lookup_set_key_same|]. split; [reflexivity|].
  intros k Hk. apply lookup_set_key_other. assumption.
Qed.

(** ** Seeds across runs *)

Lemma latest_created_state (l : list RollSeedDoc) :
  forall (best : option RollSeedDoc) (d : RollSeedDoc),
    latest_created l best = Some d ->
    (forall b, best = Some b -> seed_state b = "created") ->
    seed_state d = "created".
Proof.
  induction l as [|x r IH]; intros best d H Hb; cbn [latest_created] in H.
  - apply Hb. assumption.
  - destruct (String.eqb_spec (seed_state x) "created") as [E|NE].
    + destruct best as [b|].
      * destruct (seed_id b <? seed_id x)%nat; apply (IH _ _ H).
        -- intros b' Hb'. inversion Hb'; subst. assumption.
        -- assumption.
      * apply (IH _ _ H). intros b' Hb'. inversion Hb'; subst. assumption.
    + apply (IH _ _ H). assumption.
Qed.

Lemma latest_created_app (l r : list RollSeedDoc) :
  forall best : option RollSeedDoc,
    latest_created (l ++ r) best = latest_created r (latest_created l best).
Proof.
  induction l as [|x l IH]; intros best; [reflexivity|].
  cbn [app latest_created].
  destruct (String.eqb (seed_state x) "created"); [|apply IH].
  destruct best as [b|]; [|apply IH].
  destruct (seed_id b <? seed_id x)%nat; apply IH.
Qed.

Lemma latest_created_max (l : list RollSeedDoc) :
  forall (best : option RollSeedDoc) (d : RollSeedDoc),
    latest_created l best = Some d ->
    forall d' : RollSeedDoc,
      In d' l -> seed_state d' = "created" -> (seed_id d' <= seed_id d)%nat.
Proof.
  assert (Hmono : forall (l0 : list RollSeedDoc) (best : option RollSeedDoc)
                         (b d : RollSeedDoc),
             best = Some b -> latest_created l0 best = Some d ->
             (seed_id b <= seed_id d)%nat).
  { intros l0.
    induction l0 as [|x r IH]; intros best b d Hb H; cbn [latest_created] in H.
    - rewrite Hb in H. inversion H. lia.
    - subst best. destruct (String.eqb (seed_state x) "created").
      + destruct (Nat.ltb_spec (seed_id b) (seed_id x)).
        * pose proof (IH _ _ _ eq_refl H). lia.
        * apply (IH _ _ _ eq_refl H).
      + apply (IH _ _ _ eq_refl H). }
  induction l as [|x r IH]; intros best d H d' Hin Hst; [contradiction|].
  cbn [latest_created] in H. destruct Hin as [->|Hin].
  - rewrite Hst, String.eqb_refl in H.
    destruct best as [b|].
    + destruct (Nat.ltb_spec (seed_id b) (seed_id d')).
      * apply (Hmono _ _ _ _ eq_refl H).
      * pose proof (Hmono _ _ _ _ eq_refl H). lia.
    + apply (Hmono _ _ _ _ eq_refl H).
  - destruct (String.eqb (seed_state x) "created").
    + destruct best as [b|].
      * destruct (seed_id b <? seed_id x)%nat; apply (IH _ _ H _ Hin Hst).
      * apply (IH _ _ H _ Hin Hst).
    + apply (IH _ _ H _ Hin Hst).
Qed.

(** The lookup of a seed by its identifier finds one where one is stored. *)
Lemma find_id_some (id : nat) (l : list RollSeedDoc) :
  (exists d : RollSeedDoc, In d l /\ seed_id d = id) ->
  exists d : RollSeedDoc,
    find (fun d => (seed_id d =? id)%nat) l = Some d /\ In d l /\ seed_id d = id.
Proof.
  intros (d0 & Hin0 & Hid0).
  destruct (find (fun d => (seed_id d =? id)%nat) l) as [d|] eqn:Hf.
  - exists d. apply find_some in Hf. destruct Hf as [Hin Hid].
    apply Nat.eqb_eq in Hid. repeat split; assumption.
  - exfalso. pose proof (find_none _ _ Hf d0 Hin0) as H. cbv beta in H.
    rewrite Hid0, Nat.eqb_refl in H. discriminate.
Qed.

Lemma find_id_skip (id : nat) (l r : list RollSeedDoc) :
  (forall d : RollSeedDoc, In d l -> seed_id d <> id) ->
  find (fun d => (seed_id d =? id)%nat) (l ++ r)
  = find (fun d => (seed_id d =? id)%nat) r.
Proof.
  induction l as [|x l IH]; intros H; [reflexivity|].
  cbn [app find]. destruct (Nat.eqb_spec (seed_id x) id) as [E|NE].
  - exfalso. apply (H x); [left; reflexivity | assumption].
  - apply IH. intros d Hin. apply H. right. assumption.
Qed.

Lemma set_seed_state_core (id : nat) (st : string) (d : RollSeedDoc) :
  seed_core (set_seed_state id st d) = seed_core d.
Proof. unfold set_seed_state. destruct (seed_id d =? id)%nat; reflexivity. Qed.

Lemma map_core_set_seed_state (id : nat) (st : string) (l : list RollSeedDoc) :
  map seed_core (map (set_seed_state id st) l) = map seed_core l.
Proof.
  rewrite map_map. apply map_ext. intros d. apply set_seed_state_core.
Qed.

Section RoundCreationMore.

Variable sha256 : list Byte.byte -> list Byte.byte.

Local Abbreviation run := (rollGenerateGame sha256).

(** X13.  Whatever is rejected, a run only adds: the rounds on record stay
    as they are and at most one is added after them; every seed on record
    keeps its identifier, secret and commitment, and at most one seed is
    added after them. *)
Theorem rollGenerateGame_append_only
  (f : Faults) (r1 r2 : list Byte.byte) (db : DB) :
  (exists new_games : list RollGameDoc,
      games (snd (run f r1 r2 db)) = (games db ++ new_games)%list
      /\ (List.length new_games <= 1)%nat)
  /\ (exists new_seeds : list RollSeedDoc,
        map seed_core (seeds (snd (run f r1 r2 db)))
        = (map seed_core (seeds db) ++ map seed_core new_seeds)%list
        /\ (List.length new_seeds <= 1)%nat).
Proof.
  rewrite rollGenerateGame_unfold.
  destruct (fail_findOne f).
  { cbn [snd]. split; [exists []; rewrite app_nil_r; auto|].
    exists []; rewrite app_nil_r; auto. }
  destruct (latest_created (seeds db) None) as [d|].
  - unfold mbind, promise_all2, RollGame_create, RollSeed_findByIdAndUpdate,
      populate_seed.
    destruct (fail_game_create f), (fail_seed_update f), (fail_populate f);
      cbn [fst snd seeds games next_id];
      rewrite ?map_core_set_seed_state;
      (split; [first [ exists []; rewrite app_nil_r; split; [reflexivity | cbn; lia]
                     | eexists [_]; split; [reflexivity | cbn; lia] ] |]);
      (exists []; rewrite app_nil_r; split; [reflexivity | cbn; lia]).
  - destruct (fail_seed_create f).
    { cbn [snd]. split; [exists []; rewrite app_nil_r; auto|].
      exists []; rewrite app_nil_r; auto. }
    unfold mbind, promise_all2, RollGame_create, RollSeed_findByIdAndUpdate,
      populate_seed.
    destruct (fail_game_create f), (fail_seed_update f), (fail_populate f);
      cbn [fst snd seeds games next_id];
      rewrite ?map_core_set_seed_state, ?map_app;
      (split; [first [ exists []; rewrite app_nil_r; split; [reflexivity | cbn; lia]
                     | eexists [_]; split; [reflexivity | cbn; lia] ] |]);
      (eexists [_]; split; [reflexivity | cbn; lia]).
Qed.

(** The part of a run that stores the round depends neither on the seed
    update nor on the final population. *)
Lemma rollGenerateGame_stores_round (f : Faults) (r1 r2 : list Byte.byte) (db : DB) :
  fail_findOne f = false -> needs_seed db && fail_seed_create f = false ->
  fail_game_create f = false ->
  exists g : RollGameDoc,
    games (snd (run f r1 r2 db)) = (games db ++ [g])%list
    /\ fair_seed g = seed_in_use db
    /\ game_state g = "created".
Proof.
  intros Hfind Hseed Hgame. rewrite rollGenerateGame_unfold, Hfind.
  unfold needs_seed, seed_in_use in *.
  destruct (latest_created (seeds db) None) as [d|].
  - unfold mbind, promise_all2, RollGame_create, RollSeed_findByIdAndUpdate,
      populate_seed. rewrite Hgame.
    destruct (fail_seed_update f), (fail_populate f);
      cbn [fst snd seeds games next_id];
      eexists; repeat split; reflexivity.
  - cbn [andb] in Hseed. rewrite Hseed.
    unfold mbind, promise_all2, RollGame_create, RollSeed_findByIdAndUpdate,
      populate_seed. rewrite Hgame.
    destruct (fail_seed_update f), (fail_populate f);
      cbn [fst snd seeds games next_id];
      eexists; repeat split; reflexivity.
Qed.

(** A rejected seed update leaves the seed collection as the lookup and
    the creation made it. *)
Lemma rollGenerateGame_update_rejected (f : Faults) (r1 r2 : list Byte.byte) (db : DB) :
  fail_findOne f = false -> needs_seed db && fail_seed_create f = false ->
  fail_seed_update f = true ->
  fst (run f r1 r2 db) = Throw DbError
  /\ seed_in_use (snd (run f r1 r2 db)) = seed_in_use db
  /\ needs_seed (snd (run f r1 r2 db)) = false.
Proof.
  intros Hfind Hseed Hupd. rewrite rollGenerateGame_unfold, Hfind.
  unfold needs_seed, seed_in_use in *.
  destruct (latest_created (seeds db) None) as [d|] eqn:Hfound.
  - unfold mbind, promise_all2, RollGame_create, RollSeed_findByIdAndUpdate,
      populate_seed. rewrite Hupd.
    destruct (fail_game_create f);
      cbn [fst snd seeds games next_id]; rewrite Hfound; repeat split; reflexivity.
  - cbn [andb] in Hseed. rewrite Hseed.
    unfold mbind, promise_all2, RollGame_create, RollSeed_findByIdAndUpdate,
      populate_seed. rewrite Hupd.
    destruct (fail_game_create f);
      cbn [fst snd seeds games next_id];
      rewrite latest_created_app, Hfound; cbn [latest_created String.eqb seed_state seed_id];
      repeat split; reflexivity.
Qed.

(** X15.  When the round is created and only the update of the seed is
    rejected, the run is rejected, yet the round stays on record and the
    seed stays 'created': the next run works with the same seed, and two
    rounds on record then refer to one seed. *)
Theorem seed_update_rejected_seed_reused
  (f : Faults) (r1 r2 r3 r4 : list Byte.byte) (db : DB) :
  fail_findOne f = false -> needs_seed db && fail_seed_create f = false ->
  fail_game_create f = false -> fail_seed_update f = true ->
  let db1 := snd (run f r1 r2 db) in
  let db2 := snd (run no_faults r3 r4 db1) in
  fst (run f r1 r2 db) = Throw DbError
  /\ seed_in_use db1 = seed_in_use db
  /\ exists g1 g2 : RollGameDoc,
       games db1 = (games db ++ [g1])%list
       /\ games db2 = (games db ++ [g1; g2])%list
       /\ fair_seed g1 = seed_in_use db
       /\ fair_seed g2 = seed_in_use db.
Proof.
  intros Hfind Hseed Hgame Hupd. cbv zeta.
  destruct (rollGenerateGame_update_rejected f r1 r2 db Hfind Hseed Hupd)
    as (Hthrow & Huse & Hneeds).
  destruct (rollGenerateGame_stores_round f r1 r2 db Hfind Hseed Hgame)
    as (g1 & Hg1 & Hs1 & _).
  destruct (rollGenerateGame_stores_round no_faults r3 r4
              (snd (run f r1 r2 db)) eq_refl) as (g2 & Hg2 & Hs2 & _);
    [apply andb_false_r | reflexivity |].
  split; [assumption|]. split; [assumption|].
  exists g1, g2. split; [assumption|]. split.
  - rewrite Hg2, Hg1, <- app_assoc. reflexivity.
  - split; [assumption|]. rewrite Hs2. assumption.
Qed.

Lemma created_not_updated (id : nat) (l : list RollSeedDoc) (d : RollSeedDoc) :
  In d (map (set_seed_state id "completed") l) -> seed_state d = "created" ->
  seed_id d <> id.
Proof.
  intros Hin Hst. apply in_map_iff in Hin. destruct Hin as (d1 & <- & _).
  unfold set_seed_state in *.
  destruct (Nat.eqb_spec (seed_id d1) id) as [E|NE]; [discriminate Hst | assumption].
Qed.

(** X14.  After a run that returns a round, every seed on record with the
    identifier of the seed in use is 'completed', and the next run works
    with another seed (identifiers on record being below the next one to
    hand out). *)
Theorem rollGenerateGame_seed_used_once
  (f : Faults) (r1 r2 : list Byte.byte) (db : DB) (view : RollGameView) :
  ids_below_next db = true ->
  fst (run f r1 r2 db) = Ok view ->
  seed_in_use (snd (run f r1 r2 db)) <> seed_in_use db
  /\ forall d : RollSeedDoc,
       In d (seeds (snd (run f r1 r2 db))) -> seed_id d = seed_in_use db ->
       seed_state d = "completed".
Proof.
  intros Hids. rewrite rollGenerateGame_unfold.
  unfold ids_below_next in Hids. apply andb_prop in Hids. destruct Hids as [Hids _].
  rewrite forallb_forall in Hids.
  assert (Hdone : forall id l d,
             In d (map (set_seed_state id "completed") l) -> seed_id d = id ->
             seed_state d = "completed").
  { intros id l d Hin Hid. apply in_map_iff in Hin. destruct Hin as (d1 & <- & _).
    unfold set_seed_state in *.
    destruct (Nat.eqb_spec (seed_id d1) id) as [E|NE]; [reflexivity | contradiction]. }
  destruct (fail_findOne f); [discriminate|].
  assert (Huse : seed_in_use db = match latest_created (seeds db) None with
                                   | Some d => seed_id d
                                   | None => next_id db
                                   end) by reflexivity.
  rewrite !Huse. clear Huse.
  destruct (latest_created (seeds db) None) as [d0|] eqn:Hfound.
  - destruct (latest_created_In _ _ _ Hfound) as [Hin0|Hbad]; [|discriminate].
    apply Hids in Hin0. apply Nat.ltb_lt in Hin0.
    unfold mbind, promise_all2, RollGame_create, RollSeed_findByIdAndUpdate,
      populate_seed.
    destruct (fail_game_create f), (fail_seed_update f), (fail_populate f);
      cbn [fst snd seeds games next_id]; try discriminate.
    intros _. split; [|intros d; apply Hdone].
    unfold seed_in_use. cbn [seeds next_id].
    destruct (latest_created (map _ (seeds db)) None) as [d|] eqn:Hnext; [|lia].
    destruct (latest_created_In _ _ _ Hnext) as [Hin|Hbad]; [|discriminate].
    apply (created_not_updated _ _ _ Hin).
    apply (latest_created_state _ _ _ Hnext). discriminate.
  - destruct (fail_seed_create f); [discriminate|].
    unfold mbind, promise_all2, RollGame_create, RollSeed_findByIdAndUpdate,
      populate_seed.
    destruct (fail_game_create f), (fail_seed_update f), (fail_populate f);
      cbn [fst snd seeds games next_id]; try discriminate.
    intros _. split; [|intros d; apply Hdone].
    unfold seed_in_use. cbn [seeds next_id].
    destruct (latest_created (map _ _) None) as [d|] eqn:Hnext; [|lia].
    destruct (latest_created_In _ _ _ Hnext) as [Hin|Hbad]; [|discriminate].
    apply (created_not_updated _ _ _ Hin).
    apply (latest_created_state _ _ _ Hnext). discriminate.
Qed.


(** X16.  When a seed in state 'created' is on record, the run creates
    none: its result does not depend on the random bytes, the seeds on
    record keep their number, identifiers, secrets and commitments, and
    the seed in use is the one with the greatest identifier among the
    created ones. *)
Theorem rollGenerateGame_reuses_created_seed
  (f : Faults) (r1 r2 r1' r2' : list Byte.byte) (db : DB) :
  needs_seed db = false ->
  run f r1 r2 db = run f r1' r2' db
  /\ map seed_core (seeds (snd (run f r1 r2 db))) = map seed_core (seeds db)
  /\ exists d : RollSeedDoc,
       In d (seeds db) /\ seed_state d = "created" /\ seed_id d = seed_in_use db
       /\ forall d' : RollSeedDoc,
            In d' (seeds db) -> seed_state d' = "created" ->
            (seed_id d' <= seed_id d)%nat.
Proof.
  intros Hneeds. rewrite !rollGenerateGame_unfold.
  unfold needs_seed, seed_in_use in *.
  destruct (latest_created (seeds db) None) as [d|] eqn:Hfound; [|discriminate].
  split; [reflexivity|]. split.
  - destruct (fail_findOne f); [reflexivity|].
    unfold mbind, promise_all2, RollGame_create, RollSeed_findByIdAndUpdate,
      populate_seed.
    destruct (fail_game_create f), (fail_seed_update f), (fail_populate f);
      cbn [fst snd seeds games next_id];
      rewrite ?map_core_set_seed_state; reflexivity.
  - exists d.
    destruct (latest_created_In _ _ _ Hfound) as [Hin|Hbad]; [|discriminate].
    split; [assumption|].
    split; [apply (latest_created_state _ _ _ Hfound); discriminate|].
    split; [reflexivity|].
    apply (latest_created_max _ _ _ Hfound).
Qed.

(** X17.  The round a run returns carries the seed in use with its secret:
    [fair.seed] is populated with the [seedServer] and [hash] of a seed on
    record that has the identifier of the seed in use.  When the run has
    created the seed, these are the hex text of the first draw and the hex
    digest of the second one. *)
Theorem rollGenerateGame_view_carries_seed
  (f : Faults) (r1 r2 : list Byte.byte) (db : DB) (view : RollGameView) :
  fst (run f r1 r2 db) = Ok view ->
  (exists d : RollSeedDoc,
      In d (seeds (snd (run f r1 r2 db)))
      /\ seed_id d = seed_in_use db
      /\ view_seed view = Some (seed_id d, seedServer d, hash d))
  /\ (ids_below_next db = true -> needs_seed db = true ->
      view_seed view
      = Some (next_id db, hex_of_bytes r1, hex_of_bytes (sha256 r2))).
Proof.
  rewrite rollGenerateGame_unfold. unfold needs_seed, seed_in_use, ids_below_next.
  destruct (fail_findOne f); [discriminate|].
  destruct (latest_created (seeds db) None) as [d0|] eqn:Hfound.
  - destruct (latest_created_In _ _ _ Hfound) as [Hin0|Hbad]; [|discriminate].
    unfold mbind, promise_all2, RollGame_create, RollSeed_findByIdAndUpdate,
      populate_seed.
    destruct (fail_game_create f), (fail_seed_update f), (fail_populate f);
      cbn [fst snd seeds games next_id fair_seed]; try discriminate.
    intros H. inversion H; subst view. cbn [view_seed].
    split; [|intros _ H'; discriminate H'].
    destruct (find_id_some (seed_id d0)
                (map (set_seed_state (seed_id d0) "completed") (seeds db)))
      as (d & Hd & Hin & Hid).
    { exists (set_seed_state (seed_id d0) "completed" d0).
      split; [apply in_map; assumption | apply set_seed_state_same]. }
    exists d. rewrite Hd. repeat split; assumption.
  - destruct (fail_seed_create f); [discriminate|].
    unfold mbind, promise_all2, RollGame_create, RollSeed_findByIdAndUpdate,
      populate_seed.
    destruct (fail_game_create f), (fail_seed_update f), (fail_populate f);
      cbn [fst snd seeds games next_id fair_seed]; try discriminate.
    intros H. inversion H; subst view. cbn [view_seed].
    split.
    + match goal with
      | |- context [find _ ?l] =>
          destruct (find_id_some (next_id db) l) as (d & Hd & Hin & Hid)
      end.
      { eexists. split; [apply in_map; apply in_or_app; right; left; reflexivity|].
        unfold set_seed_state. cbn [seed_id]. rewrite Nat.eqb_refl. reflexivity. }
      exists d. rewrite Hd. repeat split; assumption.
    + intros Hids _. apply andb_prop in Hids. destruct Hids as [Hids _].
      rewrite map_app, find_id_skip.
      * cbn [map find]. unfold set_seed_state. cbn [seed_id].
        rewrite Nat.eqb_refl. cbn [seed_id seedServer hash option_map].
        rewrite Nat.eqb_refl. reflexivity.
      * rewrite forallb_forall in Hids. intros d Hin.
        apply in_map_iff in Hin. destruct Hin as (d1 & <- & Hin1).
        apply Hids in Hin1. apply Nat.ltb_lt in Hin1.
        unfold set_seed_state.
        destruct (Nat.eqb_spec (seed_id d1) (next_id db)); cbn [seed_id]; lia.
Qed.

End RoundCreationMore.

(** ** The socket handlers *)

Lemma read_prop (w : Collaborators) (v : jsval) (k : string) :
  read w v k = if is_nullish v then (Throws (type_error w), []) else hret (prop v k).
Proof. destruct v; reflexivity. Qed.

Lemma read_defined (w : Collaborators) (v : jsval) (k : string) :
  is_nullish v = false -> read w v k = hret (prop v k).
Proof. intros H. rewrite read_prop, H. reflexivity. Qed.

(** The identifier is computed without a call; when a read on the way
    meets [undefined] or [null] the TypeError is thrown. *)
Lemma identifier_expr_cases (w : Collaborators) (socket : jsval) :
  identifier_expr w socket = (Returns (identifier_of socket), [])
  \/ identifier_expr w socket = (Throws (type_error w), []).
Proof.
  unfold identifier_expr, identifier_of. rewrite (read_prop w socket).
  destruct (is_nullish socket) eqn:Hs; [right; reflexivity|].
  cbn [hbind hret app]. rewrite read_prop.
  destruct (is_nullish (prop socket "handshake")); [right; reflexivity|].
  cbn [hbind hret app]. rewrite read_prop.
  destruct (is_nullish (prop (prop socket "handshake") "headers"));
    [right; reflexivity|].
  cbn [hbind hret app].
  destruct (ToBoolean _); [left; reflexivity|].
  rewrite (read_prop w socket), Hs. cbn [hbind hret app]. rewrite read_prop.
  destruct (is_nullish (prop socket "conn")); [right | left]; reflexivity.
Qed.

Ltac handler_simpl :=
  repeat (progress (rewrite ?read_prop;
                    cbn [hbind try_catch call hret fst snd app negb])).

Ltac handler_case :=
  match goal with
  | |- context [if is_nullish ?v then _ else _] => destruct (is_nullish v) eqn:?
  | |- context [match ?o with Returns _ => _ | Throws _ => _ end] =>
      match type of o with
      | outcome unit => destruct o as [[]|?] eqn:?
      | _ => destruct o as [?|?] eqn:?
      end
  end; handler_simpl.

(** Start of a proof about a run: the callback is a function [cb], the
    user is signed in, and the identifier has been computed. *)
Ltac handler_start w socket cb Hd :=
  unfold calls, credit_deposit_handler;
  rewrite (read_prop w socket "decoded");
  destruct (is_nullish socket) eqn:?;
  [| cbn [hbind hret app];
     destruct (is_nullish (prop socket "decoded")) eqn:Hd; cbn [negb];
     [| rewrite !(read_defined w (prop socket "decoded") "_id" Hd);
        destruct (identifier_expr_cases w socket) as [-> | ->];
        handler_simpl ] ].

(** X18.  A controller is called only after the rate limiter, the
    anti-spam check, the user lookup, the user-data check and the check
    of the setting 'credit.deposit.enabled' have each been called once,
    in this order, and have all returned; it is called with the user the
    lookup returned and the data of the request.  The rate limiter is
    charged under the forwarded address when the header holds one, under
    the remote address otherwise.  ([sendCreditDeposit] and
    [checkCreditDeposit] are this body with their controller.) *)
Theorem controller_runs_after_all_checks
  (w : Collaborators) (c : controller) (socket data : jsval)
  (callback : option (jsval -> outcome unit))
  (c' : controller) (user data' : jsval) :
  In (ControllerCall c' user data')
     (calls (credit_deposit_handler w c socket data callback)) ->
  c' = c /\ data' = data /\ callback <> None
  /\ is_nullish (prop socket "decoded") = false
  /\ rateLimiter_consume w (identifier_of socket) = Returns tt
  /\ socketCheckAntiSpam w (decoded_id socket) = Returns tt
  /\ User_findById w (decoded_id socket) = Returns user
  /\ socketCheckUserData w user = Returns tt
  /\ settingCheck w user "credit.deposit.enabled" = Returns tt
  /\ exists rest : list event,
       calls (credit_deposit_handler w c socket data callback)
       = ([Consume (identifier_of socket); CheckAntiSpam (decoded_id socket);
           FindById (decoded_id socket); CheckUserData user;
           SettingCheck user "credit.deposit.enabled";
           ControllerCall c user data] ++ rest)%list.
Proof.
  unfold decoded_id.
  destruct callback as [cb|]; [|intros []].
  handler_start w socket cb Hd.
  all: repeat handler_case.
  all: cbn [In].
  all: intros Hin; repeat (destruct Hin as [Hin|Hin]; try discriminate Hin);
    try contradiction.
  all: inversion Hin; subst; repeat split; try assumption; try discriminate;
    eexists; reflexivity.
Qed.

Lemma identifier_expr_readable (w : Collaborators) (socket : jsval) :
  identifier_readable socket = true ->
  identifier_expr w socket = (Returns (identifier_of socket), []).
Proof.
  unfold identifier_readable, identifier_expr, identifier_of. intros H.
  apply andb_prop in H. destruct H as [H H4].
  apply andb_prop in H. destruct H as [H H3].
  apply andb_prop in H. destruct H as [H1 H2].
  apply negb_true_iff in H1, H2, H3.
  rewrite (read_defined w socket "handshake" H1). cbn [hbind hret app].
  rewrite (read_defined w _ "headers" H2). cbn [hbind hret app].
  rewrite (read_defined w _ "cf-connecting-ip" H3). cbn [hbind hret app].
  destruct (ToBoolean _); [reflexivity|].
  cbn [orb] in H4. apply negb_true_iff in H4.
  rewrite (read_defined w socket "conn" H1). cbn [hbind hret app].
  rewrite (read_defined w _ "remoteAddress" H4). reflexivity.
Qed.

(** X19.  The anti-spam entry is released only for a request that has
    passed the rate limiter and the anti-spam check and has then failed in
    the user lookup, one of the two checks or the controller; it is then
    released exactly once, for the signed-in user.  A request the rate
    limiter or the anti-spam check refuses releases nothing, and neither
    does a request handed to a controller that returns. *)
Theorem anti_spam_released_on_inner_failure
  (w : Collaborators) (c : controller) (socket data : jsval)
  (callback : option (jsval -> outcome unit)) :
  (forall id : jsval,
      In (RemoveAntiSpam id) (calls (credit_deposit_handler w c socket data callback)) ->
      id = decoded_id socket
      /\ reaches_inner_steps w socket = true
      /\ inner_steps_pass w c socket data = false)
  /\ (callback <> None -> is_nullish (prop socket "decoded") = false ->
      identifier_readable socket = true ->
      reaches_inner_steps w socket = true ->
      inner_steps_pass w c socket data = false ->
      filter is_remove_anti_spam
        (calls (credit_deposit_handler w c socket data callback))
      = [RemoveAntiSpam (decoded_id socket)]).
Proof.
  unfold reaches_inner_steps, inner_steps_pass, decoded_id.
  split.
  - intros id. destruct callback as [cb|]; [|intros []].
    handler_start w socket cb Hd.
    all: repeat handler_case.
    all: cbn [In].
    all: intros Hin; repeat (destruct Hin as [Hin|Hin]; try discriminate Hin);
      try contradiction.
    all: inversion Hin; subst; repeat split; reflexivity.
  - intros Hcb Hd Hid Hreach Hfail.
    destruct callback as [cb|]; [|contradiction].
    unfold calls, credit_deposit_handler.
    assert (Hs : is_nullish socket = false).
    { unfold identifier_readable in Hid. destruct (is_nullish socket); [discriminate Hid | reflexivity]. }
    rewrite (read_defined w socket "decoded" Hs). cbn [hbind hret app].
    rewrite Hd. cbn [negb].
    rewrite !(read_defined w (prop socket "decoded") "_id" Hd).
    rewrite (identifier_expr_readable w socket Hid).
    handler_simpl.
    destruct (rateLimiter_consume w (identifier_of socket)) as [[]|?];
      [|discriminate Hreach].
    handler_simpl.
    destruct (socketCheckAntiSpam w (prop (prop socket "decoded") "_id")) as [[]|?];
      [|discriminate Hreach].
    handler_simpl. revert Hfail.
    repeat handler_case.
    all: try discriminate.
    all: intros _; reflexivity.
Qed.

Ltac nullish_throw H :=
  match goal with
  | Hn : is_nullish ?e = true, Ho : ?o = Throws ?e |- _ =>
      let H' := fresh in
      assert (H' : defined_throw o = true) by (apply H);
      rewrite Ho in H'; cbn [defined_throw] in H'; rewrite Hn in H';
      discriminate H'
  end.

(** X20.  With a callback that returns and collaborators that throw
    neither [undefined] nor [null], a handler never rejects, and it calls
    the callback exactly once, unless the request passes every step and
    the controller returns: then it leaves the answer to the controller
    and does not call it at all. *)
Theorem handler_answers_once
  (w : Collaborators) (c : controller) (socket data : jsval)
  (cb : jsval -> outcome unit) :
  (forall response : jsval, cb response = Returns tt) ->
  throws_defined w c -> is_nullish socket = false ->
  fst (credit_deposit_handler w c socket data (Some cb)) = Returns tt
  /\ List.length
       (filter is_callback
          (calls (credit_deposit_handler w c socket data (Some cb))))
     = if negb (is_nullish (prop socket "decoded"))
          && identifier_readable socket
          && reaches_inner_steps w socket
          && inner_steps_pass w c socket data
       then 0%nat else 1%nat.
Proof.
  intros Hcb (Hte & H1 & H2 & H3 & H4 & H5 & H6 & H7) Hs.
  unfold reaches_inner_steps, inner_steps_pass, decoded_id.
  unfold calls, credit_deposit_handler.
  rewrite (read_defined w socket "decoded" Hs). cbn [hbind hret app].
  destruct (is_nullish (prop socket "decoded")) eqn:Hd; cbn [negb andb].
  { rewrite Hcb. split; reflexivity. }
  rewrite !(read_defined w (prop socket "decoded") "_id" Hd).
  destruct (identifier_readable socket) eqn:Hid; cbn [andb].
  - rewrite (identifier_expr_readable w socket Hid). handler_simpl.
    repeat (handler_case; rewrite ?Hcb; handler_simpl).
    all: try (split; reflexivity).
    all: try congruence.
    all: try nullish_throw H1; try nullish_throw H2; try nullish_throw H3;
      try nullish_throw H4; try nullish_throw H5; try nullish_throw H6;
      try nullish_throw H7.
  - destruct (identifier_expr_cases w socket) as [E|E].
    + exfalso. revert E Hid.
      unfold identifier_expr, identifier_readable. rewrite Hs.
      rewrite !read_prop, Hs. cbn [hbind hret app negb andb].
      rewrite !read_prop.
      destruct (is_nullish (prop socket "handshake")); [discriminate|].
      cbn [hbind hret app negb andb]. rewrite !read_prop.
      destruct (is_nullish (prop (prop socket "handshake") "headers"));
        [discriminate|].
      cbn [hbind hret app negb andb].
      destruct (ToBoolean _); [discriminate|].
      rewrite ?read_prop, ?Hs. cbn [hbind hret app negb andb orb].
      rewrite ?read_prop.
      destruct (is_nullish (prop socket "conn")); discriminate.
    + rewrite E. handler_simpl. rewrite Hte. handler_simpl. rewrite Hcb.
      split; reflexivity.
Qed.

(** X21.  Whatever a handler passes to the callback is a failure object.
    Without a signed-in user it is the sign-in message, and nothing else
    is called.  A request the rate limiter refuses is answered with the
    message of what was thrown, or with the slow-down message when that
    has none, and nothing else is called.  A failure of the user lookup
    is answered, after the release of the anti-spam entry, with the
    message of what was thrown as it is. *)
Theorem handler_reports_failures
  (w : Collaborators) (c : controller) (socket data : jsval)
  (cb : jsval -> outcome unit) :
  (forall response : jsval,
      In (Callback response)
         (calls (credit_deposit_handler w c socket data (Some cb))) ->
      exists message : jsval, response = failure message)
  /\ (is_nullish socket = false -> is_nullish (prop socket "decoded") = true ->
      calls (credit_deposit_handler w c socket data (Some cb))
      = [Callback (failure (VStr sign_in_message))])
  /\ (forall err : jsval,
        is_nullish (prop socket "decoded") = false ->
        identifier_readable socket = true ->
        rateLimiter_consume w (identifier_of socket) = Throws err ->
        is_nullish err = false ->
        calls (credit_deposit_handler w c socket data (Some cb))
        = [Consume (identifier_of socket);
           Callback (failure (message_or_slow_down err))])
  /\ (forall err : jsval,
        is_nullish (prop socket "decoded") = false ->
        identifier_readable socket = true ->
        reaches_inner_steps w socket = true ->
        User_findById w (decoded_id socket) = Throws err ->
        is_nullish err = false ->
        socketRemoveAntiSpam w (decoded_id socket) = Returns tt ->
        cb (failure (prop err "message")) = Returns tt ->
        calls (credit_deposit_handler w c socket data (Some cb))
        = [Consume (identifier_of socket); CheckAntiSpam (decoded_id socket);
           FindById (decoded_id socket); RemoveAntiSpam (decoded_id socket);
           Callback (failure (prop err "message"))]).
Proof.
  assert (Hsock : identifier_readable socket = true -> is_nullish socket = false).
  { unfold identifier_readable. destruct (is_nullish socket); [discriminate | reflexivity]. }
  split; [|split; [|split]].
  - intros response.
    handler_start w socket cb Hd.
    all: repeat handler_case.
    all: cbn [In].
    all: intros Hin; repeat (destruct Hin as [Hin|Hin]; try discriminate Hin);
      try contradiction.
    all: inversion Hin; eexists; reflexivity.
  - intros Hs Hd. unfold calls, credit_deposit_handler.
    rewrite (read_defined w socket "decoded" Hs). cbn [hbind hret app].
    rewrite Hd. reflexivity.
  - intros err Hd Hid Hthrow Herr. unfold calls, credit_deposit_handler.
    rewrite (read_defined w socket "decoded" (Hsock Hid)). cbn [hbind hret app].
    rewrite Hd. cbn [negb].
    rewrite (identifier_expr_readable w socket Hid). handler_simpl.
    rewrite Hthrow. handler_simpl. rewrite Herr. handler_simpl. reflexivity.
  - intros err Hd Hid Hreach Hthrow Herr Hrem Hcb.
    unfold reaches_inner_steps, decoded_id in *.
    unfold calls, credit_deposit_handler.
    rewrite (read_defined w socket "decoded" (Hsock Hid)). cbn [hbind hret app].
    rewrite Hd. cbn [negb].
    rewrite !(read_defined w (prop socket "decoded") "_id" Hd).
    rewrite (identifier_expr_readable w socket Hid). handler_simpl.
    destruct (rateLimiter_consume w (identifier_of socket)) as [[]|?];
      [|discriminate Hreach].
    handler_simpl.
    destruct (socketCheckAntiSpam w (prop (prop socket "decoded") "_id")) as [[]|?];
      [|discriminate Hreach].
    handler_simpl. rewrite Hthrow. handler_simpl. rewrite Hrem. handler_simpl.
    rewrite Herr. handler_simpl. rewrite Hcb. reflexivity.
Qed.

(** * Concrete runs *)

Lemma env_small_thresholds :
  min_threshold env_small = ofZ 1
  /\ max_bet_ceiling env_small = ofZ 1000
  /\ max_profit_ceiling env_small = ofZ 2000.
Proof. repeat split; vm_compute; reflexivity. Qed.

(** C4 as stated fails: with balance 1000 and 900 already bet, a bet of
    200 passes user validation when the ceilings leave room for it. *)
Lemma balance_1000_bet_200_accepted :
  rollCheckSendBetUser unused_StringToNumber unused_NumberToString env_large
    (bet_data (VNum (ofZ 200)) (VNum (ofZ 150)))
    (user_with_balance (VNum (ofZ 1000)))
    (stats_obj (VNum (ofZ 900)) (VNum (ofZ 1350)))
  = Ok tt.
Proof. vm_compute. reflexivity. Qed.



(** Format validation at work: amount 5 with multiplier 101 is accepted,
    amount -1.5 and multiplier 100 are rejected. *)
Lemma rollCheckSendBetData_fails_iff_witness :
  rollCheckSendBetData unused_StringToNumber unused_NumberToString env_small
    (bet_data (VNum (ofZ 5)) (VNum (ofZ 101))) = Ok tt
  /\ rollCheckSendBetData unused_StringToNumber unused_NumberToString env_small
       (bet_data (VNum (Fin (- 3 # 2))) (VNum (ofZ 101)))
     = Throw (Error MsgInvalidAmount)
  /\ rollCheckSendBetData unused_StringToNumber unused_NumberToString env_small
       (bet_data (VNum (ofZ 5)) (VNum (ofZ 100)))
     = Throw (Error MsgInvalidMultiplier).
Proof.
  destruct (rollCheckSendBetData_fails_iff unused_StringToNumber
              unused_NumberToString env_small)
    as [_ [_ [_ [_ [Hneg [_ [Hmult Hok]]]]]]].
  split; [|split].
  - apply (Hok (inject_Z 5)); [discriminate | vm_compute; reflexivity].
  - apply Hneg. reflexivity.
  - apply (Hmult 5). lia.
Defined.

(** C7 as stated fails in two places.  An amount that is an object with
    a [toString] property of its own, which is no function, makes format
    validation throw a TypeError, which is none of its validation errors.
    And where the minimum bet is configured as 0, the amount 0.5 is
    positive and not below the minimum, yet it is rejected with multiplier
    101, its floor being 0. *)
Lemma positive_amount_below_one_rejected :
  rollCheckSendBetData unused_StringToNumber unused_NumberToString env_small
    (bet_data (VObj [("toString", VNum (ofZ 5))]) (VNum (ofZ 101)))
  = Throw TypeError
  /\ min_threshold env_no_minimum = ofZ 0
  /\ ltb (Fin (1 # 2)) (min_threshold env_no_minimum) = false
  /\ rollCheckSendBetData unused_StringToNumber unused_NumberToString
       env_no_minimum (bet_data (VNum (Fin (1 # 2))) (VNum (ofZ 101)))
     = Throw (Error MsgInvalidAmount).
Proof. repeat split; vm_compute; reflexivity. Qed.

(** C10 as stated fails on the two per-round ceilings, which are tested on
    the unrounded amount.  An amount of 1000.5 at multiplier 200 is
    rejected by the profit ceiling 2000 that its floor, 1000, passes; an
    amount of 2 - 2^-52 on top of 999 is rejected by the bet ceiling 1000
    that its floor, 1, passes.  Format validation accepts all four. *)
Lemma ceilings_use_unrounded_amount :
  rollCheckSendBetData unused_StringToNumber unused_NumberToString env_small
    (bet_data (VNum (Fin (2001 # 2))) (VNum (ofZ 200))) = Ok tt
  /\ floor (Fin (2001 # 2)) = ofZ 1000
  /\ rollCheckSendBetUser unused_StringToNumber unused_NumberToString env_small
       (bet_data (VNum (Fin (2001 # 2))) (VNum (ofZ 200)))
       (user_with_balance (VNum (ofZ 5000)))
       (stats_obj (VNum (ofZ 0)) (VNum (ofZ 0)))
     = Throw (Error MsgMaxProfit)
  /\ rollCheckSendBetUser unused_StringToNumber unused_NumberToString env_small
       (bet_data (VNum (ofZ 1000)) (VNum (ofZ 200)))
       (user_with_balance (VNum (ofZ 5000)))
       (stats_obj (VNum (ofZ 0)) (VNum (ofZ 0)))
     = Ok tt
  /\ rollCheckSendBetData unused_StringToNumber unused_NumberToString env_small
       (bet_data (VNum (Fin (9007199254740991 # 4503599627370496)))
                 (VNum (ofZ 101))) = Ok tt
  /\ floor (Fin (9007199254740991 # 4503599627370496)) = ofZ 1
  /\ rollCheckSendBetUser unused_StringToNumber unused_NumberToString env_small
       (bet_data (VNum (Fin (9007199254740991 # 4503599627370496)))
                 (VNum (ofZ 101)))
       (user_with_balance (VNum (ofZ 5000)))
       (stats_obj (VNum (ofZ 999)) (VNum (ofZ 0)))
     = Throw (Error MsgMaxAmount)
  /\ rollCheckSendBetUser unused_StringToNumber unused_NumberToString env_small
       (bet_data (VNum (ofZ 1)) (VNum (ofZ 101)))
       (user_with_balance (VNum (ofZ 5000)))
       (stats_obj (VNum (ofZ 999)) (VNum (ofZ 0)))
     = Ok tt.
Proof. repeat split; vm_compute; reflexivity. Qed.

(** The sum of the second pair of runs above, on the kernel's binary64
    numbers: it rounds up to 1001. *)
Example binary64_sum_rounds_up :
  of_float (1.9999999999999998 + 999)%float = ofZ 1001
  /\ of_float 1.9999999999999998%float = Fin (9007199254740991 # 4503599627370496).
Proof. split; vm_compute; reflexivity. Qed.

Lemma round_keys_distinct :
  NoDup (map fst open_round) /\ NoDup (map fst resolved_round).
Proof.
  split; repeat constructor; cbn; intuition discriminate.
Defined.

(** The round sanitizer at work on an open round and on the same round
    resolved. *)
Lemma rollSanitizeGame_fields_witness :
  (exists out : list (string * jsval),
      rollSanitizeGame (VObj open_round) = Ok (VObj out)
      /\ lookup "outcome" out = None /\ lookup "fair" out = None)
  /\ (exists out : list (string * jsval),
        rollSanitizeGame (VObj resolved_round) = Ok (VObj out)
        /\ lookup "outcome" out = Some (VNum (ofZ 250))
        /\ lookup "fair" out = Some (VObj [("seed", VStr "s1")])).
Proof.
  destruct round_keys_distinct as [Ho Hr].
  split.
  - destruct (rollSanitizeGame_fields open_round Ho) as [out [E [Hstrip _]]].
    exists out. split; [exact E|].
    destruct Hstrip as (_ & Houtcome & Hfair & _); try discriminate.
    split; assumption.
  - destruct (rollSanitizeGame_fields resolved_round Hr) as [out [E [_ Hkeep]]].
    exists out. split; [exact E|].
    destruct (Hkeep (or_intror eq_refl)) as [_ [_ [Hout Hfair]]].
    split; [apply Hout | apply Hfair]; discriminate.
Defined.

(** C9 as stated fails: the element sanitized from [bet_with_balance]
    still has the bet's own [balance] field, and the [stats] object is
    handed over with the [balance] inside it; only the keys of the user
    object are restricted. *)
Lemma rollSanitizeBets_keeps_other_balance :
  exists (out : list (string * jsval)) (pu : list (string * jsval)),
    rollSanitizeBets [bet_with_balance] = Ok [VObj out]
    /\ lookup "balance" out = Some (VNum (ofZ 5000))
    /\ lookup "user" out = Some (VObj pu)
    /\ lookup "balance" pu = None
    /\ lookup "stats" pu = Some (VObj [("balance", VNum (ofZ 777))]).
Proof.
  eexists. eexists. repeat split; vm_compute; reflexivity.
Qed.

(** A bet without a user makes the sanitizer throw. *)
Example rollSanitizeBets_throws :
  rollSanitizeBets [VObj [("amount", VNum (ofZ 100))]] = Throw TypeError.
Proof. reflexivity. Qed.

(** The bet sanitizer at work on [bet_with_balance]. *)
Lemma rollSanitizeBets_public_user_witness :
  exists o : jsval,
    rollSanitizeBets [bet_with_balance] = Ok [o]
    /\ sanitized_bet bet_with_balance o.
Proof.
  destruct (rollSanitizeBets_public_user [bet_with_balance]) as [_ [H _]].
  eexists. split; [vm_compute; reflexivity|].
  specialize (H _ eq_refl). inversion H; subst. assumption.
Defined.

(** C3 as stated fails: when only the creation of the round is rejected,
    the run is rejected, no round is on record, and the seed the run
    created is left 'completed'. *)
Lemma seed_completed_without_round :
  fst (rollGenerateGame digest_stub game_create_fails draw1 draw2 empty_db)
  = Throw DbError
  /\ games (snd (rollGenerateGame digest_stub game_create_fails draw1 draw2 empty_db))
     = []
  /\ map (fun d => (seed_id d, seed_state d))
         (seeds (snd (rollGenerateGame digest_stub game_create_fails draw1 draw2
                        empty_db)))
     = [(0%nat, "completed")].
Proof. repeat split; vm_compute; reflexivity. Qed.

(** Round creation at work on the same run. *)
Lemma rollGenerateGame_no_rollback_witness :
  fst (rollGenerateGame digest_stub game_create_fails draw1 draw2 empty_db)
  = Throw DbError
  /\ games (snd (rollGenerateGame digest_stub game_create_fails draw1 draw2 empty_db))
     = games empty_db
  /\ exists d : RollSeedDoc,
       In d (seeds (snd (rollGenerateGame digest_stub game_create_fails draw1 draw2
                           empty_db)))
       /\ seed_id d = seed_in_use empty_db
       /\ seed_state d = "completed".
Proof.
  destruct (rollGenerateGame_no_rollback digest_stub game_create_fails draw1 draw2
              empty_db) as [_ [_ H]].
  apply H; reflexivity.
Defined.

(** Seed creation at work on the first run of an empty database. *)
Lemma commitment_independent_of_secret_witness :
  exists d : RollSeedDoc,
    In d (seeds (snd (rollGenerateGame digest_stub no_faults draw1 draw2 empty_db)))
    /\ seed_id d = next_id empty_db
    /\ seedServer d = hex_of_bytes draw1
    /\ hash d = hex_of_bytes (digest_stub draw2).
Proof.
  destruct (commitment_independent_of_secret digest_stub no_faults draw1 draw1 draw2
              empty_db) as [_ H].
  apply H; reflexivity.
Defined.

(** Two runs that draw different secrets and the same second draw store
    different secrets under the same commitment. *)
Example same_commitment_for_two_secrets :
  map (fun d => (seedServer d, hash d))
      (seeds (snd (rollGenerateGame digest_stub no_faults draw1 draw2 empty_db)))
  = [(hex_of_bytes draw1, hex_of_bytes draw2)]
  /\ map (fun d => (seedServer d, hash d))
         (seeds (snd (rollGenerateGame digest_stub no_faults draw2 draw2 empty_db)))
     = [(hex_of_bytes draw2, hex_of_bytes draw2)]
  /\ hex_of_bytes draw1 <> hex_of_bytes draw2.
Proof. repeat split; try (vm_compute; reflexivity). vm_compute. discriminate. Qed.

(** A complete run on an empty database. *)
Example rollGenerateGame_first_round :
  fst (rollGenerateGame digest_stub no_faults draw1 draw2 empty_db)
  = Ok {| view_id := 1;
          view_seed := Some (0%nat, hex_of_bytes draw1, hex_of_bytes draw2);
          view_state := "created" |}.
Proof. vm_compute. reflexivity. Qed.

(** ** Further runs *)

Lemma rollIsHashDivisible_divides_witness :
  rollIsHashDivisible
    "e3b0c44298fc1c149afbf4c8996fb92427ae41e4649b934ca495991b7852b855" (ofZ 20)
  = (hex_value "e3b0c44298fc1c149afbf4c8996fb92427ae41e4649b934ca495991b7852b855"
     mod 20 =? 0).
Proof.
  apply rollIsHashDivisible_divides; [reflexivity | split; [reflexivity | discriminate]].
Defined.

Lemma rollGetOutcome_at_least_100_witness :
  exists v : Z,
    rollGetOutcome "e3b0c44298fc1c149afbf4c8996fb92427ae41e4649b934ca495991b7852b855"
    = ofZ v
    /\ 100 <= v
    /\ (hex_value "e3b0c44298fc1c149afbf4c8996fb92427ae41e4649b934ca495991b7852b855"
        mod 20 = 0 -> v = 100).
Proof. apply rollGetOutcome_at_least_100. reflexivity. Defined.

(** The user [u1] has bet 500 and 300 in the round; the bet of [u2] is
    not counted. *)
Example own_total_800 :
  own_total unused_NumberToString (VObj user_u1) round_bets = 800.
Proof. reflexivity. Qed.

Lemma rollGetUserGameStats_own_bets_only_witness :
  rollGetUserGameStats unused_StringToNumber unused_NumberToString
    (VObj user_u1) round_bets
  = rollGetUserGameStats unused_StringToNumber unused_NumberToString
      (VObj user_u1)
      (filter (is_mine unused_NumberToString (VObj user_u1)) round_bets).
Proof. apply rollGetUserGameStats_own_bets_only; reflexivity. Defined.

Lemma rollGetUserGameStats_total_witness :
  exists w : num,
    rollGetUserGameStats unused_StringToNumber unused_NumberToString
      (VObj user_u1) round_bets
    = Ok (stats_obj
            (VNum (ofZ (own_total unused_NumberToString (VObj user_u1) round_bets)))
            (VNum w)).
Proof.
  apply rollGetUserGameStats_total;
    [reflexivity | reflexivity | reflexivity | reflexivity
    | vm_compute; discriminate].
Defined.


Lemma rollSanitizeGame_idempotent_witness :
  rollSanitizeGame (VObj [("_id", VStr "r1"); ("state", VStr "created")])
  = Ok (VObj [("_id", VStr "r1"); ("state", VStr "created")])
  /\ is_json (VObj [("_id", VStr "r1"); ("state", VStr "created")]) = true.
Proof. apply (rollSanitizeGame_idempotent (VObj open_round)). reflexivity. Defined.

Lemma rollSanitizeBet_agrees_with_rollSanitizeBets_witness :
  rollSanitizeBets [VObj json_bet] = (o <- rollSanitizeBet (VObj json_bet) ;; Ok [o]).
Proof.
  apply rollSanitizeBet_agrees_with_rollSanitizeBets; [|reflexivity].
  cbn [json_bet map fst].
  repeat (constructor; [cbn [In]; intros H; repeat (destruct H as [H|H]; try discriminate H); exact H|]).
  constructor.
Defined.

(** On other data the two differ: a field holding [undefined] is kept by
    [rollSanitizeBets] and dropped by [rollSanitizeBet]. *)
Example sanitizers_differ_on_undefined :
  rollSanitizeBets [VObj (("note", VUndef) :: json_bet)]
  <> (o <- rollSanitizeBet (VObj (("note", VUndef) :: json_bet)) ;; Ok [o]).
Proof. vm_compute. discriminate. Qed.

Lemma seed_update_rejected_seed_reused_witness :
  let db1 := snd (rollGenerateGame digest_stub seed_update_fails draw1 draw2 empty_db) in
  let db2 := snd (rollGenerateGame digest_stub no_faults draw1 draw2 db1) in
  fst (rollGenerateGame digest_stub seed_update_fails draw1 draw2 empty_db)
  = Throw DbError
  /\ seed_in_use db1 = seed_in_use empty_db
  /\ exists g1 g2 : RollGameDoc,
       games db1 = (games empty_db ++ [g1])%list
       /\ games db2 = (games empty_db ++ [g1; g2])%list
       /\ fair_seed g1 = seed_in_use empty_db
       /\ fair_seed g2 = seed_in_use empty_db.
Proof.
  apply (seed_update_rejected_seed_reused digest_stub seed_update_fails
           draw1 draw2 draw1 draw2 empty_db); reflexivity.
Defined.

Lemma rollGenerateGame_seed_used_once_witness :
  seed_in_use (snd (rollGenerateGame digest_stub no_faults draw1 draw2 db_one_created))
  <> seed_in_use db_one_created
  /\ forall d : RollSeedDoc,
       In d (seeds (snd (rollGenerateGame digest_stub no_faults draw1 draw2
                           db_one_created))) ->
       seed_id d = seed_in_use db_one_created ->
       seed_state d = "completed".
Proof.
  apply (rollGenerateGame_seed_used_once digest_stub no_faults draw1 draw2
           db_one_created
           {| view_id := 3; view_seed := Some (2%nat, "cc", "dd");
              view_state := "created" |}); reflexivity.
Defined.

Lemma rollGenerateGame_reuses_created_seed_witness :
  rollGenerateGame digest_stub no_faults draw1 draw2 db_one_created
  = rollGenerateGame digest_stub no_faults draw2 draw1 db_one_created
  /\ map seed_core
       (seeds (snd (rollGenerateGame digest_stub no_faults draw1 draw2 db_one_created)))
     = map seed_core (seeds db_one_created)
  /\ exists d : RollSeedDoc,
       In d (seeds db_one_created) /\ seed_state d = "created"
       /\ seed_id d = seed_in_use db_one_created
       /\ forall d' : RollSeedDoc,
            In d' (seeds db_one_created) -> seed_state d' = "created" ->
            (seed_id d' <= seed_id d)%nat.
Proof.
  apply (rollGenerateGame_reuses_created_seed digest_stub no_faults
           draw1 draw2 draw2 draw1 db_one_created). reflexivity.
Defined.

Lemma rollGenerateGame_view_carries_seed_witness :
  (exists d : RollSeedDoc,
      In d (seeds (snd (rollGenerateGame digest_stub no_faults draw1 draw2 empty_db)))
      /\ seed_id d = seed_in_use empty_db
      /\ view_seed {| view_id := 1;
                      view_seed := Some (0%nat, hex_of_bytes draw1, hex_of_bytes draw2);
                      view_state := "created" |}
         = Some (seed_id d, seedServer d, hash d))
  /\ (ids_below_next empty_db = true -> needs_seed empty_db = true ->
      view_seed {| view_id := 1;
                   view_seed := Some (0%nat, hex_of_bytes draw1, hex_of_bytes draw2);
                   view_state := "created" |}
      = Some (next_id empty_db, hex_of_bytes draw1,
              hex_of_bytes (digest_stub draw2))).
Proof.
  apply (rollGenerateGame_view_carries_seed digest_stub no_faults draw1 draw2
           empty_db). reflexivity.
Defined.

(** A request that passes every step: five checks, then the controller;
    the handler itself does not answer. *)
Example sendCreditDeposit_passes :
  sendCreditDeposit all_pass socket_signed_in (VObj [("amount", VNum (ofZ 5))])
    (Some quiet_callback)
  = (Returns tt,
     [Consume (VStr "203.0.113.7"); CheckAntiSpam (VStr "u1"); FindById (VStr "u1");
      CheckUserData (VObj [("username", VStr "ann")]);
      SettingCheck (VObj [("username", VStr "ann")]) "credit.deposit.enabled";
      ControllerCall cashierSendCreditDepositSocket
        (VObj [("username", VStr "ann")]) (VObj [("amount", VNum (ofZ 5))])]).
Proof. reflexivity. Qed.

(** The other handler logs first and hands over to its own controller. *)
Example checkCreditDeposit_passes :
  calls (checkCreditDeposit all_pass socket_signed_in (VObj [("code", VStr "abc")])
           (Some quiet_callback))
  = [ConsoleLog "checkCreditDeposit";
     Consume (VStr "203.0.113.7"); CheckAntiSpam (VStr "u1"); FindById (VStr "u1");
     CheckUserData (VObj [("username", VStr "ann")]);
     SettingCheck (VObj [("username", VStr "ann")]) "credit.deposit.enabled";
     ControllerCall cashierCheckCreditDepositSocket
       (VObj [("username", VStr "ann")]) (VObj [("code", VStr "abc")])].
Proof. reflexivity. Qed.

(** A request refused by the setting check: the anti-spam entry is
    released and the refusal reported. *)
Example sendCreditDeposit_refused :
  calls (sendCreditDeposit deposits_disabled socket_signed_in VUndef
           (Some quiet_callback))
  = [Consume (VStr "203.0.113.7"); CheckAntiSpam (VStr "u1"); FindById (VStr "u1");
     CheckUserData (VObj [("username", VStr "ann")]);
     SettingCheck (VObj [("username", VStr "ann")]) "credit.deposit.enabled";
     RemoveAntiSpam (VStr "u1");
     Callback (failure (VStr "Deposits are disabled."))].
Proof. reflexivity. Qed.

(** A request the rate limiter refuses: the slow-down message, and no
    other call. *)
Example sendCreditDeposit_rate_limited :
  calls (sendCreditDeposit rate_limited socket_signed_in VUndef (Some quiet_callback))
  = [Consume (VStr "203.0.113.7"); Callback (failure (VStr slow_down_message))].
Proof. reflexivity. Qed.

(** A request without a signed-in user, and one without a callback. *)
Example sendCreditDeposit_signed_out :
  calls (sendCreditDeposit all_pass (VObj []) VUndef (Some quiet_callback))
  = [Callback (failure (VStr sign_in_message))]
  /\ calls (sendCreditDeposit all_pass socket_signed_in VUndef None) = [].
Proof. split; reflexivity. Qed.

(** A round that takes bets, and its public view. *)
Example open_round_accepted :
  rollCheckSendBetGame (VObj open_round) = Ok tt
  /\ rollSanitizeGame (VObj open_round)
     = Ok (VObj [("_id", VStr "r1"); ("state", VStr "created")])
  /\ rollCheckSendBetGame (VObj resolved_round) = Throw (Error MsgWaitNextRound).
Proof. repeat split; reflexivity. Qed.

Lemma controller_runs_after_all_checks_witness :
  cashierSendCreditDepositSocket = cashierSendCreditDepositSocket
  /\ VObj [("amount", VNum (ofZ 5))] = VObj [("amount", VNum (ofZ 5))]
  /\ Some quiet_callback <> None
  /\ is_nullish (prop socket_signed_in "decoded") = false
  /\ rateLimiter_consume all_pass (identifier_of socket_signed_in) = Returns tt
  /\ socketCheckAntiSpam all_pass (decoded_id socket_signed_in) = Returns tt
  /\ User_findById all_pass (decoded_id socket_signed_in)
     = Returns (VObj [("username", VStr "ann")])
  /\ socketCheckUserData all_pass (VObj [("username", VStr "ann")]) = Returns tt
  /\ settingCheck all_pass (VObj [("username", VStr "ann")]) "credit.deposit.enabled"
     = Returns tt
  /\ exists rest : list event,
       calls (credit_deposit_handler all_pass cashierSendCreditDepositSocket
                socket_signed_in (VObj [("amount", VNum (ofZ 5))])
                (Some quiet_callback))
       = ([Consume (identifier_of socket_signed_in);
           CheckAntiSpam (decoded_id socket_signed_in);
           FindById (decoded_id socket_signed_in);
           CheckUserData (VObj [("username", VStr "ann")]);
           SettingCheck (VObj [("username", VStr "ann")]) "credit.deposit.enabled";
           ControllerCall cashierSendCreditDepositSocket
             (VObj [("username", VStr "ann")]) (VObj [("amount", VNum (ofZ 5))])]
          ++ rest)%list.
Proof.
  apply (controller_runs_after_all_checks all_pass cashierSendCreditDepositSocket
           socket_signed_in (VObj [("amount", VNum (ofZ 5))]) (Some quiet_callback)
           cashierSendCreditDepositSocket (VObj [("username", VStr "ann")])
           (VObj [("amount", VNum (ofZ 5))])).
  cbn. tauto.
Defined.

Lemma handler_answers_once_witness :
  fst (credit_deposit_handler deposits_disabled cashierSendCreditDepositSocket
         socket_signed_in VUndef (Some quiet_callback)) = Returns tt
  /\ List.length
       (filter is_callback
          (calls (credit_deposit_handler deposits_disabled
                    cashierSendCreditDepositSocket socket_signed_in VUndef
                    (Some quiet_callback))))
     = if negb (is_nullish (prop socket_signed_in "decoded"))
          && identifier_readable socket_signed_in
          && reaches_inner_steps deposits_disabled socket_signed_in
          && inner_steps_pass deposits_disabled cashierSendCreditDepositSocket
               socket_signed_in VUndef
       then 0%nat else 1%nat.
Proof.
  apply handler_answers_once.
  - intros response. reflexivity.
  - repeat split; intros; reflexivity.
  - reflexivity.
Defined.

Lemma rollGetOutcome_monotone_witness :
  exists va vb : Z,
    rollGetOutcome "09f1165e725481c149afbf4c8996fb92427ae41e4649b934ca495991b7852b85"
    = ofZ va
    /\ rollGetOutcome "e3b0c44298fc1c149afbf4c8996fb92427ae41e4649b934ca495991b7852b855"
       = ofZ vb
    /\ va <= vb.
Proof.
  apply rollGetOutcome_monotone;
    [reflexivity | reflexivity | vm_compute; discriminate | vm_compute; discriminate
    | vm_compute; discriminate].
Defined.


Lemma missing_balance_passes_balance_test_witness :
  rollCheckSendBetUser unused_StringToNumber unused_NumberToString env_small
    (VObj [("amount", VNum (ofZ 200)); ("multiplier", VNum (ofZ 150))])
    (VObj [("_id", VStr "u1")])
    (stats_obj (VNum (ofZ 0)) (VNum (ofZ 0)))
  <> Throw (Error MsgBalance).
Proof. apply missing_balance_passes_balance_test. reflexivity. Defined.

(** Without a balance the bet is accepted. *)
Example missing_balance_accepted :
  rollCheckSendBetUser unused_StringToNumber unused_NumberToString env_small
    (VObj [("amount", VNum (ofZ 200)); ("multiplier", VNum (ofZ 150))])
    (VObj [("_id", VStr "u1")])
    (stats_obj (VNum (ofZ 0)) (VNum (ofZ 0)))
  = Ok tt.
Proof. vm_compute. reflexivity. Qed.

(** An object with a [toString] property of its own that is no function
    has no text and no number.  As the [_id] of the user it makes
    [rollGetUserGameStats] throw a TypeError on the bets of a round, and
    return on an empty list; as the multiplier of a bet of the user it
    makes the function throw as well, and as the multiplier of a bet of
    another user it is never converted.  As the balance it makes
    [rollCheckSendBetUser] throw a TypeError. *)
Example unconvertible_values_throw :
  converts (VObj [("toString", VNum (ofZ 5))]) = false
  /\ rollGetUserGameStats unused_StringToNumber unused_NumberToString
       (VObj [("_id", VObj [("toString", VNum (ofZ 5))])]) round_bets
     = Throw TypeError
  /\ rollGetUserGameStats unused_StringToNumber unused_NumberToString
       (VObj [("_id", VObj [("toString", VNum (ofZ 5))])]) []
     = Ok (stats_obj (VNum (ofZ 0)) (VNum (ofZ 0)))
  /\ rollGetUserGameStats unused_StringToNumber unused_NumberToString
       (VObj user_u1)
       [VObj [("user", VObj [("_id", VStr "u1")]); ("amount", VNum (ofZ 5));
              ("multiplier", VObj [("toString", VNum (ofZ 5))])]]
     = Throw TypeError
  /\ rollGetUserGameStats unused_StringToNumber unused_NumberToString
       (VObj user_u1)
       [VObj [("user", VObj [("_id", VStr "u2")]); ("amount", VNum (ofZ 5));
              ("multiplier", VObj [("toString", VNum (ofZ 5))])]]
     = Ok (stats_obj (VNum (ofZ 0)) (VNum (ofZ 0)))
  /\ rollCheckSendBetUser unused_StringToNumber unused_NumberToString env_small
       (bet_data (VNum (ofZ 200)) (VNum (ofZ 150)))
       (user_with_balance (VObj [("toString", VNum (ofZ 5))]))
       (stats_obj (VNum (ofZ 0)) (VNum (ofZ 0)))
     = Throw TypeError.
Proof. repeat split; vm_compute; reflexivity. Qed.
